(** * Grove: the forest of rollup trees (zkopru, packages/tree/src/grove.ts)

    A shallow embedding of the [Grove] class and of the SQLite connector
    (packages/database/src/connectors/sqlite.ts) it persists through, with
    the statements of the specification proved or refuted against them.

    What is embedded from the sources: every method of [Grove]
    ([applyBootstrap], [init], [getSnapshot], [applyGrovePatch], [dryPatch],
    [recordBootstrap], [appendUTXOs], [appendWithdrawals], [markAsNullified],
    the two proof queries and the two bootstrap helpers) and the connector's
    [findOne], [update], [create] and [upsert], as the Grove sees them
    through the rows of the tables.  The module [SQLiteConnector] further
    down follows the connector itself, statement by statement, over a driver
    that is a parameter: [whereToSql], [create], [update], [upsert],
    [findMany] with [loadIncluded], [findOne], [count], [deleteMany] and
    [deleteOne].  Its [createTables] needs [constructSchema] and
    [normalizeRowDef] of types.ts and is left out.

    What [Grove] calls and the sources do not hold is modelled from the
    specification, each definition saying so: the hasher's [genesisRoot],
    [verifyProof] and [startingLeafProof], the frontier engine
    ([LightRollupTree]: [append], [dryAppend], [latestLeafIndex], [maxSize],
    [from]), [TreeCache.getCachedSiblings] and the [NullifierTree].  The
    walk of [append] keeps the frontier that section 4.3 and invariant 1
    describe: the sibling of a right child stays in its slot.

    Conventions.
    - [Fp] and [BN] values are integers ([Z]).  Tree indices stay below
      [2^depth], far below the field order, so the reduction [Fp] applies is
      never reached by the index arithmetic modelled here.
    - Columns that the database stores as decimal or hex strings are kept as
      the numbers they encode; a nullable column is an [option].  An index
      column holds a decimal string or [null], so a stored index is truthy.
    - An [async] method is a computation in the state-and-exception monad
      [M]: an exception keeps the mutations made before it, as in JavaScript.
      The methods that stage writes run on the Grove together with the
      caller's [TransactionDB]; the others on the Grove alone.
    - [lock.acquire('grove', f)] runs [f] to completion before any other
      caller; calls are therefore modelled one at a time ([acquire]). *)

From Stdlib Require Import String Ascii ZArith List Bool Lia DecimalString.
Import ListNotations.

Local Open Scope Z_scope.

Set Implicit Arguments.

(** ** JavaScript exceptions and the computation monad *)

Inductive exn : Type :=
| Error (message : string)   (* [throw Error(message)] *)
| TypeError                  (* a property read on [undefined] *)
| AssertionError             (* [assert(v)] on a falsy [v] *)
| RangeError.                (* [Array(n)] with an invalid length *)

Inductive result (A : Type) : Type :=
| Ok (a : A)
| Throw (e : exn).

Arguments Ok {A} a.
Arguments Throw {A} e.

Definition M (S A : Type) : Type := S -> S * result A.

Definition ret {S A : Type} (a : A) : M S A := fun s => (s, Ok a).

Definition throw {S A : Type} (e : exn) : M S A := fun s => (s, Throw e).

Definition bind {S A B : Type} (c : M S A) (k : A -> M S B) : M S B :=
  fun s =>
    match c s with
    | (s', Ok a) => k a s'
    | (s', Throw e) => (s', Throw e)
    end.

Definition get {S : Type} : M S S := fun s => (s, Ok s).

Definition put {S : Type} (s : S) : M S unit := fun _ => (s, Ok tt).

Declare Scope monad_scope.
Delimit Scope monad_scope with monad.

Notation "x <- c ;; k" := (bind c (fun x => k))
  (at level 100, c at next level, right associativity) : monad_scope.
Notation "' p <- c ;; k" := (bind c (fun x => let p := x in k))
  (at level 100, p pattern, c at next level, right associativity) : monad_scope.
Notation "c ;;; k" := (bind c (fun _ => k))
  (at level 100, right associativity) : monad_scope.

Local Open Scope monad_scope.

(** [AsyncLock.acquire]: the body runs alone and the lock is released on
    every exit, so a call seen from outside is the body itself. *)
Definition acquire {S A : Type} (body : M S A) : M S A := body.

(** What a lookup hands back to JavaScript: a row, [null] or [undefined]. *)
Inductive JsRow (A : Type) : Type :=
| Undefined
| Null
| Row (a : A).

Arguments Undefined {A}.
Arguments Null {A}.
Arguments Row {A} a.

(** [Math.ceil(a / b)] for a length [a >= 0] and a quantum [b > 0]. *)
Definition ceilDiv (a b : Z) : Z := - ((- a) / b).

(** [n.toString(2).length] for [n >= 0] (["0"] has one digit). *)
Definition bitLength (n : Z) : Z := Z.log2 n + 1.

(** [a[i] = v] on a JavaScript array: an index inside the array replaces the
    element, a negative one adds a property and leaves the elements alone, an
    index past the end grows the array (the holes, [undefined] in
    JavaScript, are written as [0]). *)
Fixpoint arraySetNat (a : list Z) (i : nat) (v : Z) : list Z :=
  match i, a with
  | O, [] => [v]
  | O, _ :: rest => v :: rest
  | S j, [] => 0 :: arraySetNat [] j v
  | S j, x :: rest => x :: arraySetNat rest j v
  end.

Definition arraySet (a : list Z) (i : Z) (v : Z) : list Z :=
  if i <? 0 then a else arraySetNat a (Z.to_nat i) v.

(** ** Hasher and Merkle proofs *)

Record Hasher : Type := {
  parentOf : Z -> Z -> Z;
  preHash : list Z
}.

(** Modelled from the spec: [genesisRoot] of hasher.ts, which is not among the
    sources.  "[genesisRoot(h) = h.preHash[D]]" for the vector
    [preHash[0..=D]]: its last entry. *)
Definition genesisRoot (h : Hasher) : Z :=
  nth (length (preHash h) - 1) (preHash h) 0.

Record MerkleProof : Type := {
  p_root : Z;
  p_index : Z;
  p_leaf : Z;
  p_siblings : list Z
}.

(** Folding a node up through the levels [k, k+1, ...] whose siblings are
    [sibs]: bit [k] of [index] says whether the node is a right child. *)
Fixpoint foldPath (h : Hasher) (index : Z) (k : nat) (sibs : list Z) (node : Z) : Z :=
  match sibs with
  | [] => node
  | s :: rest =>
      foldPath h index (S k) rest
        (if Z.testbit index (Z.of_nat k) then parentOf h s node else parentOf h node s)
  end.

(** Modelled from the spec: [verifyProof] of merkle-proof.ts, which is not
    among the sources.  It "folds [leaf] up through [D] levels, selecting
    left/right by bit [k] of [index], and returns [root == folded]". *)
Definition verifyProof (h : Hasher) (p : MerkleProof) : bool :=
  p_root p =? foldPath h (p_index p) 0 (p_siblings p) (p_leaf p).

Fixpoint emptyToTheRight (h : Hasher) (index : Z) (k : nat) (sibs : list Z) : bool :=
  match sibs with
  | [] => true
  | s :: rest =>
      (if Z.testbit index (Z.of_nat k) then true else s =? nth k (preHash h) 0)
      && emptyToTheRight h index (S k) rest
  end.

(** Modelled from the spec: [startingLeafProof] of merkle-proof.ts, which is
    not among the sources: the proof of the empty leaf at [index] verifies
    and "additionally [siblings[k] == h.preHash[k]] for every level [k] where
    bit [k] of [index] is 0". *)
Definition startingLeafProof (h : Hasher) (root index : Z) (siblings : list Z) : bool :=
  verifyProof h {| p_root := root; p_index := index;
                   p_leaf := nth 0 (preHash h) 0; p_siblings := siblings |}
  && emptyToTheRight h index 0 siblings.

(** ** Rows of the database *)

Inductive TreeSpecies : Type := UTXO | WITHDRAWAL.

Definition species_eqb (a b : TreeSpecies) : bool :=
  match a, b with
  | UTXO, UTXO | WITHDRAWAL, WITHDRAWAL => true
  | _, _ => false
  end.

(** The tree a [TreeNode] row belongs to: a light rollup tree, by the id of
    its metadata row, or the nullifier tree. *)
Inductive TreeId : Type :=
| LightTreeId (id : Z)
| NullifierTreeId.

Definition treeId_eqb (a b : TreeId) : bool :=
  match a, b with
  | LightTreeId x, LightTreeId y => x =? y
  | NullifierTreeId, NullifierTreeId => true
  | _, _ => false
  end.

Record LightTree : Type := {
  lt_id : Z;
  lt_species : TreeSpecies;
  lt_root : Z;
  lt_index : Z;
  lt_siblings : list Z;
  lt_start : Z;
  lt_end : Z
}.

Record TreeNode : Type := {
  treeId : TreeId;
  nodeIndex : Z;
  value : Z
}.

Record Utxo : Type := {
  u_hash : Z;
  u_index : option Z
}.

Record Withdrawal : Type := {
  w_withdrawalHash : Z;
  w_index : option Z
}.

(** The columns [bootstrapUtxoTree] writes. *)
Record LightTreeData : Type := {
  d_root : Z;
  d_index : Z;
  d_siblings : list Z;
  d_start : Z;
  d_end : Z
}.

(** ** The SQLite connector (packages/database/src/connectors/sqlite.ts)

    Tables are lists of rows in insertion order.  The schema is not among the
    sources: the default it gives a new [LightTree] row's [id] is drawn from a
    counter. *)

Record DB : Type := {
  tblLightTree : list LightTree;
  tblTreeNode : list TreeNode;
  tblUtxo : list Utxo;
  tblWithdrawal : list Withdrawal;
  nextId : Z
}.

Definition emptyDB : DB :=
  {| tblLightTree := []; tblTreeNode := []; tblUtxo := []; tblWithdrawal := [];
     nextId := 1 |}.

Definition withLightTrees (db : DB) (rows : list LightTree) (next : Z) : DB :=
  {| tblLightTree := rows; tblTreeNode := tblTreeNode db; tblUtxo := tblUtxo db;
     tblWithdrawal := tblWithdrawal db; nextId := next |}.

(** [findOne]: the first row of [findMany] with [limit: 1]; the array
    pattern [const [obj] = rows] yields [undefined] when no row matches. *)
Definition findOne {A : Type} (rows : list A) (where_ : A -> bool) : JsRow A :=
  match filter where_ rows with
  | [] => Undefined
  | obj :: _ => Row obj
  end.

Definition whereSpecies (s : TreeSpecies) (r : LightTree) : bool :=
  species_eqb (lt_species r) s.

Definition setLightTree (d : LightTreeData) (r : LightTree) : LightTree :=
  {| lt_id := lt_id r; lt_species := lt_species r; lt_root := d_root d;
     lt_index := d_index d; lt_siblings := d_siblings d;
     lt_start := d_start d; lt_end := d_end d |}.

(** [update]: [UPDATE ... SET ... WHERE species = s]; returns the number of
    rows changed. *)
Definition updateLightTree (s : TreeSpecies) (d : LightTreeData) (db : DB) : DB * Z :=
  (withLightTrees db
     (map (fun r => if whereSpecies s r then setLightTree d r else r) (tblLightTree db))
     (nextId db),
   Z.of_nat (length (filter (whereSpecies s) (tblLightTree db)))).

(** [create]: [INSERT INTO ...], the [id] filled in from the schema default. *)
Definition createLightTree (s : TreeSpecies) (d : LightTreeData) (db : DB) : DB :=
  withLightTrees db
    (tblLightTree db ++
     [{| lt_id := nextId db; lt_species := s; lt_root := d_root d;
         lt_index := d_index d; lt_siblings := d_siblings d;
         lt_start := d_start d; lt_end := d_end d |}])
    (nextId db + 1).

(** [upsert]: update, and create when no row was updated. *)
Definition upsertLightTree (s : TreeSpecies) (d : LightTreeData) (db : DB) : DB :=
  let (db', updated) := updateLightTree s d db in
  if updated >? 0 then db' else createLightTree s d db.

(** ** The caller's transaction

    A [TransactionDB] stages writes; the caller commits them.  Staged
    operations are kept in the order they were issued. *)

Inductive TxOp : Type :=
| UpsertTreeNode (n : TreeNode)
| UpdateLightTree (id root index : Z) (siblings : list Z)
| UpsertBootstrap (blockHash : string) (utxoBootstrap withdrawalBootstrap : list Z)
| UpsertBlock (blockHash : string)
| CreateBootstrap (utxoBootstrap withdrawalBootstrap : list Z).

Definition TransactionDB : Type := list TxOp.

(** ** TreeCache *)

Definition TreeCache : Type := list TreeNode.

Definition isNode (tid : TreeId) (n : Z) (row : TreeNode) : bool :=
  treeId_eqb (treeId row) tid && (nodeIndex row =? n).

(** A node as the trees read it: "drawing first from cache and falling back
    to" the [TreeNode] table. *)
Definition cachedNode (cache : TreeCache) (db : DB) (tid : TreeId) (n : Z) : option TreeNode :=
  match find (isNode tid n) cache with
  | Some row => Some row
  | None => find (isNode tid n) (tblTreeNode db)
  end.

Fixpoint siblingsFrom (cache : TreeCache) (db : DB) (tid : TreeId) (leafNode : Z)
    (k : nat) (levels : nat) : list TreeNode :=
  match levels with
  | O => []
  | S rest =>
      match cachedNode cache db tid (Z.lxor (Z.shiftr leafNode (Z.of_nat k)) 1) with
      | Some row => row :: siblingsFrom cache db tid leafNode (S k) rest
      | None => siblingsFrom cache db tid leafNode (S k) rest
      end
  end.

(** Modelled from the spec: [TreeCache.getCachedSiblings] of utils.ts, which
    is not among the sources.  It "returns, for each of the [D] levels, the
    sibling node required to verify [leafIndex]"; node indices are heap
    indices, the leaves at [2^D + leafIndex]. *)
Definition getCachedSiblings (cache : TreeCache) (db : DB) (depth : nat) (tid : TreeId)
    (leafIndex : Z) : list TreeNode :=
  siblingsFrom cache db tid (2 ^ Z.of_nat depth + leafIndex) 0 depth.

(** ** LightRollupTree: the frontier engine *)

(** A leaf is [{ hash, note?, shouldTrack? }].  Of the note only what decides
    observation is kept: its owner, the [pubKey] of a UTXO note or the [to]
    of a withdrawal note. *)
Record Note : Type := { owner : string }.

Record Leaf : Type := {
  hash : Z;
  note : option Note;
  shouldTrack : option bool
}.

Record TreeData : Type := {
  root : Z;
  index : Z;
  siblings : list Z
}.

Record LightRollupTree : Type := {
  metadata : LightTree;
  data : TreeData;
  t_hasher : Hasher;
  t_forceUpdate : option bool;
  t_fullSync : option bool;
  observing : list string
}.

Record DryAppendResult : Type := {
  dry_root : Z;
  dry_index : Z
}.

(** [root()], and the depth [D]: the length of the frontier. *)
Definition treeRoot (t : LightRollupTree) : Z := root (data t).

Definition depth (t : LightRollupTree) : nat := length (siblings (data t)).

(** Modelled from the spec: "[latestLeafIndex()] returns [index];
    [maxSize()] returns [2^D]" (light-rollup-tree.ts is not among the
    sources); [D] is the length of the frontier. *)
Definition latestLeafIndex (t : LightRollupTree) : Z := index (data t).

Definition maxSize (t : LightRollupTree) : Z := 2 ^ Z.of_nat (depth t).

(** Modelled from the spec: [UtxoTree.from] and [WithdrawalTree.from], which
    "rehydrate from a persisted row". *)
Definition from (row : LightTree) (h : Hasher) (force full : option bool) : LightRollupTree :=
  {| metadata := row;
     data := {| root := lt_root row; index := lt_index row; siblings := lt_siblings row |};
     t_hasher := h; t_forceUpdate := force; t_fullSync := full; observing := [] |}.

Definition withData (t : LightRollupTree) (d : TreeData) : LightRollupTree :=
  {| metadata := metadata t; data := d; t_hasher := t_hasher t;
     t_forceUpdate := t_forceUpdate t; t_fullSync := t_fullSync t;
     observing := observing t |}.

(** [updatePubKeys] and [updateAddresses]: the retention predicate is
    replaced. *)
Definition updateObserving (t : LightRollupTree) (addresses : list string) : LightRollupTree :=
  {| metadata := metadata t; data := data t; t_hasher := t_hasher t;
     t_forceUpdate := t_forceUpdate t; t_fullSync := t_fullSync t;
     observing := addresses |}.

(** An optional flag read as a condition: [undefined] is falsy. *)
Definition truthy (b : option bool) : bool :=
  match b with Some true => true | _ => false end.

(** Modelled from the spec: "[track = shouldTrack || observed(leaf)]", the
    observation being an address match on the note's owner. *)
Definition retained (t : LightRollupTree) (leaf : Leaf) : bool :=
  truthy (shouldTrack leaf)
  || match note leaf with
     | Some n => existsb (String.eqb (owner n)) (observing t)
     | None => false
     end.

(** Modelled from the spec: the walk of [LightRollupTree.append]
    (light-rollup-tree.ts is not among the sources).  "At each level [k]
    determine whether the current node is a left or right child by bit [k]
    of the current index; if right, compute
    [parent = parentOf(sibling_k, current)]; if left, set
    [sibling_k := current] and [parent := parentOf(current, preHash[k])]."
    On a right child the sibling stays in its slot.  Section 4.3 keeps the
    frontier so that [siblings[k]] is "the hash that will pair with the left
    child at level [k] when the next leaf at index [index] is inserted, if
    bit [k] of [index] is 1", and invariant 1 makes the root the fold of
    that frontier: the slot of a right child is read again by every later
    leaf whose bit [k] is still 1, so it cannot be given up to [preHash[k]]
    while it is in use.  Returns the new frontier and the node reached after
    the last level. *)
Fixpoint walkUp (h : Hasher) (idx : Z) (k : nat) (sibs : list Z) (current : Z)
    : list Z * Z :=
  match sibs with
  | [] => ([], current)
  | sibling_k :: rest =>
      let z := nth k (preHash h) 0 in
      if Z.testbit idx (Z.of_nat k)
      then let (rest', top) := walkUp h idx (S k) rest (parentOf h sibling_k current) in
           (sibling_k :: rest', top)
      else let (rest', top) := walkUp h idx (S k) rest (parentOf h current z) in
           (current :: rest', top)
  end.

(** The rows staged for a retained leaf: "the current node and its sibling
    (both at level [k])". *)
Fixpoint pathNodes (h : Hasher) (tid : TreeId) (leafNode idx : Z) (k : nat)
    (sibs : list Z) (current : Z) : list TreeNode :=
  match sibs with
  | [] => []
  | sibling_k :: rest =>
      let z := nth k (preHash h) 0 in
      let here := Z.shiftr leafNode (Z.of_nat k) in
      let right := Z.testbit idx (Z.of_nat k) in
      {| treeId := tid; nodeIndex := here; value := current |}
      :: {| treeId := tid; nodeIndex := Z.lxor here 1;
            value := if right then sibling_k else z |}
      :: pathNodes h tid leafNode idx (S k) rest
           (if right then parentOf h sibling_k current else parentOf h current z)
  end.

Definition appendLeaf (t : LightRollupTree) (acc : TreeData * list TreeNode) (leaf : Leaf)
    : TreeData * list TreeNode :=
  let (d, staged) := acc in
  let (sibs', top) := walkUp (t_hasher t) (index d) 0 (siblings d) (hash leaf) in
  ({| root := top; index := index d + 1; siblings := sibs' |},
   staged ++
   (if retained t leaf
    then pathNodes (t_hasher t) (LightTreeId (lt_id (metadata t)))
           (2 ^ Z.of_nat (length (siblings d)) + index d) (index d) 0 (siblings d) (hash leaf)
    else [])).

Definition appendLeaves (t : LightRollupTree) (leaves : list Leaf) : TreeData * list TreeNode :=
  fold_left (appendLeaf t) leaves (data t, []).

(** Modelled from the spec: [LightRollupTree.append(leaves, tx)].  The leaves
    are walked in order; the nodes of retained paths go to the cache and, as
    [TreeNode] rows, to the transaction; "after all leaves" the new root,
    index and siblings are written to the metadata row in the same
    transaction.  The tree object holds the new frontier from then on. *)
Definition append (t : LightRollupTree) (leaves : list Leaf) (cache : TreeCache)
    (tx : TransactionDB) : LightRollupTree * TreeCache * TransactionDB :=
  let (d, staged) := appendLeaves t leaves in
  (withData t d,
   rev staged ++ cache,
   tx ++ map UpsertTreeNode staged
      ++ [UpdateLightTree (lt_id (metadata t)) (root d) (index d) (siblings d)]).

(** Modelled from the spec: [LightRollupTree.dryAppend(leaves)] "performs the
    identical computation against a scratch copy of the frontier and returns
    [{root, index: index + leaves.length}] without touching [tx] or cache". *)
Definition dryAppend (t : LightRollupTree) (leaves : list Leaf) : DryAppendResult :=
  {| dry_root := root (fst (appendLeaves t leaves));
     dry_index := index (data t) + Z.of_nat (length leaves) |}.

(** ** NullifierTree *)

Record NullifierTree : Type := {
  n_hasher : Hasher;
  n_depth : nat
}.

Fixpoint insertKey (k : Z) (sorted : list Z) : list Z :=
  match sorted with
  | [] => [k]
  | x :: rest => if k <=? x then k :: sorted else x :: insertKey k rest
  end.

Definition sortKeys (keys : list Z) : list Z := fold_right insertKey [] keys.

(** Modelled from the spec: the walk shared by [nullify] and
    [dryRunNullify] (nullifier-tree.ts is not among the sources).  It goes
    top-down, the keys grouped by their bit at the level below; a set leaf
    holds 1; an untouched subtree keeps its stored value or, when none is
    stored, [preHash[level]].  Returns the value of the node and the visited
    nodes in post-order. *)
Fixpoint nullifyWalk (h : Hasher) (stored : Z -> option Z) (level : nat) (node : Z)
    (keys : list Z) : Z * list (Z * Z) :=
  match keys with
  | [] =>
      (match stored node with
       | Some v => v
       | None => nth level (preHash h) 0
       end, [])
  | _ :: _ =>
      match level with
      | O => (1, [(node, 1)])
      | S below =>
          let bit := fun k => Z.testbit k (Z.of_nat below) in
          let (lv, lnodes) :=
            nullifyWalk h stored below (2 * node) (filter (fun k => negb (bit k)) keys) in
          let (rv, rnodes) :=
            nullifyWalk h stored below (2 * node + 1) (filter bit keys) in
          (parentOf h lv rv, lnodes ++ rnodes ++ [(node, parentOf h lv rv)])
      end
  end.

Definition storedNullifierNode (cache : TreeCache) (db : DB) (n : Z) : option Z :=
  option_map value (cachedNode cache db NullifierTreeId n).

Definition nullifierNode (nv : Z * Z) : TreeNode :=
  {| treeId := NullifierTreeId; nodeIndex := fst nv; value := snd nv |}.

(** Modelled from the spec: [NullifierTree.dryRunNullify], which "returns the
    resulting root only" (nullifier-tree.ts is not among the sources). *)
Definition dryRunNullify (t : NullifierTree) (cache : TreeCache) (db : DB) (keys : list Z) : Z :=
  fst (nullifyWalk (n_hasher t) (storedNullifierNode cache db) (n_depth t) 1 (sortKeys keys)).

(** Modelled from the spec: [NullifierTree.nullify], which "persists every
    visited non-empty node": to the cache and, as rows, to the transaction. *)
Definition nullify (t : NullifierTree) (keys : list Z) (cache : TreeCache) (db : DB)
    (tx : TransactionDB) : TreeCache * TransactionDB :=
  let visited :=
    snd (nullifyWalk (n_hasher t) (storedNullifierNode cache db) (n_depth t) 1 (sortKeys keys)) in
  (rev (map nullifierNode visited) ++ cache,
   tx ++ map (fun nv => UpsertTreeNode (nullifierNode nv)) visited).

(** ** Grove *)

Record GroveConfig : Type := {
  utxoTreeDepth : nat;
  withdrawalTreeDepth : nat;
  nullifierTreeDepth : nat;
  utxoSubTreeSize : Z;
  withdrawalSubTreeSize : Z;
  utxoHasher : Hasher;
  withdrawalHasher : Hasher;
  nullifierHasher : Hasher;
  fullSync : option bool;
  forceUpdate : option bool;
  zkAddressesToObserve : list string;
  addressesToObserve : list string
}.

Record GrovePatch : Type := {
  header : option string;
  utxos : list Leaf;
  withdrawals : list Leaf;
  nullifiers : list Z
}.

Record GroveSnapshot : Type := {
  utxoTreeIndex : Z;
  utxoTreeRoot : Z;
  withdrawalTreeIndex : Z;
  withdrawalTreeRoot : Z;
  nullifierTreeRoot : option Z
}.

(** The object: [utxoTree] and [withdrawalTree] are declared [!:] and stay
    [undefined] ([None]) until [init] or [applyBootstrap] assigns them. *)
Record Grove : Type := {
  config : GroveConfig;
  db : DB;
  utxoTree : option LightRollupTree;
  withdrawalTree : option LightRollupTree;
  nullifierTree : option NullifierTree;
  treeCache : TreeCache
}.

(** [constructor(db, config)] *)
Definition newGrove (d : DB) (c : GroveConfig) : Grove :=
  {| config := c; db := d; utxoTree := None; withdrawalTree := None;
     nullifierTree := None; treeCache := [] |}.

Definition setConfig (g : Grove) (c : GroveConfig) : Grove :=
  {| config := c; db := db g; utxoTree := utxoTree g;
     withdrawalTree := withdrawalTree g; nullifierTree := nullifierTree g;
     treeCache := treeCache g |}.

Definition setDb (g : Grove) (d : DB) : Grove :=
  {| config := config g; db := d; utxoTree := utxoTree g;
     withdrawalTree := withdrawalTree g; nullifierTree := nullifierTree g;
     treeCache := treeCache g |}.

Definition setUtxoTree (g : Grove) (t : option LightRollupTree) : Grove :=
  {| config := config g; db := db g; utxoTree := t;
     withdrawalTree := withdrawalTree g; nullifierTree := nullifierTree g;
     treeCache := treeCache g |}.

Definition setWithdrawalTree (g : Grove) (t : option LightRollupTree) : Grove :=
  {| config := config g; db := db g; utxoTree := utxoTree g;
     withdrawalTree := t; nullifierTree := nullifierTree g;
     treeCache := treeCache g |}.

Definition setNullifierTree (g : Grove) (t : option NullifierTree) : Grove :=
  {| config := config g; db := db g; utxoTree := utxoTree g;
     withdrawalTree := withdrawalTree g; nullifierTree := t;
     treeCache := treeCache g |}.

Definition setTreeCache (g : Grove) (c : TreeCache) : Grove :=
  {| config := config g; db := db g; utxoTree := utxoTree g;
     withdrawalTree := withdrawalTree g; nullifierTree := nullifierTree g;
     treeCache := c |}.

(** Reading a property of [this.utxoTree] (or of a row) that is
    [undefined] raises a [TypeError]. *)
Definition deref {S A : Type} (o : option A) : M S A :=
  match o with
  | Some a => ret a
  | None => throw TypeError
  end.

Definition derefRow {S A : Type} (r : JsRow A) : M S A :=
  match r with
  | Row a => ret a
  | Undefined | Null => throw TypeError
  end.

(** [assert(v)] *)
Definition assert {S A : Type} (v : JsRow A) : M S unit :=
  match v with
  | Row _ => ret tt
  | Undefined | Null => throw AssertionError
  end.

(** [bootstrapUtxoTree] and [bootstrapWithdrawalTree] are the same function up
    to the species, the hasher and the text encoding of the columns. *)
Definition bootstrapLightTree (s : TreeSpecies) (hasher : Hasher) (proof : option MerkleProof)
    : M Grove (JsRow LightTree * LightRollupTree) :=
  start_ <-
    match proof with
    | Some p =>
        if startingLeafProof hasher (p_root p) (p_index p) (p_siblings p)
        then ret (p_root p, p_index p, p_siblings p)
        else throw (Error "Invalid starting leaf proof")
    | None => ret (genesisRoot hasher, 0, removelast (preHash hasher))
    end ;;
  let '(root_, index_, siblings_) := start_ in
  let data_ := {| d_root := root_; d_index := index_; d_siblings := siblings_;
                  d_start := index_; d_end := index_ |} in
  g <- get ;;
  put (setDb g (upsertLightTree s data_ (db g))) ;;;
  g <- get ;;
  let treeSql := findOne (tblLightTree (db g)) (whereSpecies s) in
  row <- derefRow treeSql ;;
  ret (treeSql, from row hasher (forceUpdate (config g)) (fullSync (config g))).

Definition bootstrapUtxoTree (proof : option MerkleProof)
    : M Grove (JsRow LightTree * LightRollupTree) :=
  g <- get ;; bootstrapLightTree UTXO (utxoHasher (config g)) proof.

Definition bootstrapWithdrawalTree (proof : option MerkleProof)
    : M Grove (JsRow LightTree * LightRollupTree) :=
  g <- get ;; bootstrapLightTree WITHDRAWAL (withdrawalHasher (config g)) proof.

Definition applyBootstrap (utxoStartingLeafProof withdrawalStartingLeafProof : MerkleProof)
    : M Grove unit :=
  acquire (
    utxoBootstrapResult <- bootstrapUtxoTree (Some utxoStartingLeafProof) ;;
    withdrawalBootstrapResult <- bootstrapWithdrawalTree (Some withdrawalStartingLeafProof) ;;
    g <- get ;;
    put (setUtxoTree g (Some (snd utxoBootstrapResult))) ;;;
    g <- get ;;
    put (setWithdrawalTree g (Some (snd withdrawalBootstrapResult)))).

(** [init]: the metadata row is looked up, a genesis tree is bootstrapped
    when the lookup [=== null], and the row is asserted before it is used. *)
Definition init : M Grove unit :=
  acquire (
    g <- get ;;
    let found := findOne (tblLightTree (db g)) (whereSpecies UTXO) in
    utxoTreeData <-
      match found with
      | Null => r <- bootstrapUtxoTree None ;; ret (fst r)
      | _ => ret found
      end ;;
    assert utxoTreeData ;;;
    row <- derefRow utxoTreeData ;;
    g <- get ;;
    put (setUtxoTree g
           (Some (from row (utxoHasher (config g)) (forceUpdate (config g))
                    (fullSync (config g))))) ;;;
    g <- get ;;
    let found := findOne (tblLightTree (db g)) (whereSpecies WITHDRAWAL) in
    withdrawalTreeData <-
      match found with
      | Null => r <- bootstrapWithdrawalTree None ;; ret (fst r)
      | _ => ret found
      end ;;
    assert withdrawalTreeData ;;;
    row <- derefRow withdrawalTreeData ;;
    g <- get ;;
    put (setWithdrawalTree g
           (Some (from row (withdrawalHasher (config g)) (forceUpdate (config g))
                    (fullSync (config g))))) ;;;
    g <- get ;;
    put (setNullifierTree g
           (Some {| n_hasher := nullifierHasher (config g);
                    n_depth := nullifierTreeDepth (config g) |}))).

(** [{ ...leaf, shouldTrack: false }] *)
Definition untracked (leaf : Leaf) : Leaf :=
  {| hash := hash leaf; note := note leaf; shouldTrack := Some false |}.

Definition lengthZ {A : Type} (l : list A) : Z := Z.of_nat (length l).

(** [subTreeSize * Math.ceil(length / subTreeSize)] *)
Definition fixedSizeLen (subTreeSize : Z) (len : Z) : Z :=
  subTreeSize * ceilDiv len subTreeSize.

Definition dryPatch (patch : GrovePatch) : M Grove GroveSnapshot :=
  acquire (
    g <- get ;;
    ut <- deref (utxoTree g) ;;
    let utxoResult := dryAppend ut (map untracked (utxos patch)) in
    wt <- deref (withdrawalTree g) ;;
    let withdrawalResult := dryAppend wt (map untracked (withdrawals patch)) in
    let nullifierRoot :=
      option_map (fun t => dryRunNullify t (treeCache g) (db g) (nullifiers patch))
        (nullifierTree g) in
    let utxoFixedSizeLen :=
      fixedSizeLen (utxoSubTreeSize (config g)) (lengthZ (utxos patch)) in
    let withdrawalFixedSizeLen :=
      fixedSizeLen (withdrawalSubTreeSize (config g)) (lengthZ (withdrawals patch)) in
    ret {| utxoTreeIndex :=
             dry_index utxoResult + utxoFixedSizeLen - lengthZ (utxos patch);
           utxoTreeRoot := dry_root utxoResult;
           withdrawalTreeIndex :=
             dry_index withdrawalResult + withdrawalFixedSizeLen
             - lengthZ (withdrawals patch);
           withdrawalTreeRoot := dry_root withdrawalResult;
           nullifierTreeRoot := nullifierRoot |}).

Definition emptyPatch : GrovePatch :=
  {| header := None; utxos := []; withdrawals := []; nullifiers := [] |}.

Definition getSnapshot : M Grove GroveSnapshot := dryPatch emptyPatch.

Definition setZkAddressesToObserve (addresses : list string) : M Grove unit :=
  g <- get ;;
  let c := config g in
  put (setConfig g
         {| utxoTreeDepth := utxoTreeDepth c; withdrawalTreeDepth := withdrawalTreeDepth c;
            nullifierTreeDepth := nullifierTreeDepth c;
            utxoSubTreeSize := utxoSubTreeSize c;
            withdrawalSubTreeSize := withdrawalSubTreeSize c;
            utxoHasher := utxoHasher c; withdrawalHasher := withdrawalHasher c;
            nullifierHasher := nullifierHasher c; fullSync := fullSync c;
            forceUpdate := forceUpdate c; zkAddressesToObserve := addresses;
            addressesToObserve := addressesToObserve c |}) ;;;
  g <- get ;;
  t <- deref (utxoTree g) ;;
  put (setUtxoTree g (Some (updateObserving t addresses))).

Definition setAddressesToObserve (addresses : list string) : M Grove unit :=
  g <- get ;;
  let c := config g in
  put (setConfig g
         {| utxoTreeDepth := utxoTreeDepth c; withdrawalTreeDepth := withdrawalTreeDepth c;
            nullifierTreeDepth := nullifierTreeDepth c;
            utxoSubTreeSize := utxoSubTreeSize c;
            withdrawalSubTreeSize := withdrawalSubTreeSize c;
            utxoHasher := utxoHasher c; withdrawalHasher := withdrawalHasher c;
            nullifierHasher := nullifierHasher c; fullSync := fullSync c;
            forceUpdate := forceUpdate c;
            zkAddressesToObserve := zkAddressesToObserve c;
            addressesToObserve := addresses |}) ;;;
  g <- get ;;
  t <- deref (withdrawalTree g) ;;
  put (setWithdrawalTree g (Some (updateObserving t addresses))).

(** [{ hash: Fp.zero }] *)
Definition zeroLeaf : Leaf := {| hash := 0; note := None; shouldTrack := None |}.

(** [Array(n).fill(null).map(() => ({ hash: Fp.zero }))] *)
Definition padding {S : Type} (n : Z) : M S (list Leaf) :=
  if n <? 0 then throw RangeError else ret (repeat zeroLeaf (Z.to_nat n)).

Definition appendUTXOs (utxos_ : list Leaf) : M (Grove * TransactionDB) Z :=
  s <- get ;;
  let g := fst s in
  let totalItemLen := fixedSizeLen (utxoSubTreeSize (config g)) (lengthZ utxos_) in
  pad <- padding (totalItemLen - lengthZ utxos_) ;;
  let paddedUtxos := utxos_ ++ pad in
  match utxoTree g with
  | None => throw (Error "Grove is not initialized")
  | Some t =>
      if latestLeafIndex t + totalItemLen <=? maxSize t
      then
        let '(t', cache', tx') := append t paddedUtxos (treeCache g) (snd s) in
        put (setTreeCache (setUtxoTree g (Some t')) cache', tx') ;;;
        ret (lt_id (metadata t'))
      else throw (Error "utxo tree flushes.")
  end.

Definition appendWithdrawals (withdrawals_ : list Leaf) : M (Grove * TransactionDB) Z :=
  s <- get ;;
  let g := fst s in
  let totalItemLen :=
    fixedSizeLen (withdrawalSubTreeSize (config g)) (lengthZ withdrawals_) in
  pad <- padding (totalItemLen - lengthZ withdrawals_) ;;
  let paddedWithdrawals := withdrawals_ ++ pad in
  match withdrawalTree g with
  | None => throw (Error "Grove is not initialized")
  | Some t =>
      if latestLeafIndex t + totalItemLen <=? maxSize t
      then
        let '(t', cache', tx') := append t paddedWithdrawals (treeCache g) (snd s) in
        put (setTreeCache (setWithdrawalTree g (Some t')) cache', tx') ;;;
        ret (lt_id (metadata t'))
      else throw (Error "withdrawal tree flushes")
  end.

Definition markAsNullified (nullifiers_ : list Z) : M (Grove * TransactionDB) unit :=
  s <- get ;;
  let g := fst s in
  match nullifierTree g with
  | Some tree =>
      let (cache', tx') := nullify tree nullifiers_ (treeCache g) (db g) (snd s) in
      put (setTreeCache g cache', tx')
  | None => ret tt
  end.

Definition recordBootstrap (header_ : option string) : M (Grove * TransactionDB) unit :=
  s <- get ;;
  let g := fst s in
  ut <- deref (utxoTree g) ;;
  wt <- deref (withdrawalTree g) ;;
  let utxoBootstrap := siblings (data ut) in
  let withdrawalBootstrap := siblings (data wt) in
  match header_ with
  | Some h =>
      if String.eqb h ""
      then put (g, snd s ++ [CreateBootstrap utxoBootstrap withdrawalBootstrap])
      else put (g, snd s ++ [UpsertBootstrap h utxoBootstrap withdrawalBootstrap;
                             UpsertBlock h])
  | None => put (g, snd s ++ [CreateBootstrap utxoBootstrap withdrawalBootstrap])
  end.

Definition applyGrovePatch (patch : GrovePatch) : M (Grove * TransactionDB) (Z * Z) :=
  acquire (
    utxoTreeId <- appendUTXOs (utxos patch) ;;
    withdrawalTreeId <- appendWithdrawals (withdrawals patch) ;;
    markAsNullified (nullifiers patch) ;;;
    s <- get ;;
    (if truthy (fullSync (config (fst s))) then recordBootstrap (header patch) else ret tt) ;;;
    ret (utxoTreeId, withdrawalTreeId)).

(** The body of [cachedSiblings.forEach]: a node at level [depth] replaces the
    root, any other is written into [siblings] at its level. *)
Definition placeNode (treeDepth : nat) (acc : Z * list Z) (obj : TreeNode) : Z * list Z :=
  let (root_, siblings_) := acc in
  let level := 1 + Z.of_nat treeDepth - bitLength (nodeIndex obj) in
  if level =? Z.of_nat treeDepth
  then (value obj, siblings_)
  else (root_, arraySet siblings_ level (value obj)).

(** The proof both queries rebuild: the siblings start as
    [preHash.slice(0, -1)], the root as the tree's root, and every node the
    cache returns is placed by [placeNode]. *)
Definition rebuildProof (cache : TreeCache) (database : DB) (treeDepth : nat) (h : Hasher)
    (t : LightRollupTree) (leafIndex leaf : Z) : MerkleProof :=
  let cachedSiblings :=
    getCachedSiblings cache database treeDepth (LightTreeId (lt_id (metadata t))) leafIndex in
  let (root_, siblings_) :=
    fold_left (placeNode treeDepth) cachedSiblings (treeRoot t, removelast (preHash h)) in
  {| p_root := root_; p_index := leafIndex; p_leaf := leaf; p_siblings := siblings_ |}.

Definition utxoMerkleProof (hash_ : Z) : M Grove MerkleProof :=
  g <- get ;;
  match findOne (tblUtxo (db g)) (fun u => u_hash u =? hash_) with
  | Undefined | Null => throw (Error "Failed to find the utxo")
  | Row utxo =>
      match u_index utxo with
      | None => throw (Error "It is not included in a block yet")
      | Some utxoIndex =>
          t <- deref (utxoTree g) ;;
          let proof :=
            rebuildProof (treeCache g) (db g) (utxoTreeDepth (config g))
              (utxoHasher (config g)) t utxoIndex (u_hash utxo) in
          if verifyProof (utxoHasher (config g)) proof
          then ret proof
          else throw (Error "Failed to generate utxo merkle proof")
      end
  end.

Definition withdrawalMerkleProof (noteHash : Z) (index_ : option Z) : M Grove MerkleProof :=
  g <- get ;;
  match findOne (tblWithdrawal (db g)) (fun w => w_withdrawalHash w =? noteHash) with
  | Undefined | Null => throw (Error "Failed to find the withdrawal")
  | Row withdrawal =>
      (* [index?.toString() || withdrawal.index]: the decimal string of a
         supplied index is never empty, so it wins over the stored one *)
      match (match index_ with Some i => Some i | None => w_index withdrawal end) with
      | None => throw (Error "It is not included in a block yet")
      | Some leafIndex =>
          t <- deref (withdrawalTree g) ;;
          let proof :=
            rebuildProof (treeCache g) (db g) (withdrawalTreeDepth (config g))
              (withdrawalHasher (config g)) t leafIndex noteHash in
          if verifyProof (withdrawalHasher (config g)) proof
          then ret proof
          else throw (Error "Failed to generate withdrawal merkle proof")
      end
  end.

(** ** The error taxonomy of the specification, by message *)

Inductive ErrorKind : Type :=
| NotInitialized
| InvalidBootstrapProof
| TreeFull
| LeafNotFound
| LeafNotCommitted
| ProofUnavailable.

Definition treeFullMessage (s : TreeSpecies) : string :=
  match s with
  | UTXO => "utxo tree flushes."
  | WITHDRAWAL => "withdrawal tree flushes"
  end.

Definition kindOf (e : exn) : option ErrorKind :=
  match e with
  | Error m =>
      if String.eqb m "Grove is not initialized" then Some NotInitialized
      else if String.eqb m "Invalid starting leaf proof" then Some InvalidBootstrapProof
      else if String.eqb m (treeFullMessage UTXO) then Some TreeFull
      else if String.eqb m (treeFullMessage WITHDRAWAL) then Some TreeFull
      else if String.eqb m "Failed to find the utxo" then Some LeafNotFound
      else if String.eqb m "Failed to find the withdrawal" then Some LeafNotFound
      else if String.eqb m "It is not included in a block yet" then Some LeafNotCommitted
      else if String.eqb m "Failed to generate utxo merkle proof" then Some ProofUnavailable
      else if String.eqb m "Failed to generate withdrawal merkle proof"
           then Some ProofUnavailable
      else None
  | TypeError | AssertionError | RangeError => None
  end.

(** ** Vocabulary of the statements *)

(** The batch as [appendUTXOs] and [appendWithdrawals] hand it to the tree:
    the leaves followed by zero leaves up to the next multiple of the
    sub-tree size. *)
Definition padded (size : Z) (leaves : list Leaf) : list Leaf :=
  leaves ++ repeat zeroLeaf (Z.to_nat (fixedSizeLen size (lengthZ leaves) - lengthZ leaves)).

(** The guard of the append paths: [latestLeafIndex + totalItemLen <= maxSize]. *)
Definition fits (t : LightRollupTree) (size : Z) (leaves : list Leaf) : Prop :=
  latestLeafIndex t + fixedSizeLen size (lengthZ leaves) <= maxSize t.

(** The Grove and the transaction once [appendUTXOs], respectively
    [appendWithdrawals], has appended its padded batch. *)
Definition afterUtxoAppend (g : Grove) (tx : TransactionDB) (t : LightRollupTree)
    (leaves : list Leaf) : Grove * TransactionDB :=
  let a := append t (padded (utxoSubTreeSize (config g)) leaves) (treeCache g) tx in
  (setTreeCache (setUtxoTree g (Some (fst (fst a)))) (snd (fst a)), snd a).

Definition afterWithdrawalAppend (g : Grove) (tx : TransactionDB) (t : LightRollupTree)
    (leaves : list Leaf) : Grove * TransactionDB :=
  let a := append t (padded (withdrawalSubTreeSize (config g)) leaves) (treeCache g) tx in
  (setTreeCache (setWithdrawalTree g (Some (fst (fst a)))) (snd (fst a)), snd a).

(** What follows the two appends: the nullifiers and, in full-sync mode, the
    bootstrap record.  Neither can fail once both trees are there, and
    neither touches the two rollup trees. *)
Definition afterAppends (patch : GrovePatch) : M (Grove * TransactionDB) unit :=
  markAsNullified (nullifiers patch) ;;;
  s <- get ;;
  (if truthy (fullSync (config (fst s))) then recordBootstrap (header patch) else ret tt).





(** The columns a starting-leaf proof is persisted as. *)
Definition bootstrapData (p : MerkleProof) : LightTreeData :=
  {| d_root := p_root p; d_index := p_index p; d_siblings := p_siblings p;
     d_start := p_index p; d_end := p_index p |}.

(** Section 4.1's table of pre-hashes, up to level [d]: "[preHash[0]] is the
    zero element" and "[preHash[k+1] = parentOf(preHash[k], preHash[k])]". *)
Definition preHashOk (h : Hasher) (d : nat) : Prop :=
  nth 0 (preHash h) 0 = 0
  /\ forall k, (k < d)%nat ->
       nth (S k) (preHash h) 0 = parentOf h (nth k (preHash h) 0) (nth k (preHash h) 0).

(** Modelled from the spec: the reference root of testable property 1, "the
    reference hash of all appended leaves in order, padded per sub-tree
    quantum, against [preHash] for empty slots": the root of the subtree of
    height [level] whose first leaves are [leaves]. *)
Fixpoint referenceRoot (h : Hasher) (level : nat) (leaves : list Z) : Z :=
  match level with
  | O => nth 0 leaves (nth 0 (preHash h) 0)
  | S below =>
      match leaves with
      | [] => nth level (preHash h) 0
      | _ :: _ =>
          parentOf h (referenceRoot h below (firstn (2 ^ below) leaves))
            (referenceRoot h below (skipn (2 ^ below) leaves))
      end
  end.

(** The tree object after [append]: the frontier reached by walking the
    leaves. *)
Definition appended (t : LightRollupTree) (leaves : list Leaf) : LightRollupTree :=
  withData t (fst (appendLeaves t leaves)).

(** ** The frontier, told by hashes and positions *)

(** The walk of [walkUp] told by the position [p] of the node within its
    level: odd positions are right children, and the parent sits at
    [p / 2]. *)
Fixpoint climb (h : Hasher) (p : Z) (k : nat) (sibs : list Z) (current : Z)
    : list Z * Z :=
  match sibs with
  | [] => ([], current)
  | sibling_k :: rest =>
      let z := nth k (preHash h) 0 in
      if Z.odd p
      then let (rest', top) := climb h (p / 2) (S k) rest (parentOf h sibling_k current) in
           (sibling_k :: rest', top)
      else let (rest', top) := climb h (p / 2) (S k) rest (parentOf h current z) in
           (current :: rest', top)
  end.

(** What [appendLeaf] does to the frontier, told by the hash of the leaf
    alone, and what [appendLeaves] does, told by the hashes. *)
Definition appendHash (h : Hasher) (d : TreeData) (leaf : Z) : TreeData :=
  let (sibs', top) := walkUp h (index d) 0 (siblings d) leaf in
  {| root := top; index := index d + 1; siblings := sibs' |}.

Definition appendHashes (h : Hasher) (d : TreeData) (leaves : list Z) : TreeData :=
  fold_left (appendHash h) leaves d.

(** Invariant 1, "the root is exactly the hash that results from folding the
    frontier against empty subtrees for levels where no leaf yet exists":
    the root is what the walk of an empty leaf at [index] arrives at. *)
Definition frontierOk (h : Hasher) (d : TreeData) : Prop :=
  root d = snd (walkUp h (index d) 0 (siblings d) (nth 0 (preHash h) 0)).

(** A frontier of [D] levels seen inside one of [D + 1]: the top slot and
    the root when the subtree below is a left child, respectively a right
    child whose left neighbour is [top]. *)
Definition raiseLeft (h : Hasher) (d : TreeData) : TreeData :=
  {| root := parentOf h (root d) (nth (length (siblings d)) (preHash h) 0);
     index := index d;
     siblings := siblings d ++ [root d] |}.

Definition raiseRight (h : Hasher) (top : Z) (d : TreeData) : TreeData :=
  {| root := parentOf h top (root d);
     index := index d;
     siblings := siblings d ++ [top] |}.

(** The tree holds the leaves [history] and nothing else: its frontier is
    what appending their hashes to an empty tree gives. *)
Definition builtFrom (t : LightRollupTree) (history : list Z) : Prop :=
  exists d0,
    index d0 = 0
    /\ root d0 = nth (length (siblings d0)) (preHash (t_hasher t)) 0
    /\ data t = appendHashes (t_hasher t) d0 history.

(** ** A small forest to run the code on *)

Module Example.

(** Pre-hashes as section 4.1 builds them: [preHash[0]] is zero and
    [preHash[k+1] = parentOf(preHash[k], preHash[k])]. *)
Fixpoint preHashesFrom (f : Z -> Z -> Z) (z : Z) (n : nat) : list Z :=
  match n with
  | O => [z]
  | S m => z :: preHashesFrom f (f z z) m
  end.

Definition mix (l r : Z) : Z := 3 * l + 5 * r + 1.

Definition hasherOfDepth (d : nat) : Hasher :=
  {| parentOf := mix; preHash := preHashesFrom mix 0 d |}.

Definition cfg : GroveConfig :=
  {| utxoTreeDepth := 2; withdrawalTreeDepth := 2; nullifierTreeDepth := 3;
     utxoSubTreeSize := 4; withdrawalSubTreeSize := 2;
     utxoHasher := hasherOfDepth 2; withdrawalHasher := hasherOfDepth 2;
     nullifierHasher := hasherOfDepth 3;
     fullSync := None; forceUpdate := None;
     zkAddressesToObserve := []; addressesToObserve := [] |}.

(** The starting-leaf proof of an empty tree of depth 2. *)
Definition genesisProof : MerkleProof :=
  {| p_root := genesisRoot (hasherOfDepth 2); p_index := 0; p_leaf := 0;
     p_siblings := removelast (preHash (hasherOfDepth 2)) |}.

Definition badProof : MerkleProof :=
  {| p_root := 7; p_index := 0; p_leaf := 0;
     p_siblings := removelast (preHash (hasherOfDepth 2)) |}.

(** A light node: a fresh Grove over an empty database, bootstrapped. *)
Definition lightNode : Grove :=
  fst (applyBootstrap genesisProof genesisProof (newGrove emptyDB cfg)).

Definition leafOf (h : Z) : Leaf := {| hash := h; note := None; shouldTrack := None |}.

Definition patchOf (us ws : list Z) (ns : list Z) : GrovePatch :=
  {| header := None; utxos := map leafOf us; withdrawals := map leafOf ws;
     nullifiers := ns |}.

(** The rows and trees of [lightNode]. *)
Definition utxoRow : LightTree :=
  {| lt_id := 1; lt_species := UTXO; lt_root := 9; lt_index := 0;
     lt_siblings := [0; 1]; lt_start := 0; lt_end := 0 |}.

Definition withdrawalRow : LightTree :=
  {| lt_id := 2; lt_species := WITHDRAWAL; lt_root := 9; lt_index := 0;
     lt_siblings := [0; 1]; lt_start := 0; lt_end := 0 |}.

Definition lightUtxoTree : LightRollupTree := from utxoRow (hasherOfDepth 2) None None.

Definition lightWithdrawalTree : LightRollupTree :=
  from withdrawalRow (hasherOfDepth 2) None None.

(** A second configuration, with sub-trees of one leaf. *)
Definition cfg1 : GroveConfig :=
  {| utxoTreeDepth := 2; withdrawalTreeDepth := 2; nullifierTreeDepth := 3;
     utxoSubTreeSize := 1; withdrawalSubTreeSize := 1;
     utxoHasher := hasherOfDepth 2; withdrawalHasher := hasherOfDepth 2;
     nullifierHasher := hasherOfDepth 3;
     fullSync := None; forceUpdate := None;
     zkAddressesToObserve := []; addressesToObserve := [] |}.

Definition tracked (h : Z) : Leaf := {| hash := h; note := None; shouldTrack := Some true |}.

Definition withRows (g : Grove) (us : list Utxo) (ws : list Withdrawal) : Grove :=
  setDb g {| tblLightTree := tblLightTree (db g); tblTreeNode := tblTreeNode (db g);
             tblUtxo := us; tblWithdrawal := ws; nextId := nextId (db g) |}.

(** A bootstrapped Grove with sub-trees of one leaf, after a patch holding
    one tracked UTXO and one tracked withdrawal; the [Utxo] and [Withdrawal]
    tables list these two as committed at index 0, and one more of each that
    is not in a block yet. *)
Definition wallet : Grove :=
  withRows
    (fst (fst (applyGrovePatch
                 {| header := None; utxos := [tracked 11]; withdrawals := [tracked 21];
                    nullifiers := [] |}
                 (fst (applyBootstrap genesisProof genesisProof
                         (newGrove emptyDB cfg1)), []))))
    [{| u_hash := 11; u_index := Some 0 |}; {| u_hash := 12; u_index := None |}]
    [{| w_withdrawalHash := 21; w_index := Some 0 |};
     {| w_withdrawalHash := 22; w_index := None |}].



Definition walletUtxoTree : LightRollupTree :=
  withData lightUtxoTree {| root := 108; index := 1; siblings := [11; 34] |}.

Definition walletWithdrawalTree : LightRollupTree :=
  withData lightWithdrawalTree
    {| root := 198; index := 1; siblings := [21; 64] |}.

End Example.

(** ** Vocabulary of the further properties *)



(** The rows of one species. *)
Definition speciesRows (s : TreeSpecies) (database : DB) : list LightTree :=
  filter (whereSpecies s) (tblLightTree database).

(** The tree [init] and the bootstrap helpers build from a row. *)
Definition treeOfRow (g : Grove) (row : LightTree) (h : Hasher) : LightRollupTree :=
  from row h (forceUpdate (config g)) (fullSync (config g)).

Module Scenario.



Definition cfgFull : GroveConfig :=
  {| utxoTreeDepth := 2; withdrawalTreeDepth := 2; nullifierTreeDepth := 3;
     utxoSubTreeSize := 2; withdrawalSubTreeSize := 2;
     utxoHasher := Example.hasherOfDepth 2; withdrawalHasher := Example.hasherOfDepth 2;
     nullifierHasher := Example.hasherOfDepth 3;
     fullSync := Some true; forceUpdate := None;
     zkAddressesToObserve := []; addressesToObserve := [] |}.

(** A full node: bootstrapped, then initialised from the rows. *)
Definition fullNode : Grove :=
  fst (init (fst (applyBootstrap Example.genesisProof Example.genesisProof
                    (newGrove emptyDB cfgFull)))).



Definition blockPatch (h : option string) : GrovePatch :=
  {| header := h; utxos := [Example.leafOf 11]; withdrawals := []; nullifiers := [] |}.

End Scenario.

(** Every row of species [s] holds the columns [d]. *)
Definition rowsHold (s : TreeSpecies) (d : LightTreeData) (database : DB) : Prop :=
  Forall (fun r => whereSpecies s r = true -> setLightTree d r = r) (tblLightTree database).

(** * The connector, statement by statement
    (packages/database/src/connectors/sqlite.ts)

    The Grove above sees the connector through the rows of its tables.  This
    part follows the connector itself: the SQL text it builds and what it
    does with the answers of the [sqlite] driver.  The driver, a world of
    type [W] it acts on, and the two [JSON] functions are parameters: nothing
    is assumed about the SQL engine.

    Conventions.
    - JavaScript values are the constructors of [JsValue]; numbers are the
      safe integers, below [2^53] in size, which a JavaScript number holds
      exactly and prints in decimal.  Fractions, larger numbers, [NaN] and
      the infinities are outside the model.  There are no function values, so a
      method call on a value that is not a string is a [TypeError].
    - An object is the list of its own fields in insertion order,
      [Object.keys] is the list of their names; no field name is an array
      index or a member of [Object.prototype].
    - The schema, which types.ts builds, is read through the fields the
      connector uses: [table.rows[key]] with [name], [type] and [default],
      [table.relations[key]] and [table.primaryKey]. *)

Module SQLiteConnector.

Local Open Scope string_scope.

(** The numbers of the model: the integers a JavaScript number holds
    exactly ([Number.isSafeInteger]).  Below [2^53] every integer is a
    number of its own, and it is printed with all its digits. *)
Definition isSafeInteger (n : Z) : bool := (Z.abs n <=? 9007199254740991)%Z.

Record SafeInteger : Type := {
  integer : Z;
  integer_safe : isSafeInteger integer = true
}.

Definition number0 : SafeInteger := {| integer := 0; integer_safe := eq_refl |}.

Definition number1 : SafeInteger := {| integer := 1; integer_safe := eq_refl |}.

Inductive JsValue : Type :=
| JsUndefined
| JsNull
| JsBool (b : bool)
| JsNumber (n : SafeInteger)
| JsString (s : string)
| JsArray (items : list JsValue)
| JsObject (fields : list (string * JsValue)).

(** An object as the connector handles it: a document, a row, a model. *)
Definition Obj : Type := list (string * JsValue).

(** The double quote, and the line break of the [DELETE] template. *)
Definition dq : string := String "034"%char EmptyString.

Definition nl : string := String "010"%char EmptyString.

(** [String(n)] for a safe integer [n]: its decimal digits, after a minus
    sign when it is negative. *)
Definition decimal (n : SafeInteger) : string :=
  NilZero.string_of_int (Z.to_int (integer n)).

(** A value read as a condition. *)
Definition truthyValue (v : JsValue) : bool :=
  match v with
  | JsUndefined | JsNull => false
  | JsBool b => b
  | JsNumber n => negb (integer n =? 0)%Z
  | JsString s => negb (s =? "")
  | JsArray _ | JsObject _ => true
  end.

(** A value inside a template literal, and the elements of [join]: there
    [null] and [undefined] give the empty string. *)
Fixpoint toString (v : JsValue) : string :=
  match v with
  | JsUndefined => "undefined"
  | JsNull => "null"
  | JsBool b => if b then "true" else "false"
  | JsNumber n => decimal n
  | JsString s => s
  | JsArray items =>
      String.concat ","
        (map (fun item => match item with
                          | JsUndefined | JsNull => ""
                          | _ => toString item
                          end) items)
  | JsObject _ => "[object Object]"
  end.

Definition join (separator : string) (items : list JsValue) : string :=
  String.concat separator
    (map (fun item => match item with
                      | JsUndefined | JsNull => ""
                      | _ => toString item
                      end) items).

(** [o[key]]: the field, or [undefined]. *)
Fixpoint property {A : Type} (key : string) (o : list (string * A)) : option A :=
  match o with
  | [] => None
  | (k, v) :: rest => if k =? key then Some v else property key rest
  end.

Definition field (key : string) (o : Obj) : JsValue :=
  match property key o with
  | Some v => v
  | None => JsUndefined
  end.

Definition keys {A : Type} (o : list (string * A)) : list string := map fst o.

(** [Object.assign(o, { [key]: v })]: an existing field keeps its place. *)
Fixpoint assign (key : string) (v : JsValue) (o : Obj) : Obj :=
  match o with
  | [] => [(key, v)]
  | (k, old) :: rest => if k =? key then (k, v) :: rest else (k, old) :: assign key v rest
  end.

(** [escapeQuotes]: [str.replace] with a global pattern, every double quote
    written twice. *)
Fixpoint escapeQuotes (str : string) : string :=
  match str with
  | EmptyString => EmptyString
  | String c rest =>
      if Ascii.eqb c "034"%char
      then String c (String c (escapeQuotes rest))
      else String c (escapeQuotes rest)
  end.

(** [escapeQuotes(v)] on a value: [v.replace] exists on strings only. *)
Definition escaped {S : Type} (v : JsValue) : M S string :=
  match v with
  | JsString s => ret (escapeQuotes s)
  | _ => throw TypeError
  end.

(** ["${escapeQuotes(v)}"] between its two quotes. *)
Definition quoted {S : Type} (v : JsValue) : M S string :=
  s <- escaped v ;; ret (dq ++ s ++ dq).

(** [array.map(f)] with a callback that may throw: the first throw ends
    the walk. *)
Fixpoint mapM {S A B : Type} (f : A -> M S B) (l : list A) : M S (list B) :=
  match l with
  | [] => ret []
  | a :: rest => b <- f a ;; bs <- mapM f rest ;; ret (b :: bs)
  end.

(** A [for ... of] loop that updates what it carries. *)
Fixpoint foldM {S A B : Type} (f : B -> A -> M S B) (l : list A) (b : B) : M S B :=
  match l with
  | [] => ret b
  | a :: rest => b' <- f b a ;; foldM f rest b'
  end.

Inductive Order : Type := asc | desc.

(** [val.toUpperCase()] *)
Definition toUpperCase (o : Order) : string :=
  match o with
  | asc => "ASC"
  | desc => "DESC"
  end.

(** The [include] option: per relation [false], [true] or the relations to
    load below it. *)
Inductive IncludeSpec : Type :=
| IncludeObject (entries : list (string * IncludeEntry))
with IncludeEntry : Type :=
| IncludeFalse
| IncludeTrue
| IncludeNested (below : IncludeSpec).

Record Relation : Type := {
  relationName : string;
  localField : string;
  foreignField : string;
  foreignTable : string
}.

(** What [db.run] resolves to: [changes] may be missing. *)
Record RunResult : Type := { changes : option Z }.

(** [changes || 0] *)
Definition changesOrZero (r : RunResult) : Z :=
  match changes r with
  | Some n => n
  | None => 0%Z
  end.

Record UpsertResult : Type := { updated : Z; created : Z }.

Record FindManyOptions : Type := {
  where_ : Obj;
  orderBy : option (list (string * Order));
  include : option IncludeSpec;
  limit : option SafeInteger
}.

Record UpdateOptions : Type := {
  update_where : Obj;
  update_update : Obj
}.

Record UpsertOptions : Type := {
  upsert_where : Obj;
  upsert_update : Obj;
  upsert_create : Obj
}.

(** [create]'s argument: one document or an array of them. *)
Inductive Docs : Type :=
| OneDoc (doc : Obj)
| ManyDocs (docs : list Obj).

(** [[_doc].flat()] *)
Definition flat (d : Docs) : list Obj :=
  match d with
  | OneDoc doc => [doc]
  | ManyDocs docs => docs
  end.

Section Connector.

Variable W : Type.

(** [JSON.stringify], which yields a string or [undefined], and
    [JSON.parse], which may throw. *)
Variable stringify : JsValue -> JsValue.
Variable parse : string -> M W JsValue.

(** A row's [default]: a value, or a function called for each document. *)
Inductive Default : Type :=
| DefaultValue (v : JsValue)
| DefaultFunction (f : M W JsValue).

Record RowDef : Type := {
  name : string;
  type : string;
  default : option Default
}.

Record Table : Type := {
  rows : list (string * RowDef);
  relations : list (string * Relation);
  primaryKey : JsValue
}.

Definition Schema : Type := list (string * Table).

(** The [sqlite] database object. *)
Record Database : Type := {
  run : string -> M W RunResult;
  all : string -> M W (list Obj);
  get : string -> M W JsValue
}.

Variable db : Database.
Variable schema : Schema.

(** [parseType] of [whereToSql]. *)
Definition parseType {S : Type} (type_ : string) (value : JsValue) : M S JsValue :=
  match value with
  | JsNull => ret (JsString "NULL")
  | _ =>
      if type_ =? "String" then (s <- quoted value ;; ret (JsString s))
      else if type_ =? "Int" then ret value
      else if type_ =? "Bool"
           then ret (JsString (if truthyValue value then "true" else "false"))
      else if type_ =? "Object" then (s <- quoted (stringify value) ;; ret (JsString s))
      else throw (Error ("Unrecognized type " ++ type_))
  end.

(** [parsed === 'NULL'] *)
Definition isNULL (parsed : JsValue) : bool :=
  match parsed with
  | JsString s => s =? "NULL"
  | _ => false
  end.

(** The callback of [Object.keys(doc).map] in [whereToSql]. *)
Definition whereTerm {S : Type} (table : Table) (joinWith : string)
    (entry : string * JsValue) : M S string :=
  let (key, val) := entry in
  match property key (rows table) with
  | None => throw (Error ("Unable to find row definition for key: " ++ dq ++ key ++ dq))
  | Some rowDef =>
      match val with
      | JsArray items =>
          values <- mapM (parseType (type rowDef)) items ;;
          ret (dq ++ key ++ dq ++ " IN (" ++ join "," values ++ ")")
      | _ =>
          parsed <- parseType (type rowDef) val ;;
          ret (dq ++ key ++ dq ++ " " ++ (if isNULL parsed then "IS" else joinWith)
               ++ " " ++ toString parsed)
      end
  end.

Definition whereToSql {S : Type} (collection : string) (doc : Obj) (joinWith : string)
    : M S string :=
  match doc with
  | [] => ret ""
  | _ :: _ =>
      match property collection schema with
      | None => throw (Error ("Unable to find table " ++ collection ++ " in schema"))
      | Some table =>
          sql <- mapM (whereTerm table joinWith) doc ;;
          ret (" WHERE " ++ String.concat " AND " sql ++ " ")
      end
  end.

(** The [ORDER BY] text shared by [findMany] and [deleteMany]. *)
Definition orderBySql (o : option (list (string * Order))) : string :=
  match o with
  | Some (entry :: more) =>
      " ORDER BY "
      ++ String.concat ", "
           (map (fun e => dq ++ fst e ++ dq ++ " " ++ toUpperCase (snd e)) (entry :: more))
  | Some [] | None => ""
  end.

(** The value written for one key of one document by [create]. *)
Definition insertValue {S : Type} (table : Table) (doc : Obj) (k : string) : M S string :=
  match property k (rows table) with
  | None => throw (Error ("Unable to find row definition for key: " ++ dq ++ k ++ dq))
  | Some rowDef =>
      match field k doc with
      | JsBool b =>
          if type rowDef =? "Bool" then ret (if b then "true" else "false") else ret "NULL"
      | JsString s =>
          if type rowDef =? "String" then ret (dq ++ escapeQuotes s ++ dq) else ret "NULL"
      | JsNumber n =>
          if type rowDef =? "Int" then ret (decimal n) else ret "NULL"
      | (JsNull | JsArray _ | JsObject _) as val =>
          if type rowDef =? "Object" then quoted (stringify val) else ret "NULL"
      | JsUndefined => ret "NULL"
      end
  end.

(** [!row?.default]: no default, or a falsy one. *)
Definition hasDefault (row : RowDef) : bool :=
  match default row with
  | None => false
  | Some (DefaultValue v) => truthyValue v
  | Some (DefaultFunction _) => true
  end.

(** [doc[row.name] !== undefined && doc[row.name] !== null] *)
Definition given (doc : Obj) (key : string) : bool :=
  match field key doc with
  | JsUndefined | JsNull => false
  | _ => true
  end.

(** The body of the two loops that "create defaults where needed". *)
Definition fillDefault (row : RowDef) (doc : Obj) : M W Obj :=
  if negb (hasDefault row) || given doc (name row)
  then ret doc
  else
    v <- match default row with
         | Some (DefaultFunction f) => f
         | Some (DefaultValue v) => ret v
         | None => ret JsUndefined
         end ;;
    ret (assign (name row) v doc).

(** [keys]: every key of every document, once, in order of appearance. *)
Definition insertKeys (docs : list Obj) : list string :=
  fold_left (fun seen key => if existsb (String.eqb key) seen then seen else (seen ++ [key])%list)
    (flat_map keys docs) [].

(** "create defaults where needed": for every row of the table, every
    document in turn. *)
Definition withDefaults (table : Table) (docs : list Obj) : M W (list Obj) :=
  foldM (fun docs row => mapM (fillDefault row) docs) (map snd (rows table)) docs.

Definition create (collection : string) (_doc : Docs) : M W Z :=
  match property collection schema with
  | None => throw (Error ("Unable to find table " ++ collection ++ " in schema"))
  | Some table =>
      docs <- withDefaults table (flat _doc) ;;
      let keys_ := insertKeys docs in
      let keyString := String.concat "," (map (fun k => dq ++ k ++ dq) keys_) in
      allValues <-
        mapM (fun doc =>
                values <- mapM (insertValue table doc) keys_ ;;
                ret ("(" ++ String.concat "," values ++ ")")) docs ;;
      let sql := "INSERT INTO " ++ dq ++ collection ++ dq ++ " (" ++ keyString ++ ") VALUES "
                 ++ String.concat ", " allValues ++ ";" in
      r <- run db sql ;;
      ret (changesOrZero r)
  end.

(** The callback of [Object.keys(update).map] in [update]. *)
Definition setTerm {S : Type} (table : Table) (entry : string * JsValue) : M S string :=
  let (key, val) := entry in
  match property key (rows table) with
  | None => throw (Error ("Unable to find row definition for key: " ++ dq ++ key ++ dq))
  | Some rowDef =>
      if type rowDef =? "String"
      then (s <- quoted val ;; ret (dq ++ key ++ dq ++ " = " ++ s))
      else if type rowDef =? "Int"
      then ret (dq ++ key ++ dq ++ " = " ++ toString val)
      else if type rowDef =? "Bool"
      then ret (dq ++ key ++ dq ++ " = " ++ (if truthyValue val then "true" else "false"))
      else if type rowDef =? "Object"
      then (s <- quoted (stringify val) ;; ret (dq ++ key ++ dq ++ " = " ++ s))
      else throw (Error "Unknown row type")
  end.

Definition update (collection : string) (options : UpdateOptions) : M W Z :=
  match update_update options with
  | [] => ret 0%Z
  | _ :: _ =>
      match property collection schema with
      | None => throw (Error ("Unable to find table " ++ collection ++ " in schema"))
      | Some table =>
          setSql <- mapM (setTerm table) (update_update options) ;;
          w <- whereToSql collection (update_where options) "=" ;;
          let sql := "UPDATE " ++ dq ++ collection ++ dq ++ " SET "
                     ++ String.concat ", " setSql ++ " " ++ w in
          r <- run db sql ;;
          ret (changesOrZero r)
      end
  end.

Definition upsert (collection : string) (options : UpsertOptions) : M W UpsertResult :=
  updated_ <- update collection
                {| update_where := upsert_where options;
                   update_update := upsert_update options |} ;;
  if (updated_ >? 0)%Z
  then ret {| updated := updated_; created := 0 |}
  else
    create collection (OneDoc (upsert_create options)) ;;;
    ret {| created := 1; updated := 0 |}.

(** The statement of [findMany]. *)
Definition selectSql {S : Type} (collection : string) (options : FindManyOptions)
    : M S string :=
  let orderBy_ := orderBySql (orderBy options) in
  let limit_ :=
    match limit options with
    | Some n => if (integer n =? 0)%Z then "" else " LIMIT " ++ decimal n ++ " "
    | None => ""
    end in
  w <- whereToSql collection (where_ options) "=" ;;
  ret ("SELECT * FROM " ++ dq ++ collection ++ dq ++ " " ++ w ++ " " ++ orderBy_ ++ " "
       ++ limit_ ++ ";").

(** "need to expand json objects": a string found in a column of type
    [Object] is replaced by what [JSON.parse] makes of it. *)
Definition expandJson (objectKeys : list string) (model : Obj) : M W Obj :=
  foldM (fun model key =>
           match field key model with
           | JsString s => v <- parse s ;; ret (assign key v model)
           | _ => ret model
           end) objectKeys model.

(** [findMany] up to the call of [loadIncluded]. *)
Definition fetch (collection : string) (options : FindManyOptions) : M W (list Obj) :=
  sql <- selectSql collection options ;;
  models <- all db sql ;;
  match property collection schema with
  | None => throw (Error ("Unable to find table " ++ collection))
  | Some table =>
      let objectKeys :=
        filter (fun key => match property key (rows table) with
                           | Some rowDef => type rowDef =? "Object"
                           | None => false
                           end) (keys (rows table)) in
      mapM (expandJson objectKeys) models
  end.

(** [loadIncludedModels], given what loads the relations below. *)
Definition loadIncludedModels (below : string -> list Obj -> M W (list Obj))
    (models : list Obj) (relation : Relation) : M W (list Obj) :=
  let values := map (field (localField relation)) models in
  fetched <- fetch (foreignTable relation)
               {| where_ := [(foreignField relation, JsArray values)];
                  orderBy := None; include := None; limit := None |} ;;
  submodels <- below (foreignTable relation) fetched ;;
  let keyedSubmodels :=
    fold_left (fun keyed submodel =>
                 assign (toString (field (foreignField relation) submodel))
                   (JsObject submodel) keyed) submodels [] in
  ret (map (fun model =>
              assign (relationName relation)
                (field (toString (field (localField relation) model)) keyedSubmodels)
                model) models).

(** [loadIncluded] for an [include] that is there. *)
Fixpoint loadIncluded (include_ : IncludeSpec) (collection : string) (models : list Obj)
    {struct include_} : M W (list Obj) :=
  match include_ with
  | IncludeObject entries =>
      match property collection schema with
      | None => throw (Error ("Unable to find table " ++ collection ++ " in schema"))
      | Some table =>
          (fix each (entries : list (string * IncludeEntry)) (models : list Obj)
             : M W (list Obj) :=
             match entries with
             | [] => ret models
             | (key, wanted) :: rest =>
                 match property key (relations table) with
                 | None =>
                     throw (Error ("Unable to find relation " ++ key ++ " in " ++ collection))
                 | Some relation =>
                     models' <-
                       match wanted with
                       | IncludeFalse => ret models
                       | IncludeTrue =>
                           loadIncludedModels (fun _ subs => ret subs) models relation
                       | IncludeNested sub =>
                           loadIncludedModels (loadIncluded sub) models relation
                       end ;;
                     each rest models'
                 end
             end) entries models
      end
  end.

Definition findMany (collection : string) (options : FindManyOptions) : M W (list Obj) :=
  models <- fetch collection options ;;
  match include options with
  | None => ret models
  | Some include_ => loadIncluded include_ collection models
  end.

(** [const [obj] = await this.findMany(...)]: the first model, or
    [undefined]. *)
Definition findOne (collection : string) (options : FindManyOptions) : M W JsValue :=
  models <- findMany collection
              {| where_ := where_ options; orderBy := orderBy options;
                 include := include options; limit := Some number1 |} ;;
  ret match models with
      | obj :: _ => JsObject obj
      | [] => JsUndefined
      end.

(** [count]: the counting column of the one row [db.get] returns. *)
Definition count (collection : string) (where__ : Obj) : M W JsValue :=
  w <- whereToSql collection where__ "=" ;;
  result_ <- get db ("SELECT COUNT(*) FROM " ++ dq ++ collection ++ dq ++ " " ++ w ++ ";") ;;
  match result_ with
  | JsObject fields => ret (field "COUNT(*)" fields)
  | JsUndefined | JsNull => throw TypeError
  | _ => ret JsUndefined
  end.

(** The statement of [deleteMany], for a table that is there. *)
Definition deleteSql {S : Type} (table : Table) (collection : string)
    (options : FindManyOptions) : M S string :=
  let orderBySql_ := orderBySql (orderBy options) in
  let limitSql :=
    match limit options with
    | None => ""
    | Some n => " LIMIT " ++ decimal n ++ " "
    end in
  w <- whereToSql collection (where_ options) "=" ;;
  ret ("DELETE FROM " ++ dq ++ collection ++ dq ++ " WHERE " ++ dq
       ++ toString (primaryKey table) ++ dq ++ " =" ++ nl
       ++ "    (SELECT " ++ dq ++ toString (primaryKey table) ++ dq ++ " FROM "
       ++ dq ++ collection ++ dq ++ " " ++ w ++ " " ++ orderBySql_ ++ " "
       ++ limitSql ++ ");").

Definition deleteMany (collection : string) (options : FindManyOptions) : M W Z :=
  match property collection schema with
  | None => throw (Error ("Unable to find table " ++ dq ++ collection ++ dq))
  | Some table =>
      sql <- deleteSql table collection options ;;
      r <- run db sql ;;
      ret (changesOrZero r)
  end.

Definition deleteOne (collection : string) (options : FindManyOptions) : M W Z :=
  deleteMany collection
    {| where_ := where_ options; orderBy := orderBy options;
       include := include options; limit := Some number1 |}.

End Connector.

Arguments DefaultValue {W} v.
Arguments DefaultFunction {W} f.

End SQLiteConnector.

(** ** Vocabulary of the connector's statements *)

(** A double-quoted token read back as SQL reads it: the text runs up to
    the first quote that is not doubled, and a doubled quote stands for
    one.  [readQuotedBody] starts after the opening quote and returns the
    text and what follows the closing quote. *)
Fixpoint readQuotedBody (s : string) : option (string * string) :=
  match s with
  | EmptyString => None
  | String c rest =>
      if Ascii.eqb c "034"%char
      then match rest with
           | String c' rest' =>
               if Ascii.eqb c' "034"%char
               then match readQuotedBody rest' with
                    | Some (text, after) => Some (String c text, after)
                    | None => None
                    end
               else Some (EmptyString, rest)
           | EmptyString => Some (EmptyString, EmptyString)
           end
      else match readQuotedBody rest with
           | Some (text, after) => Some (String c text, after)
           | None => None
           end
  end.

Definition readQuoted (s : string) : option (string * string) :=
  match s with
  | String c rest => if Ascii.eqb c "034"%char then readQuotedBody rest else None
  | EmptyString => None
  end.

(** A text that does not begin with a double quote. *)
Definition quoteFree (s : string) : bool :=
  match s with
  | String c _ => negb (Ascii.eqb c "034"%char)
  | EmptyString => true
  end.

(** The number of double quotes in a text. *)
Fixpoint quotes (s : string) : nat :=
  match s with
  | EmptyString => O
  | String c rest => if Ascii.eqb c "034"%char then S (quotes rest) else quotes rest
  end.

(** A computation that reads nothing from the state and leaves it alone. *)
Definition pureM {S A : Type} (c : M S A) : Prop :=
  exists r, forall s, c s = (s, r).

(** [options] with another [limit]. *)
Definition withLimit (options : SQLiteConnector.FindManyOptions)
    (n : option SQLiteConnector.SafeInteger)
    : SQLiteConnector.FindManyOptions :=
  {| SQLiteConnector.where_ := SQLiteConnector.where_ options;
     SQLiteConnector.orderBy := SQLiteConnector.orderBy options;
     SQLiteConnector.include := SQLiteConnector.include options;
     SQLiteConnector.limit := n |}.

(** The fields of [doc] that hold a value are the same in [doc']. *)
Definition keepsGiven (doc doc' : SQLiteConnector.Obj) : Prop :=
  forall key,
    SQLiteConnector.given doc key = true ->
    SQLiteConnector.field key doc' = SQLiteConnector.field key doc.

(** [s] without the prefix [p], when it begins with it. *)
Fixpoint dropPrefix (p s : string) : option string :=
  match p with
  | EmptyString => Some s
  | String c p' =>
      match s with
      | String c' s' => if Ascii.eqb c c' then dropPrefix p' s' else None
      | EmptyString => None
      end
  end.

(** One equality term read back: a quoted name, the sign, a quoted text. *)
Definition readTerm (s : string) : option (string * string * string) :=
  match readQuoted s with
  | Some (key, after) =>
      match dropPrefix " = " after with
      | Some after' =>
          match readQuoted after' with
          | Some (text, rest) => Some (key, text, rest)
          | None => None
          end
      | None => None
      end
  | None => None
  end.

(** [n] terms joined by [ AND ], read back, with what follows them. *)
Fixpoint readTerms (n : nat) (s : string) : option (list (string * string) * string) :=
  match n with
  | O => Some ([], s)
  | S m =>
      match readTerm s with
      | Some (key, text, rest) =>
          match m with
          | O => Some ([(key, text)], rest)
          | S _ =>
              match dropPrefix " AND " rest with
              | Some rest' =>
                  match readTerms m rest' with
                  | Some (more, rest'') => Some ((key, text) :: more, rest'')
                  | None => None
                  end
              | None => None
              end
          end
      | None => None
      end
  end.

(** A [WHERE] clause of [n] equality terms read back. *)
Definition readWhere (n : nat) (s : string) : option (list (string * string)) :=
  match dropPrefix " WHERE " s with
  | Some body =>
      match readTerms n body with
      | Some (terms, rest) => if String.eqb rest " " then Some terms else None
      | None => None
      end
  | None => None
  end.

(** The document that asks for these texts. *)
Definition textDoc (pairs : list (string * string)) : SQLiteConnector.Obj :=
  map (fun p => (fst p, SQLiteConnector.JsString (snd p))) pairs.

(** The term written for a text asked of a [String] column. *)
Definition textTerm (p : string * string) : string :=
  (SQLiteConnector.dq ++ fst p ++ SQLiteConnector.dq ++ " = "
   ++ SQLiteConnector.dq ++ SQLiteConnector.escapeQuotes (snd p) ++ SQLiteConnector.dq)%string.

(** An element of an array asked of an [Int] column, a number or [null],
    and the literal written for it. *)
Definition numberOrNull (o : option SQLiteConnector.SafeInteger) : SQLiteConnector.JsValue :=
  match o with
  | Some n => SQLiteConnector.JsNumber n
  | None => SQLiteConnector.JsNull
  end.

Definition numberLiteral (o : option SQLiteConnector.SafeInteger) : string :=
  match o with
  | Some n => SQLiteConnector.decimal n
  | None => "NULL"
  end.

(** The literal written for a text: between quotes, its own quotes doubled. *)
Definition textLiteral (text : string) : string :=
  (SQLiteConnector.dq ++ SQLiteConnector.escapeQuotes text ++ SQLiteConnector.dq)%string.

Module Sample.

Import SQLiteConnector.

Local Open Scope string_scope.

(** A database that records the statements it is sent and answers that
    nothing matched. *)
Definition World : Type := list string.

Definition recorder : Database World :=
  {| run := fun sql w => ((w ++ [sql])%list, Ok {| changes := Some 0%Z |});
     all := fun sql w => ((w ++ [sql])%list, Ok []);
     get := fun sql w => ((w ++ [sql])%list, Ok JsUndefined) |}.

Definition column (name_ type_ : string) (default_ : option (Default World))
    : string * RowDef World :=
  (name_, {| name := name_; type := type_; default := default_ |}).

(** The [LightTree] table as the Grove writes it, with an [id] the schema
    fills in. *)
Definition lightTree : Table World :=
  {| rows := [column "id" "String" (Some (DefaultFunction (ret (JsString "tree-1"))));
              column "species" "Int" None;
              column "root" "String" None;
              column "index" "String" None;
              column "siblings" "String" None;
              column "start" "String" (Some (DefaultValue (JsString "0")));
              column "end" "String" (Some (DefaultValue (JsString "")))];
     relations := [];
     primaryKey := JsString "id" |}.

Definition schema : Schema World := [("LightTree", lightTree)].

(** Stand-ins for the two [JSON] functions. *)
Definition stringify (v : JsValue) : JsValue :=
  match v with
  | JsUndefined => JsUndefined
  | _ => JsString "null"
  end.

Definition parse (s : string) : M World JsValue := ret (JsString s).

Definition seven : SafeInteger := {| integer := 7; integer_safe := eq_refl |}.

Definition bySpecies (n : SafeInteger) : FindManyOptions :=
  {| where_ := [("species", JsNumber n)]; orderBy := None; include := None;
     limit := None |}.

Definition everything : FindManyOptions :=
  {| where_ := []; orderBy := None; include := None; limit := None |}.

End Sample.

(** * Properties *)

Unset Implicit Arguments.

Ltac same_row E := injection E as <-.

Ltac same_index E Ei Ei' := injection E as <-; rewrite Ei in Ei'; injection Ei' as <-.

(** ** The example forest is what it is said to be *)

Lemma lightNode_utxoTree : utxoTree Example.lightNode = Some Example.lightUtxoTree.
Proof. reflexivity. Qed.

Lemma lightNode_withdrawalTree :
  withdrawalTree Example.lightNode = Some Example.lightWithdrawalTree.
Proof. reflexivity. Qed.

Lemma lightNode_nullifierTree : nullifierTree Example.lightNode = None.
Proof. reflexivity. Qed.

Lemma wallet_trees :
  utxoTree Example.wallet = Some Example.walletUtxoTree
  /\ withdrawalTree Example.wallet = Some Example.walletWithdrawalTree.
Proof. split; reflexivity. Qed.

(** ** The messages and their kinds *)

Lemma taxonomy_of_messages :
  kindOf (Error "Grove is not initialized") = Some NotInitialized
  /\ kindOf (Error "Invalid starting leaf proof") = Some InvalidBootstrapProof
  /\ (forall s, kindOf (Error (treeFullMessage s)) = Some TreeFull)
  /\ kindOf (Error "Failed to find the utxo") = Some LeafNotFound
  /\ kindOf (Error "Failed to find the withdrawal") = Some LeafNotFound
  /\ kindOf (Error "It is not included in a block yet") = Some LeafNotCommitted
  /\ kindOf (Error "Failed to generate utxo merkle proof") = Some ProofUnavailable
  /\ kindOf (Error "Failed to generate withdrawal merkle proof") = Some ProofUnavailable.
Proof.
  split; [reflexivity|]. split; [reflexivity|].
  split; [intros []; reflexivity|].
  repeat (split; [reflexivity|]). reflexivity.
Qed.

(** ** Arithmetic of the padding *)

Lemma ceilDiv_bounds (a b : Z) :
  0 < b -> b * ceilDiv a b - b < a <= b * ceilDiv a b.
Proof.
  intros Hb. unfold ceilDiv.
  pose proof (Z.div_mod (- a) b ltac:(lia)) as Hdm.
  pose proof (Z.mod_pos_bound (- a) b Hb) as Hr.
  nia.
Qed.

Lemma fixedSizeLen_bounds (size len : Z) :
  0 < size -> len <= fixedSizeLen size len < len + size.
Proof.
  intros Hs. unfold fixedSizeLen.
  pose proof (ceilDiv_bounds len size Hs). lia.
Qed.

Lemma fixedSizeLen_multiple (size k : Z) :
  0 < size -> fixedSizeLen size (size * k) = size * k.
Proof.
  intros Hs. unfold fixedSizeLen, ceilDiv.
  replace (- (size * k)) with ((- k) * size) by lia.
  rewrite Z.div_mul by lia. lia.
Qed.

Lemma padding_ok (S : Type) (n : Z) (s : S) :
  0 <= n -> padding n s = (s, Ok (repeat zeroLeaf (Z.to_nat n))).
Proof.
  intros Hn. unfold padding.
  destruct (n <? 0) eqn:E; [apply Z.ltb_lt in E; lia | reflexivity].
Qed.

Lemma padded_length (size : Z) (ls : list Leaf) :
  0 < size ->
  lengthZ (ls ++ repeat zeroLeaf (Z.to_nat (fixedSizeLen size (lengthZ ls) - lengthZ ls)))
  = fixedSizeLen size (lengthZ ls).
Proof.
  intros Hs. unfold lengthZ at 1.
  rewrite length_app, repeat_length.
  pose proof (fixedSizeLen_bounds size (lengthZ ls) Hs).
  unfold lengthZ in *. lia.
Qed.

(** ** The frontier engine keeps count *)

Lemma walkUp_length (h : Hasher) (idx : Z) (sibs : list Z) :
  forall k current, length (fst (walkUp h idx k sibs current)) = length sibs.
Proof.
  induction sibs as [|s rest IH]; intros k current; simpl; [reflexivity|].
  destruct (Z.testbit idx (Z.of_nat k)).
  - specialize (IH (S k) (parentOf h s current)).
    destruct (walkUp h idx (S k) rest (parentOf h s current)); simpl in *. now rewrite IH.
  - specialize (IH (S k) (parentOf h current (nth k (preHash h) 0))).
    destruct (walkUp h idx (S k) rest (parentOf h current (nth k (preHash h) 0)));
      simpl in *. now rewrite IH.
Qed.

Lemma appendLeaf_count (t : LightRollupTree) (acc : TreeData * list TreeNode) (leaf : Leaf) :
  index (fst (appendLeaf t acc leaf)) = index (fst acc) + 1
  /\ length (siblings (fst (appendLeaf t acc leaf))) = length (siblings (fst acc)).
Proof.
  destruct acc as [d staged]. unfold appendLeaf.
  pose proof (walkUp_length (t_hasher t) (index d) (siblings d) 0 (hash leaf)) as HL.
  destruct (walkUp (t_hasher t) (index d) 0 (siblings d) (hash leaf)) as [sibs' top].
  simpl in *. split; [reflexivity | exact HL].
Qed.

Lemma fold_appendLeaf_count (t : LightRollupTree) (leaves : list Leaf) :
  forall acc,
    index (fst (fold_left (appendLeaf t) leaves acc)) = index (fst acc) + lengthZ leaves
    /\ length (siblings (fst (fold_left (appendLeaf t) leaves acc)))
       = length (siblings (fst acc)).
Proof.
  unfold lengthZ.
  induction leaves as [|l rest IH]; intros acc; simpl fold_left.
  - simpl. split; [lia | reflexivity].
  - destruct (IH (appendLeaf t acc l)) as [Hi Hs].
    destruct (appendLeaf_count t acc l) as [Hi1 Hs1].
    rewrite Hi, Hs, Hi1, Hs1. split; [|reflexivity].
    simpl length. lia.
Qed.

Lemma append_tree (t : LightRollupTree) (leaves : list Leaf) (cache : TreeCache)
    (tx : TransactionDB) :
  fst (fst (append t leaves cache tx)) = appended t leaves.
Proof.
  unfold append, appended. destruct (appendLeaves t leaves). reflexivity.
Qed.

Lemma append_count (t : LightRollupTree) (leaves : list Leaf) (cache : TreeCache)
    (tx : TransactionDB) :
  latestLeafIndex (fst (fst (append t leaves cache tx))) = latestLeafIndex t + lengthZ leaves
  /\ maxSize (fst (fst (append t leaves cache tx))) = maxSize t
  /\ metadata (fst (fst (append t leaves cache tx))) = metadata t.
Proof.
  unfold append, appendLeaves, latestLeafIndex, maxSize, depth.
  destruct (fold_appendLeaf_count t leaves (data t, [])) as [Hi Hs].
  destruct (fold_left (appendLeaf t) leaves (data t, [])) as [d staged].
  simpl in *. rewrite Hi, Hs. auto.
Qed.

(** ** Running the append paths of [applyGrovePatch] *)

Lemma padded_lengthZ (size : Z) (leaves : list Leaf) :
  0 < size -> lengthZ (padded size leaves) = fixedSizeLen size (lengthZ leaves).
Proof. intros Hs. unfold padded. now apply padded_length. Qed.

Lemma appendUTXOs_run (g : Grove) (tx : TransactionDB) (leaves : list Leaf)
    (t : LightRollupTree) :
  utxoTree g = Some t ->
  0 < utxoSubTreeSize (config g) ->
  appendUTXOs leaves (g, tx) =
  if latestLeafIndex t + fixedSizeLen (utxoSubTreeSize (config g)) (lengthZ leaves)
     <=? maxSize t
  then (afterUtxoAppend g tx t leaves,
        Ok (lt_id (metadata (fst (fst (append t (padded (utxoSubTreeSize (config g)) leaves)
                                         (treeCache g) tx))))))
  else ((g, tx), Throw (Error (treeFullMessage UTXO))).
Proof.
  intros Ht Hs.
  pose proof (fixedSizeLen_bounds _ (lengthZ leaves) Hs) as Hb.
  unfold appendUTXOs, bind, get. cbn [fst snd].
  rewrite padding_ok by lia. rewrite Ht.
  destruct (_ <=? _); [|reflexivity].
  unfold afterUtxoAppend, padded.
  destruct (append t _ (treeCache g) tx) as [[t' cache'] tx']. reflexivity.
Qed.

Lemma appendWithdrawals_run (g : Grove) (tx : TransactionDB) (leaves : list Leaf)
    (t : LightRollupTree) :
  withdrawalTree g = Some t ->
  0 < withdrawalSubTreeSize (config g) ->
  appendWithdrawals leaves (g, tx) =
  if latestLeafIndex t + fixedSizeLen (withdrawalSubTreeSize (config g)) (lengthZ leaves)
     <=? maxSize t
  then (afterWithdrawalAppend g tx t leaves,
        Ok (lt_id (metadata (fst (fst (append t
                                         (padded (withdrawalSubTreeSize (config g)) leaves)
                                         (treeCache g) tx))))))
  else ((g, tx), Throw (Error (treeFullMessage WITHDRAWAL))).
Proof.
  intros Ht Hs.
  pose proof (fixedSizeLen_bounds _ (lengthZ leaves) Hs) as Hb.
  unfold appendWithdrawals, bind, get. cbn [fst snd].
  rewrite padding_ok by lia. rewrite Ht.
  destruct (_ <=? _); [|reflexivity].
  unfold afterWithdrawalAppend, padded.
  destruct (append t _ (treeCache g) tx) as [[t' cache'] tx']. reflexivity.
Qed.

Lemma markAsNullified_frame (ns : list Z) (s : Grove * TransactionDB) :
  snd (markAsNullified ns s) = Ok tt
  /\ config (fst (fst (markAsNullified ns s))) = config (fst s)
  /\ db (fst (fst (markAsNullified ns s))) = db (fst s)
  /\ utxoTree (fst (fst (markAsNullified ns s))) = utxoTree (fst s)
  /\ withdrawalTree (fst (fst (markAsNullified ns s))) = withdrawalTree (fst s)
  /\ nullifierTree (fst (fst (markAsNullified ns s))) = nullifierTree (fst s).
Proof.
  destruct s as [g tx]. unfold markAsNullified, bind, get. simpl.
  destruct (nullifierTree g) as [tree|] eqn:E; simpl.
  - destruct (nullify tree ns (treeCache g) (db g) tx) as [cache' tx']. simpl.
    repeat split; assumption || reflexivity.
  - repeat split; assumption || reflexivity.
Qed.

Lemma recordBootstrap_frame (h : option string) (g : Grove) (tx : TransactionDB)
    (ut wt : LightRollupTree) :
  utxoTree g = Some ut -> withdrawalTree g = Some wt ->
  snd (recordBootstrap h (g, tx)) = Ok tt
  /\ fst (fst (recordBootstrap h (g, tx))) = g.
Proof.
  intros Hu Hw. unfold recordBootstrap, bind, get, deref. simpl.
  rewrite Hu, Hw. simpl.
  destruct h as [s|]; [destruct (String.eqb s "")|]; simpl; auto.
Qed.

Lemma afterAppends_frame (patch : GrovePatch) (g : Grove) (tx : TransactionDB)
    (ut wt : LightRollupTree) :
  utxoTree g = Some ut -> withdrawalTree g = Some wt ->
  snd (afterAppends patch (g, tx)) = Ok tt
  /\ config (fst (fst (afterAppends patch (g, tx)))) = config g
  /\ db (fst (fst (afterAppends patch (g, tx)))) = db g
  /\ utxoTree (fst (fst (afterAppends patch (g, tx)))) = Some ut
  /\ withdrawalTree (fst (fst (afterAppends patch (g, tx)))) = Some wt
  /\ nullifierTree (fst (fst (afterAppends patch (g, tx)))) = nullifierTree g.
Proof.
  intros Hu Hw.
  destruct (markAsNullified_frame (nullifiers patch) (g, tx))
    as (Hok & Hc & Hd & Hu' & Hw' & Hn).
  unfold afterAppends, bind, get.
  destruct (markAsNullified (nullifiers patch) (g, tx)) as [[g1 tx1] r1].
  simpl in Hok, Hc, Hd, Hu', Hw', Hn. subst r1. simpl.
  rewrite Hu in Hu'. rewrite Hw in Hw'.
  destruct (truthy (fullSync (config g1))).
  - destruct (recordBootstrap_frame (header patch) g1 tx1 ut wt Hu' Hw') as [Hr Hg].
    destruct (recordBootstrap (header patch) (g1, tx1)) as [[g2 tx2] r2].
    simpl in Hr, Hg. subst r2 g2. simpl. repeat split; assumption || reflexivity.
  - simpl. repeat split; assumption || reflexivity.
Qed.

Lemma applyGrovePatch_unfold (patch : GrovePatch) (s : Grove * TransactionDB) :
  applyGrovePatch patch s =
  match appendUTXOs (utxos patch) s with
  | (s1, Ok utxoTreeId) =>
      match appendWithdrawals (withdrawals patch) s1 with
      | (s2, Ok withdrawalTreeId) =>
          match afterAppends patch s2 with
          | (s3, Ok _) => (s3, Ok (utxoTreeId, withdrawalTreeId))
          | (s3, Throw e) => (s3, Throw e)
          end
      | (s2, Throw e) => (s2, Throw e)
      end
  | (s1, Throw e) => (s1, Throw e)
  end.
Proof.
  unfold applyGrovePatch, afterAppends, acquire, bind, get, ret.
  destruct (appendUTXOs (utxos patch) s) as [s1 [a|e]]; [|reflexivity].
  destruct (appendWithdrawals (withdrawals patch) s1) as [s2 [b|e]]; [|reflexivity].
  destruct (markAsNullified (nullifiers patch) s2) as [s3 [c|e]]; [|reflexivity].
  destruct (truthy (fullSync (config (fst s3)))).
  - destruct (recordBootstrap (header patch) s3) as [s4 [d|e]]; reflexivity.
  - reflexivity.
Qed.

Lemma applyGrovePatch_cases (patch : GrovePatch) (g : Grove) (tx : TransactionDB)
    (ut wt : LightRollupTree) :
  utxoTree g = Some ut -> withdrawalTree g = Some wt ->
  0 < utxoSubTreeSize (config g) -> 0 < withdrawalSubTreeSize (config g) ->
  let s1 := afterUtxoAppend g tx ut (utxos patch) in
  let s2 := afterWithdrawalAppend (fst s1) (snd s1) wt (withdrawals patch) in
  (~ fits ut (utxoSubTreeSize (config g)) (utxos patch)
   /\ applyGrovePatch patch (g, tx) = ((g, tx), Throw (Error (treeFullMessage UTXO))))
  \/ (fits ut (utxoSubTreeSize (config g)) (utxos patch)
      /\ ~ fits wt (withdrawalSubTreeSize (config g)) (withdrawals patch)
      /\ applyGrovePatch patch (g, tx) = (s1, Throw (Error (treeFullMessage WITHDRAWAL))))
  \/ (fits ut (utxoSubTreeSize (config g)) (utxos patch)
      /\ fits wt (withdrawalSubTreeSize (config g)) (withdrawals patch)
      /\ (exists ids, snd (applyGrovePatch patch (g, tx)) = Ok ids)
      /\ fst (applyGrovePatch patch (g, tx)) = fst (afterAppends patch s2)).
Proof.
  intros Hu Hw Hus Hws s1 s2.
  rewrite applyGrovePatch_unfold, (appendUTXOs_run g tx (utxos patch) ut Hu Hus).
  unfold fits.
  destruct (_ <=? _) eqn:Eu.
  2:{ apply Z.leb_gt in Eu. left. split; [lia | reflexivity]. }
  apply Z.leb_le in Eu. right. fold s1.
  assert (Hw1 : withdrawalTree (fst s1) = Some wt) by exact Hw.
  assert (Hc1 : config (fst s1) = config g) by reflexivity.
  destruct s1 as [g1 tx1] eqn:Es1. cbn [fst snd] in *.
  assert (Hws1 : 0 < withdrawalSubTreeSize (config g1)) by (rewrite Hc1; exact Hws).
  rewrite (appendWithdrawals_run g1 tx1 (withdrawals patch) wt Hw1 Hws1). rewrite Hc1.
  destruct (_ <=? _) eqn:Ew.
  2:{ apply Z.leb_gt in Ew. left. repeat split; (lia || reflexivity). }
  apply Z.leb_le in Ew. right. fold s2.
  assert (Hu2 : utxoTree (fst s2)
                = Some (fst (fst (append ut (padded (utxoSubTreeSize (config g)) (utxos patch))
                                    (treeCache g) tx)))).
  { unfold s2, afterWithdrawalAppend. cbn [fst snd setTreeCache setWithdrawalTree utxoTree].
    inversion Es1. reflexivity. }
  assert (Hw2 : exists t', withdrawalTree (fst s2) = Some t') by (eexists; reflexivity).
  destruct Hw2 as [wt' Hw2].
  destruct s2 as [g2 tx2] eqn:Es2. cbn [fst] in Hu2, Hw2.
  destruct (afterAppends_frame patch g2 tx2 _ _ Hu2 Hw2) as (Hok & _).
  destruct (afterAppends patch (g2, tx2)) as [s3 r3]. simpl in Hok. subst r3.
  repeat split; try assumption. eexists; reflexivity.
Qed.

Lemma treeFullMessage_inj (s s' : TreeSpecies) :
  Error (treeFullMessage s) = Error (treeFullMessage s') -> s = s'.
Proof. destruct s, s'; simpl; intros H; (reflexivity || discriminate H). Qed.


(** ** C3: a full tree *)




(** ** C9: light-node mode *)









(** ** C4: bootstrapping from starting-leaf proofs *)

Lemma filter_update_same (s : TreeSpecies) (d : LightTreeData) (rows : list LightTree) :
  filter (whereSpecies s)
    (map (fun r => if whereSpecies s r then setLightTree d r else r) rows)
  = map (setLightTree d) (filter (whereSpecies s) rows).
Proof.
  induction rows as [|r rows IH]; simpl; [reflexivity|].
  destruct (whereSpecies s r) eqn:E; simpl.
  - unfold whereSpecies in *. simpl. rewrite E. simpl. now rewrite IH.
  - rewrite E. exact IH.
Qed.

Lemma filter_update_other (s s' : TreeSpecies) (d : LightTreeData) (rows : list LightTree) :
  s <> s' ->
  filter (whereSpecies s')
    (map (fun r => if whereSpecies s r then setLightTree d r else r) rows)
  = filter (whereSpecies s') rows.
Proof.
  intros Hne. induction rows as [|r rows IH]; simpl; [reflexivity|].
  destruct (whereSpecies s r) eqn:E.
  - assert (E' : whereSpecies s' r = false).
    { unfold whereSpecies in *. destruct (lt_species r), s, s'; simpl in *;
        congruence. }
    rewrite E'. unfold whereSpecies at 1. simpl.
    unfold whereSpecies in E'. rewrite E'. exact IH.
  - destruct (whereSpecies s' r); [now rewrite IH | exact IH].
Qed.

(** After an upsert the species' row is there and carries the columns
    written; the rows of the other species are as they were. *)
Lemma findOne_upsert (s : TreeSpecies) (d : LightTreeData) (database : DB) :
  exists row,
    findOne (tblLightTree (upsertLightTree s d database)) (whereSpecies s) = Row row
    /\ lt_species row = s
    /\ lt_root row = d_root d /\ lt_index row = d_index d
    /\ lt_siblings row = d_siblings d.
Proof.
  unfold upsertLightTree, updateLightTree, findOne.
  destruct (Z.of_nat (length (filter (whereSpecies s) (tblLightTree database))) >? 0) eqn:E.
  - simpl. rewrite filter_update_same.
    destruct (filter (whereSpecies s) (tblLightTree database)) as [|r rest] eqn:F;
      [simpl in E; discriminate|].
    simpl. eexists. split; [reflexivity|]. simpl.
    assert (Hin : In r (filter (whereSpecies s) (tblLightTree database)))
      by (rewrite F; now left).
    apply filter_In in Hin. destruct Hin as [_ Hs].
    unfold whereSpecies in Hs. destruct (lt_species r), s; simpl in Hs;
      try discriminate; auto.
  - simpl. rewrite filter_app.
    destruct (filter (whereSpecies s) (tblLightTree database)) as [|r rest] eqn:F.
    + simpl. unfold whereSpecies at 1. simpl.
      destruct s; simpl; eexists; split; try reflexivity; auto.
    + exfalso. rewrite Z.gtb_ltb in E. apply Z.ltb_ge in E.
      simpl length in E. lia.
Qed.

Lemma upsert_other (s s' : TreeSpecies) (d : LightTreeData) (database : DB) :
  s <> s' ->
  filter (whereSpecies s') (tblLightTree (upsertLightTree s d database))
  = filter (whereSpecies s') (tblLightTree database).
Proof.
  intros Hne. unfold upsertLightTree, updateLightTree.
  destruct (_ >? 0); simpl.
  - now apply filter_update_other.
  - rewrite filter_app. simpl.
    assert (E : whereSpecies s'
                  {| lt_id := nextId database; lt_species := s; lt_root := d_root d;
                     lt_index := d_index d; lt_siblings := d_siblings d;
                     lt_start := d_start d; lt_end := d_end d |} = false).
    { unfold whereSpecies. simpl. destruct s, s'; simpl; congruence. }
    rewrite E. apply app_nil_r.
Qed.

Lemma bootstrapLightTree_run (s : TreeSpecies) (h : Hasher) (p : MerkleProof) (g : Grove) :
  bootstrapLightTree s h (Some p) g =
  if startingLeafProof h (p_root p) (p_index p) (p_siblings p)
  then
    let g' := setDb g (upsertLightTree s (bootstrapData p) (db g)) in
    match findOne (tblLightTree (db g')) (whereSpecies s) with
    | Row row =>
        (g', Ok (Row row, from row h (forceUpdate (config g)) (fullSync (config g))))
    | Undefined | Null => (g', Throw TypeError)
    end
  else (g, Throw (Error "Invalid starting leaf proof")).
Proof.
  unfold bootstrapLightTree, bind, get, put, ret, throw, derefRow.
  destruct (startingLeafProof h (p_root p) (p_index p) (p_siblings p)); [|reflexivity].
  cbn [fst snd]. unfold bootstrapData.
  destruct (findOne _ _); reflexivity.
Qed.

Lemma applyBootstrap_unfold (pu pw : MerkleProof) (g : Grove) :
  applyBootstrap pu pw g =
  match bootstrapLightTree UTXO (utxoHasher (config g)) (Some pu) g with
  | (g1, Ok ru) =>
      match bootstrapLightTree WITHDRAWAL (withdrawalHasher (config g1)) (Some pw) g1 with
      | (g2, Ok rw) =>
          (setWithdrawalTree (setUtxoTree g2 (Some (snd ru))) (Some (snd rw)), Ok tt)
      | (g2, Throw e) => (g2, Throw e)
      end
  | (g1, Throw e) => (g1, Throw e)
  end.
Proof.
  unfold applyBootstrap, acquire, bootstrapUtxoTree, bootstrapWithdrawalTree, bind, get, put.
  destruct (bootstrapLightTree UTXO _ _ g) as [g1 [ru|e]]; [|reflexivity].
  destruct (bootstrapLightTree WITHDRAWAL _ _ g1) as [g2 [rw|e]]; reflexivity.
Qed.

(** C4, as stated, fails: with a valid UTXO proof and an invalid withdrawal
    proof on a fresh Grove over an empty database, the call fails with
    ["Invalid starting leaf proof"] and neither tree is assigned, but the
    UTXO metadata row has been written to the database. *)
Lemma C4_utxo_row_persisted_counterexample :
  startingLeafProof (utxoHasher Example.cfg) (p_root Example.genesisProof)
    (p_index Example.genesisProof) (p_siblings Example.genesisProof) = true
  /\ startingLeafProof (withdrawalHasher Example.cfg) (p_root Example.badProof)
       (p_index Example.badProof) (p_siblings Example.badProof) = false
  /\ findOne (tblLightTree (db (newGrove emptyDB Example.cfg))) (whereSpecies UTXO)
     = Undefined
  /\ snd (applyBootstrap Example.genesisProof Example.badProof
            (newGrove emptyDB Example.cfg))
     = Throw (Error "Invalid starting leaf proof")
  /\ findOne
       (tblLightTree
          (db (fst (applyBootstrap Example.genesisProof Example.badProof
                      (newGrove emptyDB Example.cfg)))))
       (whereSpecies UTXO)
     = Row Example.utxoRow
  /\ utxoTree (fst (applyBootstrap Example.genesisProof Example.badProof
                      (newGrove emptyDB Example.cfg))) = None
  /\ withdrawalTree (fst (applyBootstrap Example.genesisProof Example.badProof
                            (newGrove emptyDB Example.cfg))) = None.
Proof. repeat split. Qed.

(** C4, amended.  [applyBootstrap] succeeds only if [startingLeafProof]
    holds for both proofs, and fails with ["Invalid starting leaf proof"]
    when either is rejected.  A rejected UTXO proof leaves the Grove and the
    database untouched.  A valid UTXO proof with a rejected withdrawal proof
    leaves both in-memory trees as they were and writes no withdrawal row,
    but the UTXO metadata row has already been upserted with the proof's
    root, index and siblings.  When both hold, both trees are replaced by
    trees at the proofs' root and index. *)
Theorem C4_applyBootstrap_outcomes (g : Grove) (pu pw : MerkleProof) :
  let okU := startingLeafProof (utxoHasher (config g))
               (p_root pu) (p_index pu) (p_siblings pu) in
  let okW := startingLeafProof (withdrawalHasher (config g))
               (p_root pw) (p_index pw) (p_siblings pw) in
  let r := applyBootstrap pu pw g in
  (okU = false -> r = (g, Throw (Error "Invalid starting leaf proof")))
  /\ (okU = true -> okW = false ->
      snd r = Throw (Error "Invalid starting leaf proof")
      /\ fst r = setDb g (upsertLightTree UTXO (bootstrapData pu) (db g))
      /\ utxoTree (fst r) = utxoTree g
      /\ withdrawalTree (fst r) = withdrawalTree g
      /\ (exists row,
            findOne (tblLightTree (db (fst r))) (whereSpecies UTXO) = Row row
            /\ lt_root row = p_root pu /\ lt_index row = p_index pu
            /\ lt_siblings row = p_siblings pu)
      /\ filter (whereSpecies WITHDRAWAL) (tblLightTree (db (fst r)))
         = filter (whereSpecies WITHDRAWAL) (tblLightTree (db g)))
  /\ (snd r = Ok tt -> okU = true /\ okW = true)
  /\ (okU = true -> okW = true ->
      snd r = Ok tt
      /\ exists tu tw,
           utxoTree (fst r) = Some tu /\ withdrawalTree (fst r) = Some tw
           /\ treeRoot tu = p_root pu /\ latestLeafIndex tu = p_index pu
           /\ treeRoot tw = p_root pw /\ latestLeafIndex tw = p_index pw).
Proof.
  intros okU okW r. unfold r. rewrite applyBootstrap_unfold.
  rewrite bootstrapLightTree_run. fold okU.
  destruct okU eqn:EU.
  2:{ split; [reflexivity|]. split; [discriminate|].
      split; [discriminate | intros; discriminate]. }
  cbv zeta.
  destruct (findOne_upsert UTXO (bootstrapData pu) (db g))
    as (rowU & HfU & _ & HrU & HiU & HsU).
  change (db (setDb g (upsertLightTree UTXO (bootstrapData pu) (db g))))
    with (upsertLightTree UTXO (bootstrapData pu) (db g)).
  rewrite HfU. rewrite bootstrapLightTree_run.
  change (withdrawalHasher
            (config (setDb g (upsertLightTree UTXO (bootstrapData pu) (db g)))))
    with (withdrawalHasher (config g)).
  fold okW.
  destruct okW eqn:EW.
  - (* both proofs hold *)
    cbv zeta.
    destruct (findOne_upsert WITHDRAWAL (bootstrapData pw)
                (upsertLightTree UTXO (bootstrapData pu) (db g)))
      as (rowW & HfW & _ & HrW & HiW & HsW).
    change (db (setDb (setDb g (upsertLightTree UTXO (bootstrapData pu) (db g)))
                  (upsertLightTree WITHDRAWAL (bootstrapData pw)
                     (db (setDb g (upsertLightTree UTXO (bootstrapData pu) (db g)))))))
      with (upsertLightTree WITHDRAWAL (bootstrapData pw)
              (upsertLightTree UTXO (bootstrapData pu) (db g))).
    rewrite HfW. cbn [fst snd].
    split; [discriminate|]. split; [discriminate|]. split; [auto|].
    intros _ _. split; [reflexivity|].
    eexists. eexists. split; [reflexivity|]. split; [reflexivity|].
    unfold treeRoot, latestLeafIndex, from. simpl. auto.
  - (* the withdrawal proof is rejected after the UTXO row was written *)
    cbn [fst snd].
    split; [discriminate|].
    split.
    + intros _ _. split; [reflexivity|]. split; [reflexivity|].
      split; [reflexivity|]. split; [reflexivity|].
      split.
      * exists rowU. simpl. rewrite HfU. auto.
      * simpl. apply upsert_other. discriminate.
    + split; [discriminate | intros; discriminate].
Qed.

(** C4, amended, on a fresh Grove over an empty database. *)
Lemma C4_applyBootstrap_outcomes_witness :
  startingLeafProof (utxoHasher Example.cfg) (p_root Example.genesisProof)
    (p_index Example.genesisProof) (p_siblings Example.genesisProof) = true
  /\ startingLeafProof (withdrawalHasher Example.cfg) (p_root Example.badProof)
       (p_index Example.badProof) (p_siblings Example.badProof) = false
  /\ snd (applyBootstrap Example.genesisProof Example.badProof
            (newGrove emptyDB Example.cfg))
     = Throw (Error "Invalid starting leaf proof")
  /\ utxoTree (fst (applyBootstrap Example.genesisProof Example.badProof
                      (newGrove emptyDB Example.cfg))) = None
  /\ applyBootstrap Example.badProof Example.genesisProof (newGrove emptyDB Example.cfg)
     = (newGrove emptyDB Example.cfg, Throw (Error "Invalid starting leaf proof"))
  /\ snd (applyBootstrap Example.genesisProof Example.genesisProof
            (newGrove emptyDB Example.cfg)) = Ok tt.
Proof.
  pose proof (C4_applyBootstrap_outcomes (newGrove emptyDB Example.cfg)
                Example.genesisProof Example.badProof) as H1.
  pose proof (C4_applyBootstrap_outcomes (newGrove emptyDB Example.cfg)
                Example.badProof Example.genesisProof) as H2.
  pose proof (C4_applyBootstrap_outcomes (newGrove emptyDB Example.cfg)
                Example.genesisProof Example.genesisProof) as H3.
  cbv zeta in H1, H2, H3.
  destruct H1 as (_ & B1 & _). destruct H2 as (A2 & _). destruct H3 as (_ & _ & _ & D3).
  destruct (B1 eq_refl eq_refl) as (E1 & _ & E3 & _).
  split; [reflexivity|]. split; [reflexivity|].
  split; [exact E1|]. split; [exact E3|].
  split; [exact (A2 eq_refl) | exact (proj1 (D3 eq_refl eq_refl))].
Defined.

(** ** Lookups *)

Lemma findOne_where {A : Type} (rows : list A) (where_ : A -> bool) (a : A) :
  findOne rows where_ = Row a -> where_ a = true /\ In a rows.
Proof.
  unfold findOne. destruct (filter where_ rows) as [|x rest] eqn:F; [discriminate|].
  intros E. injection E as ->.
  assert (Hin : In a (filter where_ rows)) by (rewrite F; now left).
  apply filter_In in Hin. tauto.
Qed.

Lemma findOne_not_null {A : Type} (rows : list A) (where_ : A -> bool) :
  findOne rows where_ <> Null.
Proof. unfold findOne. destruct (filter where_ rows); discriminate. Qed.

(** ** C7: genesis *)

(** C7, where the code departs from it.  Over an empty database the
    connector's [findOne] yields [undefined]; [init] tests [=== null], so it
    does not start a new tree, and [assert(utxoTreeData)] fails.  The Grove
    is left without trees and [getSnapshot] then raises a [TypeError]; no
    snapshot with the genesis root is returned. *)
Theorem C7_init_on_empty_database (c : GroveConfig) :
  findOne (tblLightTree (db (newGrove emptyDB c))) (whereSpecies UTXO) = Undefined
  /\ init (newGrove emptyDB c) = (newGrove emptyDB c, Throw AssertionError)
  /\ snd (getSnapshot (fst (init (newGrove emptyDB c)))) = Throw TypeError.
Proof. repeat split. Qed.

(** The branch [init] does not reach: starting a new UTXO tree over an empty
    database persists the genesis row and yields a tree whose root is the
    genesis root and whose index is 0. *)
Lemma bootstrapUtxoTree_genesis (c : GroveConfig) :
  exists g' row t,
    bootstrapUtxoTree None (newGrove emptyDB c) = (g', Ok (Row row, t))
    /\ tblLightTree (db g') = [row]
    /\ treeRoot t = genesisRoot (utxoHasher c)
    /\ latestLeafIndex t = 0
    /\ siblings (data t) = removelast (preHash (utxoHasher c)).
Proof.
  unfold bootstrapUtxoTree, bootstrapLightTree, bind, get, put, ret, derefRow.
  cbn -[genesisRoot removelast].
  do 3 eexists. split; [reflexivity|]. cbn -[genesisRoot removelast].
  split; [reflexivity|]. split; [reflexivity|]. split; reflexivity.
Qed.

(** Once the metadata rows exist, [init] builds the trees from them: the
    snapshot then reports the rows' roots and indices. *)
Lemma init_from_rows (g : Grove) (rowU rowW : LightTree) :
  findOne (tblLightTree (db g)) (whereSpecies UTXO) = Row rowU ->
  findOne (tblLightTree (db g)) (whereSpecies WITHDRAWAL) = Row rowW ->
  snd (init g) = Ok tt
  /\ option_map data (utxoTree (fst (init g)))
     = Some {| root := lt_root rowU; index := lt_index rowU; siblings := lt_siblings rowU |}
  /\ option_map data (withdrawalTree (fst (init g)))
     = Some {| root := lt_root rowW; index := lt_index rowW; siblings := lt_siblings rowW |}
  /\ nullifierTree (fst (init g))
     = Some {| n_hasher := nullifierHasher (config g);
               n_depth := nullifierTreeDepth (config g) |}.
Proof.
  intros HU HW.
  unfold init, acquire, bind, get, put, ret, assert, derefRow. cbn [fst snd].
  rewrite HU. cbn -[findOne]. rewrite HW. cbn.
  split; [reflexivity|]. split; [reflexivity|]. split; reflexivity.
Qed.

(** Under this connector the genesis branch of [init] is dead: a lookup never
    yields [null], so [init] never writes to the database, and it succeeds
    exactly when both metadata rows are already there. *)
Lemma init_never_bootstraps (g : Grove) :
  db (fst (init g)) = db g
  /\ (snd (init g) = Ok tt <->
      (exists rowU, findOne (tblLightTree (db g)) (whereSpecies UTXO) = Row rowU)
      /\ (exists rowW, findOne (tblLightTree (db g)) (whereSpecies WITHDRAWAL) = Row rowW)).
Proof.
  unfold init, acquire, bind, get, put, ret, assert, derefRow. cbn [fst snd].
  destruct (findOne (tblLightTree (db g)) (whereSpecies UTXO)) as [| |rowU] eqn:EU.
  - cbn. split; [reflexivity|]. split; [discriminate|].
    intros [[rowU E] _]. discriminate E.
  - exfalso. exact (findOne_not_null _ _ EU).
  - cbn -[findOne].
    destruct (findOne (tblLightTree (db g)) (whereSpecies WITHDRAWAL)) as [| |rowW] eqn:EW.
    + cbn. split; [reflexivity|]. split; [discriminate|].
      intros [_ [rowW E]]. discriminate E.
    + exfalso. exact (findOne_not_null _ _ EW).
    + cbn. split; [reflexivity|]. split; [|reflexivity].
      intros _. split; eexists; reflexivity.
Qed.

(** ** C8: before initialization *)

(** C8, where the code departs from it.  On a Grove that was only
    constructed, [dryPatch] and [getSnapshot] raise a [TypeError] (they read
    [this.utxoTree.dryAppend] without a guard), and the proof queries never
    raise ["Grove is not initialized"]: they fail on the row lookup or, for a
    committed row, with a [TypeError].  None of these is the NotInitialized
    error. *)
Theorem C8_uninitialized_reads (d : DB) (c : GroveConfig) (patch : GrovePatch)
    (hash_ noteHash : Z) (index_ : option Z) :
  dryPatch patch (newGrove d c) = (newGrove d c, Throw TypeError)
  /\ getSnapshot (newGrove d c) = (newGrove d c, Throw TypeError)
  /\ kindOf TypeError = None
  /\ (exists e, snd (utxoMerkleProof hash_ (newGrove d c)) = Throw e
                /\ kindOf e <> Some NotInitialized)
  /\ (exists e, snd (withdrawalMerkleProof noteHash index_ (newGrove d c)) = Throw e
                /\ kindOf e <> Some NotInitialized).
Proof.
  split; [reflexivity|]. split; [reflexivity|]. split; [reflexivity|].
  split.
  - unfold utxoMerkleProof, bind, get. cbn [fst snd db newGrove].
    destruct (findOne (tblUtxo d) _) as [| |u];
      try (eexists; split; [reflexivity | simpl; discriminate]).
    destruct (u_index u);
      eexists; (split; [reflexivity | simpl; discriminate]).
  - unfold withdrawalMerkleProof, bind, get. cbn [fst snd db newGrove].
    destruct (findOne (tblWithdrawal d) _) as [| |w];
      try (eexists; split; [reflexivity | simpl; discriminate]).
    destruct index_ as [i|]; [|destruct (w_index w)];
      eexists; (split; [reflexivity | simpl; discriminate]).
Qed.

(** The guarded path: [applyGrovePatch] on a Grove that was only
    constructed does raise ["Grove is not initialized"]. *)
Lemma applyGrovePatch_uninitialized (d : DB) (c : GroveConfig) (patch : GrovePatch)
    (tx : TransactionDB) :
  0 < utxoSubTreeSize c ->
  applyGrovePatch patch (newGrove d c, tx)
  = ((newGrove d c, tx), Throw (Error "Grove is not initialized")).
Proof.
  intros Hs.
  pose proof (fixedSizeLen_bounds _ (lengthZ (utxos patch)) Hs) as Hb.
  rewrite applyGrovePatch_unfold.
  unfold appendUTXOs, bind, get. cbn [fst snd config newGrove utxoTree].
  rewrite padding_ok by lia. reflexivity.
Qed.

(** ** C5 and C10: proof queries *)

Lemma rebuildProof_at (cache : TreeCache) (database : DB) (treeDepth : nat) (h : Hasher)
    (t : LightRollupTree) (leafIndex leaf : Z) :
  p_index (rebuildProof cache database treeDepth h t leafIndex leaf) = leafIndex
  /\ p_leaf (rebuildProof cache database treeDepth h t leafIndex leaf) = leaf.
Proof.
  unfold rebuildProof.
  destruct (fold_left _ _ _) as [root_ siblings_]. split; reflexivity.
Qed.

(** C5.  On an initialized Grove, [utxoMerkleProof(hash)] fails with
    ["Failed to find the utxo"] when no [Utxo] row has that hash, with
    ["It is not included in a block yet"] when the row's index is null, and
    with ["Failed to generate utxo merkle proof"] when the rebuilt proof does
    not verify; otherwise it returns the rebuilt proof, which verifies and is
    a proof for [hash] at the row's index. *)
Theorem C5_utxoMerkleProof_outcomes (g : Grove) (hash_ : Z) (t : LightRollupTree)
    (Ht : utxoTree g = Some t) :
  let r := snd (utxoMerkleProof hash_ g) in
  let row := findOne (tblUtxo (db g)) (fun u => u_hash u =? hash_) in
  let rebuilt := fun i =>
    rebuildProof (treeCache g) (db g) (utxoTreeDepth (config g)) (utxoHasher (config g))
      t i hash_ in
  (row = Undefined -> r = Throw (Error "Failed to find the utxo"))
  /\ (forall u, row = Row u -> u_index u = None ->
      r = Throw (Error "It is not included in a block yet"))
  /\ (forall u i, row = Row u -> u_index u = Some i ->
      verifyProof (utxoHasher (config g)) (rebuilt i) = false ->
      r = Throw (Error "Failed to generate utxo merkle proof"))
  /\ (forall u i, row = Row u -> u_index u = Some i ->
      verifyProof (utxoHasher (config g)) (rebuilt i) = true ->
      r = Ok (rebuilt i))
  /\ (forall p, r = Ok p ->
      verifyProof (utxoHasher (config g)) p = true /\ p_leaf p = hash_
      /\ exists u, row = Row u /\ u_index u = Some (p_index p)).
Proof.
  intros r row rebuilt. unfold r.
  unfold utxoMerkleProof, bind, get, deref. cbn [fst snd]. fold row.
  rewrite Ht. cbn [ret].
  pose proof (findOne_where (tblUtxo (db g)) (fun u => u_hash u =? hash_)) as Hwhere.
  fold row in Hwhere.
  destruct row as [| |u] eqn:Erow.
  - cbn [fst snd]. split; [reflexivity|]. split; [intros u E; discriminate E|].
    split; [intros u i E; discriminate E|]. split; [intros u i E; discriminate E|].
    intros p E; discriminate E.
  - exfalso. exact (findOne_not_null _ _ Erow).
  - destruct (Hwhere u eq_refl) as [Hhash _]. apply Z.eqb_eq in Hhash.
    rewrite Hhash.
    destruct (u_index u) as [i|] eqn:Ei.
    + fold (rebuilt i).
      destruct (verifyProof (utxoHasher (config g)) (rebuilt i)) eqn:Ev; cbn [fst snd].
      * split; [discriminate|]. split; [intros u' E; same_row E; congruence|].
        split; [intros u' i' E Ei' Hv; same_index E Ei Ei'; congruence|].
        split; [intros u' i' E Ei' Hv; same_index E Ei Ei'; reflexivity|].
        intros p E. injection E as <-. split; [exact Ev|].
        split; [apply rebuildProof_at|].
        exists u. split; [reflexivity|].
        unfold rebuilt. rewrite (proj1 (rebuildProof_at _ _ _ _ _ _ _)). exact Ei.
      * split; [discriminate|]. split; [intros u' E; same_row E; congruence|].
        split; [intros u' i' E Ei' Hv; same_index E Ei Ei'; reflexivity|].
        split; [intros u' i' E Ei' Hv; same_index E Ei Ei'; congruence|].
        intros p E; discriminate E.
    + cbn [fst snd]. split; [discriminate|]. split; [reflexivity|].
      split; [intros u' i' E Ei'; same_row E; congruence|].
      split; [intros u' i' E Ei'; same_row E; congruence|].
      intros p E; discriminate E.
Qed.

(** C5, on the wallet of the examples: the committed leaf 11 gets a proof
    that verifies, the uncommitted leaf 12 and the unknown leaf 13 do not. *)
Lemma C5_utxoMerkleProof_outcomes_witness :
  utxoTree Example.wallet = Some Example.walletUtxoTree
  /\ snd (utxoMerkleProof 11 Example.wallet)
     = Ok {| p_root := 108; p_index := 0; p_leaf := 11; p_siblings := [0; 1] |}
  /\ verifyProof (utxoHasher (config Example.wallet))
       {| p_root := 108; p_index := 0; p_leaf := 11; p_siblings := [0; 1] |} = true
  /\ snd (utxoMerkleProof 12 Example.wallet)
     = Throw (Error "It is not included in a block yet")
  /\ snd (utxoMerkleProof 13 Example.wallet) = Throw (Error "Failed to find the utxo").
Proof.
  pose proof (C5_utxoMerkleProof_outcomes Example.wallet 11
                Example.walletUtxoTree eq_refl) as H11.
  pose proof (C5_utxoMerkleProof_outcomes Example.wallet 12
                Example.walletUtxoTree eq_refl) as H12.
  pose proof (C5_utxoMerkleProof_outcomes Example.wallet 13
                Example.walletUtxoTree eq_refl) as H13.
  cbv zeta in H11, H12, H13.
  destruct H11 as (_ & _ & _ & A & B).
  destruct H12 as (_ & C & _). destruct H13 as (D & _).
  split; [reflexivity|].
  split; [exact (A {| u_hash := 11; u_index := Some 0 |} 0 eq_refl eq_refl eq_refl)|].
  split; [exact (proj1 (B _ (A {| u_hash := 11; u_index := Some 0 |} 0
                              eq_refl eq_refl eq_refl)))|].
  split; [exact (C {| u_hash := 12; u_index := None |} eq_refl eq_refl)|].
  exact (D eq_refl).
Defined.

(** C10.  For a [Withdrawal] row found by [withdrawalMerkleProof], an index
    supplied by the caller takes precedence over the stored one: the proof is
    rebuilt at the supplied index, whatever the row holds, and the stored
    index is used only when none is supplied.
    ["It is not included in a block yet"] is raised exactly when no index is
    supplied and the stored one is null. *)
Theorem C10_supplied_index_precedence (g : Grove) (noteHash : Z) (index_ : option Z)
    (w : Withdrawal)
    (Hrow : findOne (tblWithdrawal (db g)) (fun w => w_withdrawalHash w =? noteHash)
            = Row w) :
  let r := snd (withdrawalMerkleProof noteHash index_ g) in
  let rebuilt := fun t i =>
    rebuildProof (treeCache g) (db g) (withdrawalTreeDepth (config g))
      (withdrawalHasher (config g)) t i noteHash in
  let outcomeAt := fun i =>
    match withdrawalTree g with
    | None => Throw TypeError
    | Some t =>
        if verifyProof (withdrawalHasher (config g)) (rebuilt t i)
        then Ok (rebuilt t i)
        else Throw (Error "Failed to generate withdrawal merkle proof")
    end in
  (r = Throw (Error "It is not included in a block yet")
   <-> index_ = None /\ w_index w = None)
  /\ (forall i, index_ = Some i -> r = outcomeAt i)
  /\ (forall i, index_ = None -> w_index w = Some i -> r = outcomeAt i)
  /\ (forall i p, index_ = Some i -> r = Ok p -> p_index p = i /\ p_leaf p = noteHash).
Proof.
  intros r rebuilt outcomeAt.
  assert (Hr : r = match (match index_ with Some i => Some i | None => w_index w end) with
                   | None => Throw (Error "It is not included in a block yet")
                   | Some i => outcomeAt i
                   end).
  { unfold r, withdrawalMerkleProof, bind, get, deref. cbn [fst snd].
    rewrite Hrow.
    destruct (match index_ with Some i => Some i | None => w_index w end) as [i|];
      [|reflexivity].
    unfold outcomeAt. destruct (withdrawalTree g) as [t|]; [|reflexivity].
    cbn [ret]. fold (rebuilt t i).
    destruct (verifyProof (withdrawalHasher (config g)) (rebuilt t i)); reflexivity. }
  assert (Hno : forall i, outcomeAt i <> Throw (Error "It is not included in a block yet")).
  { intros i. unfold outcomeAt. destruct (withdrawalTree g) as [t|]; [|discriminate].
    destruct (verifyProof _ _); discriminate. }
  rewrite Hr. clear Hr.
  split.
  - destruct index_ as [i|]; [|destruct (w_index w) as [i|]].
    + split; [intros E; exfalso; exact (Hno i E) | intros [E _]; discriminate E].
    + split; [intros E; exfalso; exact (Hno i E) | intros [_ E]; discriminate E].
    + split; [auto | reflexivity].
  - split; [intros i ->; reflexivity|].
    split; [intros i -> ->; reflexivity|].
    intros i p -> E. unfold outcomeAt in E.
    destruct (withdrawalTree g) as [t|]; [|discriminate E].
    destruct (verifyProof _ _); [|discriminate E].
    injection E as <-. unfold rebuilt. apply rebuildProof_at.
Qed.

(** C10, on the wallet of the examples: leaf 21 is stored at index 0; asked
    at index 1 the proof is rebuilt there (and does not verify), and the leaf
    22, not yet in a block, is answered at a supplied index instead of being
    reported as not committed. *)
Lemma C10_supplied_index_precedence_witness :
  findOne (tblWithdrawal (db Example.wallet)) (fun w => w_withdrawalHash w =? 21)
  = Row {| w_withdrawalHash := 21; w_index := Some 0 |}
  /\ snd (withdrawalMerkleProof 21 (Some 1) Example.wallet)
     = Throw (Error "Failed to generate withdrawal merkle proof")
  /\ snd (withdrawalMerkleProof 21 None Example.wallet)
     = Ok {| p_root := 198; p_index := 0; p_leaf := 21; p_siblings := [0; 1] |}
  /\ snd (withdrawalMerkleProof 22 (Some 0) Example.wallet)
     <> Throw (Error "It is not included in a block yet")
  /\ snd (withdrawalMerkleProof 22 None Example.wallet)
     = Throw (Error "It is not included in a block yet").
Proof.
  pose proof (C10_supplied_index_precedence Example.wallet 21 (Some 1)
                {| w_withdrawalHash := 21; w_index := Some 0 |} eq_refl) as H1.
  pose proof (C10_supplied_index_precedence Example.wallet 21 None
                {| w_withdrawalHash := 21; w_index := Some 0 |} eq_refl) as H2.
  pose proof (C10_supplied_index_precedence Example.wallet 22 (Some 0)
                {| w_withdrawalHash := 22; w_index := None |} eq_refl) as H3.
  pose proof (C10_supplied_index_precedence Example.wallet 22 None
                {| w_withdrawalHash := 22; w_index := None |} eq_refl) as H4.
  cbv zeta in H1, H2, H3, H4.
  destruct H1 as (_ & A & _). destruct H2 as (_ & _ & B & _).
  destruct H3 as (C & _). destruct H4 as (D & _).
  split; [reflexivity|].
  split; [exact (A 1 eq_refl)|].
  split; [exact (B 0 eq_refl eq_refl)|].
  split; [intros E; apply C in E; destruct E as [E _]; discriminate E|].
  apply D. split; reflexivity.
Defined.

(** ** C6: the dry run is pure *)

Lemma dryPatch_run (patch : GrovePatch) (g : Grove) (ut wt : LightRollupTree) :
  utxoTree g = Some ut -> withdrawalTree g = Some wt ->
  dryPatch patch g =
  (g, Ok {| utxoTreeIndex :=
              dry_index (dryAppend ut (map untracked (utxos patch)))
              + fixedSizeLen (utxoSubTreeSize (config g)) (lengthZ (utxos patch))
              - lengthZ (utxos patch);
            utxoTreeRoot := dry_root (dryAppend ut (map untracked (utxos patch)));
            withdrawalTreeIndex :=
              dry_index (dryAppend wt (map untracked (withdrawals patch)))
              + fixedSizeLen (withdrawalSubTreeSize (config g)) (lengthZ (withdrawals patch))
              - lengthZ (withdrawals patch);
            withdrawalTreeRoot := dry_root (dryAppend wt (map untracked (withdrawals patch)));
            nullifierTreeRoot :=
              option_map (fun t => dryRunNullify t (treeCache g) (db g) (nullifiers patch))
                (nullifierTree g) |}).
Proof.
  intros Hu Hw. unfold dryPatch, acquire, bind, get, deref. cbn [fst snd].
  rewrite Hu, Hw. reflexivity.
Qed.

Lemma dryPatch_state (patch : GrovePatch) (g : Grove) : fst (dryPatch patch g) = g.
Proof.
  unfold dryPatch, acquire, bind, get, deref. cbn [fst snd].
  destruct (utxoTree g); [|reflexivity].
  destruct (withdrawalTree g); reflexivity.
Qed.

(** C6.  [dryPatch] is pure: it leaves the Grove, with its three trees, its
    cache and its database, exactly as it found it, so a snapshot taken after
    it equals a snapshot taken before it; in particular the nullifier root
    that [dryRunNullify] reports for the current state is the same before and
    after. *)
Theorem C6_dryPatch_pure (g : Grove) (patch : GrovePatch) :
  fst (dryPatch patch g) = g
  /\ snd (getSnapshot (fst (dryPatch patch g))) = snd (getSnapshot g)
  /\ nullifierTree (fst (dryPatch patch g)) = nullifierTree g
  /\ (forall t keys,
        dryRunNullify t (treeCache (fst (dryPatch patch g))) (db (fst (dryPatch patch g))) keys
        = dryRunNullify t (treeCache g) (db g) keys).
Proof.
  pose proof (dryPatch_state patch g) as E.
  split; [exact E|]. rewrite E. repeat split.
Qed.

(** ** The dry run against the real append *)

Lemma applyGrovePatch_success (patch : GrovePatch) (g : Grove) (tx : TransactionDB)
    (ut wt : LightRollupTree) (ids : Z * Z) :
  utxoTree g = Some ut -> withdrawalTree g = Some wt ->
  0 < utxoSubTreeSize (config g) -> 0 < withdrawalSubTreeSize (config g) ->
  snd (applyGrovePatch patch (g, tx)) = Ok ids ->
  utxoTree (fst (fst (applyGrovePatch patch (g, tx))))
  = Some (appended ut (padded (utxoSubTreeSize (config g)) (utxos patch)))
  /\ withdrawalTree (fst (fst (applyGrovePatch patch (g, tx))))
     = Some (appended wt (padded (withdrawalSubTreeSize (config g)) (withdrawals patch)))
  /\ nullifierTree (fst (fst (applyGrovePatch patch (g, tx)))) = nullifierTree g
  /\ config (fst (fst (applyGrovePatch patch (g, tx)))) = config g
  /\ db (fst (fst (applyGrovePatch patch (g, tx)))) = db g.
Proof.
  intros Hu Hw Hus Hws Hok.
  pose proof (applyGrovePatch_cases patch g tx ut wt Hu Hw Hus Hws) as Hcases.
  cbv zeta in Hcases.
  destruct Hcases as [[_ Hr] | [(_ & _ & Hr) | (_ & _ & _ & Hst)]];
    try (rewrite Hr in Hok; discriminate Hok).
  rewrite Hst.
  set (s1 := afterUtxoAppend g tx ut (utxos patch)).
  set (s2 := afterWithdrawalAppend (fst s1) (snd s1) wt (withdrawals patch)).
  assert (Hu2 : utxoTree (fst s2)
                = Some (appended ut (padded (utxoSubTreeSize (config g)) (utxos patch)))).
  { unfold s2, s1, afterWithdrawalAppend, afterUtxoAppend. cbn. now rewrite append_tree. }
  assert (Hw2 : withdrawalTree (fst s2)
                = Some (appended wt (padded (withdrawalSubTreeSize (config g))
                                       (withdrawals patch)))).
  { unfold s2, afterWithdrawalAppend. cbn [fst snd withdrawalTree setTreeCache setWithdrawalTree].
    now rewrite append_tree. }
  assert (Hn2 : nullifierTree (fst s2) = nullifierTree g) by reflexivity.
  assert (Hc2 : config (fst s2) = config g) by reflexivity.
  assert (Hd2 : db (fst s2) = db g) by reflexivity.
  destruct s2 as [g2 tx2]. cbn [fst] in Hu2, Hw2, Hn2, Hc2, Hd2.
  destruct (afterAppends_frame patch g2 tx2 _ _ Hu2 Hw2) as (_ & Hc3 & Hd3 & Hu3 & Hw3 & Hn3).
  rewrite Hu3, Hw3, Hn3, Hc3, Hd3. auto.
Qed.

(** The dry run walks the same leaves as the append, tracking apart. *)
Lemma appendLeaf_untracked (t : LightRollupTree) (d : TreeData) (s1 s2 : list TreeNode)
    (leaf : Leaf) :
  fst (appendLeaf t (d, s1) (untracked leaf)) = fst (appendLeaf t (d, s2) leaf).
Proof.
  unfold appendLeaf. cbn [hash untracked].
  destruct (walkUp (t_hasher t) (index d) 0 (siblings d) (hash leaf)). reflexivity.
Qed.

Lemma fold_appendLeaf_untracked (t : LightRollupTree) (leaves : list Leaf) :
  forall acc1 acc2,
    fst acc1 = fst acc2 ->
    fst (fold_left (appendLeaf t) (map untracked leaves) acc1)
    = fst (fold_left (appendLeaf t) leaves acc2).
Proof.
  induction leaves as [|l rest IH]; intros [d1 s1] [d2 s2] E; simpl in *; [exact E|].
  subst d2. apply IH. apply appendLeaf_untracked.
Qed.

Lemma dryAppend_root (t : LightRollupTree) (leaves : list Leaf) :
  dry_root (dryAppend t (map untracked leaves)) = treeRoot (appended t leaves).
Proof.
  unfold dryAppend, appended, treeRoot, appendLeaves. cbn [dry_root data withData].
  f_equal. now apply fold_appendLeaf_untracked.
Qed.

Lemma padded_exact (size k : Z) (leaves : list Leaf) :
  0 < size -> lengthZ leaves = size * k -> padded size leaves = leaves.
Proof.
  intros Hs Hk. unfold padded. rewrite Hk, fixedSizeLen_multiple by exact Hs.
  rewrite Z.sub_diag. simpl. apply app_nil_r.
Qed.

Lemma fixedSizeLen_0 (size : Z) : fixedSizeLen size 0 = 0.
Proof. unfold fixedSizeLen, ceilDiv. simpl. lia. Qed.

Lemma getSnapshot_run (g : Grove) (ut wt : LightRollupTree) :
  utxoTree g = Some ut -> withdrawalTree g = Some wt ->
  exists snapshot,
    snd (getSnapshot g) = Ok snapshot
    /\ utxoTreeRoot snapshot = treeRoot ut
    /\ utxoTreeIndex snapshot = latestLeafIndex ut
    /\ withdrawalTreeRoot snapshot = treeRoot wt
    /\ withdrawalTreeIndex snapshot = latestLeafIndex wt.
Proof.
  intros Hu Hw. unfold getSnapshot. rewrite (dryPatch_run emptyPatch g ut wt Hu Hw).
  eexists. split; [reflexivity|].
  cbn [utxoTreeRoot utxoTreeIndex withdrawalTreeRoot withdrawalTreeIndex].
  unfold dryAppend, emptyPatch, lengthZ, treeRoot, latestLeafIndex. cbn.
  rewrite !fixedSizeLen_0. repeat split; lia.
Qed.

(** The dry run predicts the index the real append reaches, padding
    included; and the roots, for batches whose length is a multiple of the
    sub-tree size. *)
Lemma dryPatch_predicts_apply (g : Grove) (tx : TransactionDB) (patch : GrovePatch)
    (ut wt : LightRollupTree) (ids : Z * Z) :
  utxoTree g = Some ut -> withdrawalTree g = Some wt ->
  0 < utxoSubTreeSize (config g) -> 0 < withdrawalSubTreeSize (config g) ->
  snd (applyGrovePatch patch (g, tx)) = Ok ids ->
  exists before after,
    snd (dryPatch patch g) = Ok before
    /\ snd (getSnapshot (fst (fst (applyGrovePatch patch (g, tx))))) = Ok after
    /\ utxoTreeIndex before = utxoTreeIndex after
    /\ withdrawalTreeIndex before = withdrawalTreeIndex after
    /\ ((exists k, lengthZ (utxos patch) = utxoSubTreeSize (config g) * k) ->
        utxoTreeRoot before = utxoTreeRoot after)
    /\ ((exists k, lengthZ (withdrawals patch) = withdrawalSubTreeSize (config g) * k) ->
        withdrawalTreeRoot before = withdrawalTreeRoot after).
Proof.
  intros Hu Hw Hus Hws Hok.
  destruct (applyGrovePatch_success patch g tx ut wt ids Hu Hw Hus Hws Hok)
    as (Hu' & Hw' & _).
  destruct (getSnapshot_run _ _ _ Hu' Hw') as (after & Ha & Hru & Hiu & Hrw & Hiw).
  rewrite (dryPatch_run patch g ut wt Hu Hw).
  eexists. exists after. split; [reflexivity|]. split; [exact Ha|].
  cbn [utxoTreeIndex withdrawalTreeIndex utxoTreeRoot withdrawalTreeRoot].
  rewrite Hiu, Hiw, Hru, Hrw.
  unfold latestLeafIndex, appended, appendLeaves. cbn [data withData].
  destruct (fold_appendLeaf_count ut (padded (utxoSubTreeSize (config g)) (utxos patch))
              (data ut, [])) as [Eu _].
  destruct (fold_appendLeaf_count wt
              (padded (withdrawalSubTreeSize (config g)) (withdrawals patch))
              (data wt, [])) as [Ew _].
  rewrite Eu, Ew, !padded_lengthZ by assumption.
  unfold dryAppend. cbn [dry_index dry_root fst].
  unfold lengthZ. rewrite !length_map.
  split; [lia|]. split; [lia|]. split.
  - intros [k Hk]. rewrite (padded_exact _ k _ Hus Hk).
    fold (appendLeaves ut (map untracked (utxos patch))).
    change (root (fst (appendLeaves ut (map untracked (utxos patch)))))
      with (dry_root (dryAppend ut (map untracked (utxos patch)))).
    rewrite dryAppend_root. reflexivity.
  - intros [k Hk]. rewrite (padded_exact _ k _ Hws Hk).
    change (root (fst (appendLeaves wt (map untracked (withdrawals patch)))))
      with (dry_root (dryAppend wt (map untracked (withdrawals patch)))).
    rewrite dryAppend_root. reflexivity.
Qed.

(** ** C2: the index the dry run reports *)

(** C2, as stated, fails: the index [dryPatch] reports is the final index,
    not the index of the first padding leaf.  On the light node of the
    examples (sub-trees of four leaves) a patch of one UTXO is padded to
    four leaves; the first padding leaf is the second leaf of the batch and
    goes to index 1, the index [dryAppend] returns.  [dryPatch] reports 4,
    and 4 is the index of the tree once the patch has been applied. *)
Lemma C2_reported_index_is_final_counterexample :
  padded (utxoSubTreeSize (config Example.lightNode)) (utxos (Example.patchOf [11] [] []))
  = [Example.leafOf 11; zeroLeaf; zeroLeaf; zeroLeaf]
  /\ utxoTree Example.lightNode = Some Example.lightUtxoTree
  /\ latestLeafIndex Example.lightUtxoTree = 0
  /\ latestLeafIndex (appended Example.lightUtxoTree [Example.leafOf 11]) = 1
  /\ dry_index (dryAppend Example.lightUtxoTree
                  (map untracked (utxos (Example.patchOf [11] [] [])))) = 1
  /\ snd (dryPatch (Example.patchOf [11] [] []) Example.lightNode)
     = Ok {| utxoTreeIndex := 4; utxoTreeRoot := 108;
             withdrawalTreeIndex := 0; withdrawalTreeRoot := 9;
             nullifierTreeRoot := None |}
  /\ option_map latestLeafIndex
       (utxoTree (fst (fst (applyGrovePatch (Example.patchOf [11] [] [])
                              (Example.lightNode, [])))))
     = Some 4.
Proof. repeat split. Qed.

(** C2, amended.  On an initialized Grove, [dryPatch(P)] reports as
    [utxoTreeIndex] the index returned by [dryAppend] over [P.utxos], plus
    [paddedLen], minus [rawLen], where [rawLen = |P.utxos|] and
    [paddedLen = utxoSubTreeSize * ceil(rawLen / utxoSubTreeSize)], the least
    multiple of the sub-tree size that is not below [rawLen].  The index
    [dryAppend] returns is [index + rawLen], where the first padding leaf
    would go; the reported value is [index + paddedLen], the final index:
    when the patch is applied, the snapshot taken afterwards reports the
    same index.  Likewise for [withdrawalTreeIndex] with the withdrawal
    sub-tree size. *)
Theorem C2_dryPatch_index (g : Grove) (tx : TransactionDB) (patch : GrovePatch)
    (ut wt : LightRollupTree)
    (Hu : utxoTree g = Some ut) (Hw : withdrawalTree g = Some wt)
    (Hus : 0 < utxoSubTreeSize (config g))
    (Hws : 0 < withdrawalSubTreeSize (config g)) :
  let rawU := lengthZ (utxos patch) in
  let rawW := lengthZ (withdrawals patch) in
  let quotaU := ceilDiv rawU (utxoSubTreeSize (config g)) in
  let quotaW := ceilDiv rawW (withdrawalSubTreeSize (config g)) in
  let paddedU := utxoSubTreeSize (config g) * quotaU in
  let paddedW := withdrawalSubTreeSize (config g) * quotaW in
  let dryU := dry_index (dryAppend ut (map untracked (utxos patch))) in
  let dryW := dry_index (dryAppend wt (map untracked (withdrawals patch))) in
  exists snapshot,
    dryPatch patch g = (g, Ok snapshot)
    /\ utxoTreeIndex snapshot = dryU + paddedU - rawU
    /\ withdrawalTreeIndex snapshot = dryW + paddedW - rawW
    /\ utxoSubTreeSize (config g) * (quotaU - 1) < rawU <= paddedU
    /\ withdrawalSubTreeSize (config g) * (quotaW - 1) < rawW <= paddedW
    /\ dryU = latestLeafIndex ut + rawU
    /\ dryW = latestLeafIndex wt + rawW
    /\ utxoTreeIndex snapshot = latestLeafIndex ut + paddedU
    /\ withdrawalTreeIndex snapshot = latestLeafIndex wt + paddedW
    /\ (forall ids, snd (applyGrovePatch patch (g, tx)) = Ok ids ->
        exists after,
          snd (getSnapshot (fst (fst (applyGrovePatch patch (g, tx))))) = Ok after
          /\ utxoTreeIndex after = utxoTreeIndex snapshot
          /\ withdrawalTreeIndex after = withdrawalTreeIndex snapshot).
Proof.
  intros rawU rawW quotaU quotaW paddedU paddedW dryU dryW.
  eexists. split; [apply (dryPatch_run patch g ut wt Hu Hw)|].
  cbn [utxoTreeIndex withdrawalTreeIndex].
  split; [reflexivity|]. split; [reflexivity|].
  pose proof (ceilDiv_bounds rawU _ Hus). pose proof (ceilDiv_bounds rawW _ Hws).
  assert (Du : dryU = latestLeafIndex ut + rawU).
  { unfold dryU, rawU, dryAppend, latestLeafIndex, lengthZ. cbn [dry_index].
    now rewrite length_map. }
  assert (Dw : dryW = latestLeafIndex wt + rawW).
  { unfold dryW, rawW, dryAppend, latestLeafIndex, lengthZ. cbn [dry_index].
    now rewrite length_map. }
  split; [unfold paddedU, quotaU; lia|]. split; [unfold paddedW, quotaW; lia|].
  split; [exact Du|]. split; [exact Dw|].
  split; [unfold fixedSizeLen; fold rawU quotaU paddedU; lia|].
  split; [unfold fixedSizeLen; fold rawW quotaW paddedW; lia|].
  intros ids Hok.
  destruct (dryPatch_predicts_apply g tx patch ut wt ids Hu Hw Hus Hws Hok)
    as (before & after & Hb & Ha & Iu & Iw & _).
  rewrite (dryPatch_run patch g ut wt Hu Hw) in Hb. injection Hb as <-.
  cbn [utxoTreeIndex withdrawalTreeIndex] in Iu, Iw.
  exists after. split; [exact Ha|]. split; symmetry; assumption.
Qed.

(** C2, on the light node of the examples: three UTXOs pad to four, one
    withdrawal pads to two; the patch is applied and the tree is then at
    the reported indices. *)
Lemma C2_dryPatch_index_witness :
  utxoTree Example.lightNode = Some Example.lightUtxoTree
  /\ withdrawalTree Example.lightNode = Some Example.lightWithdrawalTree
  /\ 0 < utxoSubTreeSize (config Example.lightNode)
  /\ 0 < withdrawalSubTreeSize (config Example.lightNode)
  /\ snd (applyGrovePatch (Example.patchOf [11; 12; 13] [21] []) (Example.lightNode, []))
     = Ok (1, 2)
  /\ exists snapshot after,
       dryPatch (Example.patchOf [11; 12; 13] [21] []) Example.lightNode
       = (Example.lightNode, Ok snapshot)
       /\ utxoTreeIndex snapshot = 3 + 4 - 3
       /\ withdrawalTreeIndex snapshot = 1 + 2 - 1
       /\ snd (getSnapshot
                 (fst (fst (applyGrovePatch (Example.patchOf [11; 12; 13] [21] [])
                              (Example.lightNode, []))))) = Ok after
       /\ utxoTreeIndex after = utxoTreeIndex snapshot
       /\ withdrawalTreeIndex after = withdrawalTreeIndex snapshot.
Proof.
  destruct (C2_dryPatch_index Example.lightNode [] (Example.patchOf [11; 12; 13] [21] [])
              Example.lightUtxoTree Example.lightWithdrawalTree
              eq_refl eq_refl eq_refl eq_refl)
    as (snapshot & Hrun & HiU & HiW & _ & _ & _ & _ & _ & _ & Happly).
  destruct (Happly (1, 2) eq_refl) as (after & Ha & Au & Aw).
  split; [reflexivity|]. split; [reflexivity|].
  split; [reflexivity|]. split; [reflexivity|]. split; [reflexivity|].
  exists snapshot, after.
  split; [exact Hrun|]. split; [exact HiU|]. split; [exact HiW|].
  split; [exact Ha|]. split; [exact Au | exact Aw].
Defined.

(** ** What the reference root says about padding

    By the specification's own reference root, zero leaves after a batch
    change nothing: the root of the padded batch is the root of the raw
    batch.  This is what [dryPatch] relies on when it dry-appends the raw
    leaves only. *)

Lemma firstn_repeat {A : Type} (x : A) (n m : nat) :
  firstn n (repeat x m) = repeat x (Nat.min n m).
Proof.
  revert m. induction n as [|n IH]; intros [|m]; simpl; try reflexivity.
  now rewrite IH.
Qed.

Lemma skipn_repeat {A : Type} (x : A) (n m : nat) :
  skipn n (repeat x m) = repeat x (m - n).
Proof.
  revert m. induction n as [|n IH]; intros [|m]; simpl; try reflexivity.
  apply IH.
Qed.

Lemma referenceRoot_empty (h : Hasher) (level : nat) :
  referenceRoot h level [] = nth level (preHash h) 0.
Proof. destruct level; reflexivity. Qed.

Lemma referenceRoot_zeros (h : Hasher) (d : nat) :
  preHashOk h d ->
  forall level n, (level <= d)%nat ->
    referenceRoot h level (repeat 0 n) = nth level (preHash h) 0.
Proof.
  intros [H0 Hstep]. induction level as [|below IH]; intros n Hle.
  - destruct n; simpl; [reflexivity | now rewrite H0].
  - destruct n as [|n]; [reflexivity|].
    change (referenceRoot h (S below) (repeat 0 (S n)))
      with (parentOf h (referenceRoot h below (firstn (2 ^ below) (repeat 0 (S n))))
              (referenceRoot h below (skipn (2 ^ below) (repeat 0 (S n))))).
    rewrite firstn_repeat, skipn_repeat, !IH by lia.
    symmetry. apply Hstep. lia.
Qed.

Lemma referenceRoot_zero_padding (h : Hasher) (d : nat) :
  preHashOk h d ->
  forall level leaves n, (level <= d)%nat ->
    referenceRoot h level (leaves ++ repeat 0 n) = referenceRoot h level leaves.
Proof.
  intros Hok. induction level as [|below IH]; intros leaves n Hle.
  - destruct leaves as [|x rest]; [|reflexivity].
    simpl app. rewrite (referenceRoot_zeros h d Hok) by exact Hle.
    now rewrite referenceRoot_empty.
  - destruct leaves as [|x rest].
    + simpl app. rewrite (referenceRoot_zeros h d Hok) by exact Hle.
      now rewrite referenceRoot_empty.
    + change (referenceRoot h (S below) ((x :: rest) ++ repeat 0 n))
        with (parentOf h
                (referenceRoot h below (firstn (2 ^ below) ((x :: rest) ++ repeat 0 n)))
                (referenceRoot h below (skipn (2 ^ below) ((x :: rest) ++ repeat 0 n)))).
      change (referenceRoot h (S below) (x :: rest))
        with (parentOf h (referenceRoot h below (firstn (2 ^ below) (x :: rest)))
                (referenceRoot h below (skipn (2 ^ below) (x :: rest)))).
      rewrite firstn_app, skipn_app, firstn_repeat, skipn_repeat.
      rewrite !IH by lia. reflexivity.
Qed.


(** ** The frontier keeps invariant 1

    The frontier satisfies invariant 1 after every append, a zero leaf then
    leaves the root where it is, and the padded batch ends at the root of
    the raw one. *)


Lemma climb_length (h : Hasher) (sibs : list Z) :
  forall p k current, length (fst (climb h p k sibs current)) = length sibs.
Proof.
  induction sibs as [|s rest IH]; intros p k current; simpl; [reflexivity|].
  destruct (Z.odd p).
  - specialize (IH (p / 2) (S k) (parentOf h s current)).
    destruct (climb h (p / 2) (S k) rest (parentOf h s current)); simpl in *. now rewrite IH.
  - specialize (IH (p / 2) (S k) (parentOf h current (nth k (preHash h) 0))).
    destruct (climb h (p / 2) (S k) rest (parentOf h current (nth k (preHash h) 0)));
      simpl in *. now rewrite IH.
Qed.



Lemma appendHash_index (h : Hasher) (d : TreeData) (x : Z) :
  index (appendHash h d x) = index d + 1.
Proof.
  unfold appendHash. destruct (walkUp h (index d) 0 (siblings d) x). reflexivity.
Qed.

Lemma appendHash_depth (h : Hasher) (d : TreeData) (x : Z) :
  length (siblings (appendHash h d x)) = length (siblings d).
Proof.
  unfold appendHash.
  pose proof (walkUp_length h (index d) (siblings d) 0 x) as L.
  destruct (walkUp h (index d) 0 (siblings d) x). exact L.
Qed.

Lemma appendHashes_index (h : Hasher) (leaves : list Z) :
  forall d, index (appendHashes h d leaves) = index d + Z.of_nat (length leaves).
Proof.
  unfold appendHashes.
  induction leaves as [|x rest IH]; intros d; simpl fold_left; simpl length; [lia|].
  rewrite IH, appendHash_index. lia.
Qed.

Lemma appendHashes_depth (h : Hasher) (leaves : list Z) :
  forall d, length (siblings (appendHashes h d leaves)) = length (siblings d).
Proof.
  unfold appendHashes.
  induction leaves as [|x rest IH]; intros d; simpl fold_left; [reflexivity|].
  rewrite IH. apply appendHash_depth.
Qed.

Lemma appendHashes_app (h : Hasher) (d : TreeData) (l1 l2 : list Z) :
  appendHashes h d (l1 ++ l2) = appendHashes h (appendHashes h d l1) l2.
Proof. apply fold_left_app. Qed.








Lemma foldPath_walkUp (h : Hasher) (idx : Z) (sibs : list Z) :
  forall k node,
    emptyToTheRight h idx k sibs = true ->
    foldPath h idx k sibs node = snd (walkUp h idx k sibs node).
Proof.
  induction sibs as [|s rest IH]; intros k node E; simpl in *; [reflexivity|].
  apply andb_true_iff in E. destruct E as [Es Er].
  destruct (Z.testbit idx (Z.of_nat k)).
  - rewrite (IH (S k) _ Er).
    destruct (walkUp h idx (S k) rest (parentOf h s node)). reflexivity.
  - apply Z.eqb_eq in Es. subst s. rewrite (IH (S k) _ Er).
    destruct (walkUp h idx (S k) rest (parentOf h node (nth k (preHash h) 0))).
    reflexivity.
Qed.

(** A frontier accepted by [startingLeafProof] satisfies invariant 1, so a
    bootstrapped tree starts out with it. *)
Lemma startingLeafProof_frontier (h : Hasher) (d : TreeData) :
  startingLeafProof h (root d) (index d) (siblings d) = true -> frontierOk h d.
Proof.
  unfold startingLeafProof, verifyProof, frontierOk. cbn [p_root p_index p_leaf p_siblings].
  intros E. apply andb_true_iff in E. destruct E as [Ev Ee].
  apply Z.eqb_eq in Ev. rewrite Ev. now apply foldPath_walkUp.
Qed.

(** ** C1: the dry run predicts the committed roots *)

Lemma fold_appendLeaf_hashes (t : LightRollupTree) (leaves : list Leaf) :
  forall acc,
    fst (fold_left (appendLeaf t) leaves acc)
    = appendHashes (t_hasher t) (fst acc) (map hash leaves).
Proof.
  induction leaves as [|l rest IH]; intros [d staged]; [reflexivity|].
  cbn [fold_left map]. rewrite IH.
  change (appendHashes (t_hasher t) (fst (d, staged)) (hash l :: map hash rest))
    with (appendHashes (t_hasher t) (appendHash (t_hasher t) d (hash l)) (map hash rest)).
  f_equal. unfold appendLeaf, appendHash.
  destruct (walkUp (t_hasher t) (index d) 0 (siblings d) (hash l)). reflexivity.
Qed.





(** * Further properties of the Grove *)

(** ** [init]: what it leaves behind *)

(** X1.  [init] reads the two metadata rows and never writes.  Without the UTXO
    row it fails at the first [assert] and changes nothing.  With the UTXO
    row but no withdrawal row it fails at the second [assert], after
    [this.utxoTree] has been assigned: the Grove is left with one tree.  With
    both rows it assigns both trees from the rows and creates the nullifier
    tree. *)
Theorem init_outcomes (g : Grove) :
  let rowsU := findOne (tblLightTree (db g)) (whereSpecies UTXO) in
  let rowsW := findOne (tblLightTree (db g)) (whereSpecies WITHDRAWAL) in
  db (fst (init g)) = db g
  /\ (rowsU = Undefined -> init g = (g, Throw AssertionError))
  /\ (forall rowU, rowsU = Row rowU -> rowsW = Undefined ->
        init g
        = (setUtxoTree g (Some (treeOfRow g rowU (utxoHasher (config g)))),
           Throw AssertionError))
  /\ (forall rowU rowW, rowsU = Row rowU -> rowsW = Row rowW ->
        init g
        = (setNullifierTree
             (setWithdrawalTree
                (setUtxoTree g (Some (treeOfRow g rowU (utxoHasher (config g)))))
                (Some (treeOfRow g rowW (withdrawalHasher (config g)))))
             (Some {| n_hasher := nullifierHasher (config g);
                      n_depth := nullifierTreeDepth (config g) |}),
           Ok tt)).
Proof.
  cbv zeta. unfold treeOfRow.
  unfold init, acquire, bind, get, put, ret, assert, derefRow. cbn [fst snd].
  destruct (findOne (tblLightTree (db g)) (whereSpecies UTXO)) as [| |rowU] eqn:EU.
  - cbn. split; [reflexivity|]. split; [reflexivity|].
    split; [intros ? E; discriminate E | intros ? ? E; discriminate E].
  - exfalso. exact (findOne_not_null _ _ EU).
  - cbn -[findOne].
    destruct (findOne (tblLightTree (db g)) (whereSpecies WITHDRAWAL)) as [| |rowW] eqn:EW.
    + cbn. split; [reflexivity|]. split; [discriminate|].
      split; [|intros ? ? _ E; discriminate E].
      intros r E _. injection E as <-. reflexivity.
    + exfalso. exact (findOne_not_null _ _ EW).
    + cbn. split; [reflexivity|]. split; [discriminate|].
      split; [intros ? _ E; discriminate E|].
      intros r r' E E'. injection E as <-. injection E' as <-. reflexivity.
Qed.

(** ** [applyGrovePatch]: the initialisation guards *)



(** ** Bootstrap and restart *)

Lemma findOne_row {A : Type} (rows : list A) (where_ : A -> bool) :
  findOne rows where_ = Undefined \/ exists a, findOne rows where_ = Row a.
Proof. unfold findOne. destruct (filter where_ rows); [now left | right; eauto]. Qed.

Lemma applyBootstrap_db (g : Grove) (pu pw : MerkleProof) :
  startingLeafProof (utxoHasher (config g)) (p_root pu) (p_index pu) (p_siblings pu) = true ->
  startingLeafProof (withdrawalHasher (config g)) (p_root pw) (p_index pw) (p_siblings pw)
  = true ->
  snd (applyBootstrap pu pw g) = Ok tt
  /\ db (fst (applyBootstrap pu pw g))
     = upsertLightTree WITHDRAWAL (bootstrapData pw)
         (upsertLightTree UTXO (bootstrapData pu) (db g))
  /\ config (fst (applyBootstrap pu pw g)) = config g.
Proof.
  intros Hu Hw. rewrite applyBootstrap_unfold, bootstrapLightTree_run, Hu. cbv zeta.
  destruct (findOne_upsert UTXO (bootstrapData pu) (db g)) as (ru & Eu & _).
  cbn [db setDb]. rewrite Eu.
  rewrite bootstrapLightTree_run. cbn [config setDb]. rewrite Hw. cbv zeta.
  destruct (findOne_upsert WITHDRAWAL (bootstrapData pw)
              (upsertLightTree UTXO (bootstrapData pu) (db g))) as (rw & Ew & _).
  cbn [db setDb]. rewrite Ew. cbn. auto.
Qed.

(** X3.  What [applyBootstrap] persisted is what a restart finds: a new Grove
    over the database left by a successful [applyBootstrap] initialises, and
    its two trees hold the root, index and siblings of the two proofs. *)
Theorem bootstrap_survives_restart (g : Grove) (pu pw : MerkleProof) (c : GroveConfig)
    (Hu : startingLeafProof (utxoHasher (config g)) (p_root pu) (p_index pu) (p_siblings pu)
          = true)
    (Hw : startingLeafProof (withdrawalHasher (config g))
            (p_root pw) (p_index pw) (p_siblings pw) = true) :
  let restarted := init (newGrove (db (fst (applyBootstrap pu pw g))) c) in
  snd restarted = Ok tt
  /\ option_map data (utxoTree (fst restarted))
     = Some {| root := p_root pu; index := p_index pu; siblings := p_siblings pu |}
  /\ option_map data (withdrawalTree (fst restarted))
     = Some {| root := p_root pw; index := p_index pw; siblings := p_siblings pw |}
  /\ option_map data (utxoTree (fst restarted))
     = option_map data (utxoTree (fst (applyBootstrap pu pw g)))
  /\ option_map data (withdrawalTree (fst restarted))
     = option_map data (withdrawalTree (fst (applyBootstrap pu pw g))).
Proof.
  cbv zeta.
  destruct (applyBootstrap_db g pu pw Hu Hw) as (_ & Edb & _).
  set (db1 := upsertLightTree UTXO (bootstrapData pu) (db g)) in *.
  destruct (findOne_upsert UTXO (bootstrapData pu) (db g)) as (ru & Eu & _ & Ru & Iu & Su).
  destruct (findOne_upsert WITHDRAWAL (bootstrapData pw) db1) as (rw & Ew & _ & Rw & Iw & Sw).
  fold db1 in Eu.
  assert (Eu' : findOne (tblLightTree (upsertLightTree WITHDRAWAL (bootstrapData pw) db1))
                  (whereSpecies UTXO) = Row ru).
  { unfold findOne in *. rewrite upsert_other by discriminate. exact Eu. }
  assert (Trees :
    option_map data (utxoTree (fst (applyBootstrap pu pw g)))
    = Some {| root := p_root pu; index := p_index pu; siblings := p_siblings pu |}
    /\ option_map data (withdrawalTree (fst (applyBootstrap pu pw g)))
       = Some {| root := p_root pw; index := p_index pw; siblings := p_siblings pw |}).
  { rewrite applyBootstrap_unfold, bootstrapLightTree_run, Hu. cbv zeta.
    cbn [db setDb]. fold db1. rewrite Eu.
    rewrite bootstrapLightTree_run. cbn [config setDb]. rewrite Hw. cbv zeta.
    cbn [db setDb]. rewrite Ew. cbn. rewrite Ru, Iu, Su, Rw, Iw, Sw. auto. }
  destruct Trees as [Tu Tw].
  destruct (init_from_rows (newGrove (db (fst (applyBootstrap pu pw g))) c) ru rw)
    as (Ok_ & Du & Dw & _).
  - cbn [db newGrove]. rewrite Edb. exact Eu'.
  - cbn [db newGrove]. rewrite Edb. exact Ew.
  - rewrite Ok_, Du, Dw, Tu, Tw, Ru, Iu, Su, Rw, Iw, Sw. auto.
Qed.

Lemma bootstrap_survives_restart_witness :
  snd (applyBootstrap Example.genesisProof Example.genesisProof (newGrove emptyDB Example.cfg))
  = Ok tt
  /\ snd (init (newGrove (db Example.lightNode) Scenario.cfgFull)) = Ok tt
  /\ option_map data (utxoTree (fst (init (newGrove (db Example.lightNode) Scenario.cfgFull))))
     = Some {| root := 9; index := 0; siblings := [0; 1] |}.
Proof.
  split; [reflexivity|].
  destruct (bootstrap_survives_restart (newGrove emptyDB Example.cfg)
              Example.genesisProof Example.genesisProof Scenario.cfgFull eq_refl eq_refl)
    as (A & B & _).
  split; [exact A | exact B].
Defined.

(** ** Upsert keeps one row per species *)

Lemma upsert_count (s : TreeSpecies) (d : LightTreeData) (database : DB) :
  length (speciesRows s (upsertLightTree s d database))
  = Nat.max 1 (length (speciesRows s database)).
Proof.
  unfold speciesRows, upsertLightTree, updateLightTree.
  destruct (Z.of_nat (length (filter (whereSpecies s) (tblLightTree database))) >? 0) eqn:E.
  - cbn [tblLightTree withLightTrees]. rewrite filter_update_same, length_map.
    rewrite Z.gtb_ltb in E. apply Z.ltb_lt in E. lia.
  - cbn [tblLightTree createLightTree withLightTrees]. rewrite filter_app, length_app.
    rewrite Z.gtb_ltb in E. apply Z.ltb_ge in E.
    assert (W : whereSpecies s
                  {| lt_id := nextId database; lt_species := s; lt_root := d_root d;
                     lt_index := d_index d; lt_siblings := d_siblings d;
                     lt_start := d_start d; lt_end := d_end d |} = true)
      by (unfold whereSpecies; destruct s; reflexivity).
    cbn [filter]. rewrite W. simpl length. lia.
Qed.

(** X4.  Bootstrapping writes through [upsert]: the rows of a species are updated
    in place when there are any and one row is inserted when there is none.
    After a successful [applyBootstrap] each species has as many rows as
    before, and at least one; bootstrapping again adds no row. *)
Theorem applyBootstrap_row_count (g : Grove) (pu pw : MerkleProof) (s : TreeSpecies)
    (Hok : snd (applyBootstrap pu pw g) = Ok tt) :
  length (speciesRows s (db (fst (applyBootstrap pu pw g))))
  = Nat.max 1 (length (speciesRows s (db g))).
Proof.
  assert (Hu : startingLeafProof (utxoHasher (config g))
                 (p_root pu) (p_index pu) (p_siblings pu) = true).
  { rewrite applyBootstrap_unfold, bootstrapLightTree_run in Hok.
    destruct (startingLeafProof (utxoHasher (config g)) _ _ _); [reflexivity|].
    discriminate Hok. }
  assert (Hw : startingLeafProof (withdrawalHasher (config g))
                 (p_root pw) (p_index pw) (p_siblings pw) = true).
  { rewrite applyBootstrap_unfold, bootstrapLightTree_run, Hu in Hok. cbv zeta in Hok.
    destruct (findOne_upsert UTXO (bootstrapData pu) (db g)) as (ru & Eu & _).
    cbn [db setDb] in Hok. rewrite Eu in Hok.
    rewrite bootstrapLightTree_run in Hok. cbn [config setDb] in Hok.
    destruct (startingLeafProof (withdrawalHasher (config g)) _ _ _); [reflexivity|].
    discriminate Hok. }
  destruct (applyBootstrap_db g pu pw Hu Hw) as (_ & Edb & _). rewrite Edb.
  destruct s.
  - unfold speciesRows at 1. rewrite upsert_other by discriminate.
    apply upsert_count.
  - rewrite upsert_count. unfold speciesRows at 1.
    rewrite upsert_other by discriminate. reflexivity.
Qed.

Lemma applyBootstrap_row_count_witness :
  length (speciesRows UTXO (db Example.lightNode)) = 1%nat
  /\ length (speciesRows UTXO
               (db (fst (applyBootstrap Example.genesisProof Example.genesisProof
                           Example.lightNode)))) = 1%nat.
Proof.
  split; [reflexivity|].
  exact (applyBootstrap_row_count Example.lightNode Example.genesisProof Example.genesisProof
           UTXO eq_refl).
Defined.

(** ** The observed addresses *)

Lemma fold_appendLeaf_hasher (t1 t2 : LightRollupTree) (leaves : list Leaf) :
  t_hasher t1 = t_hasher t2 ->
  forall acc1 acc2,
    fst acc1 = fst acc2 ->
    fst (fold_left (appendLeaf t1) leaves acc1) = fst (fold_left (appendLeaf t2) leaves acc2).
Proof.
  intros Hh. induction leaves as [|l rest IH]; intros [d1 s1] [d2 s2] E; simpl in *;
    [exact E|].
  subst d2. apply IH. unfold appendLeaf. rewrite Hh.
  destruct (walkUp (t_hasher t2) (index d1) 0 (siblings d1) (hash l)). reflexivity.
Qed.

Lemma dryAppend_observing (t : LightRollupTree) (addresses : list string)
    (leaves : list Leaf) :
  dryAppend (updateObserving t addresses) leaves = dryAppend t leaves.
Proof.
  unfold dryAppend, appendLeaves. cbn [data updateObserving].
  f_equal. f_equal. now apply fold_appendLeaf_hasher.
Qed.

(** X5.  [setZkAddressesToObserve] and [setAddressesToObserve] write the
    configuration first and then hand the addresses to their tree.  On a
    Grove whose tree is not there yet the configuration is updated and the
    call then fails with a [TypeError].  In every case the roots and indices
    [dryPatch] reports afterwards are the ones it reported before. *)
Theorem observed_addresses_setters (g : Grove) (addresses : list string) :
  let ru := setZkAddressesToObserve addresses g in
  let rw := setAddressesToObserve addresses g in
  zkAddressesToObserve (config (fst ru)) = addresses
  /\ addressesToObserve (config (fst rw)) = addresses
  /\ (utxoTree g = None -> snd ru = Throw TypeError /\ utxoTree (fst ru) = None)
  /\ (withdrawalTree g = None -> snd rw = Throw TypeError /\ withdrawalTree (fst rw) = None)
  /\ (forall t, utxoTree g = Some t ->
        snd ru = Ok tt /\ utxoTree (fst ru) = Some (updateObserving t addresses)
        /\ withdrawalTree (fst ru) = withdrawalTree g)
  /\ (forall t, withdrawalTree g = Some t ->
        snd rw = Ok tt /\ withdrawalTree (fst rw) = Some (updateObserving t addresses)
        /\ utxoTree (fst rw) = utxoTree g)
  /\ (forall patch, snd (dryPatch patch (fst ru)) = snd (dryPatch patch g))
  /\ (forall patch, snd (dryPatch patch (fst rw)) = snd (dryPatch patch g)).
Proof.
  cbv zeta.
  unfold setZkAddressesToObserve, setAddressesToObserve, bind, get, put, deref.
  cbn [fst snd utxoTree withdrawalTree setConfig].
  destruct (utxoTree g) as [ut|] eqn:Hu; destruct (withdrawalTree g) as [wt|] eqn:Hw;
    cbn [fst snd ret throw config setConfig setUtxoTree setWithdrawalTree utxoTree withdrawalTree
         zkAddressesToObserve addressesToObserve];
    (split; [reflexivity|]); (split; [reflexivity|]);
    (split; [try discriminate; auto|]); (split; [try discriminate; auto|]);
    (split; [try (intros ? E; discriminate E);
             try (intros ? E; injection E as <-; auto)|]);
    (split; [try (intros ? E; discriminate E);
             try (intros ? E; injection E as <-; auto)|]);
    split; intros patch;
    unfold dryPatch, acquire, bind, get, deref;
    cbn [fst snd utxoTree withdrawalTree nullifierTree treeCache db config setConfig
         setUtxoTree setWithdrawalTree utxoSubTreeSize withdrawalSubTreeSize ret throw];
    rewrite ?Hu, ?Hw;
    cbn [fst snd ret throw];
    rewrite ?dryAppend_observing; reflexivity.
Qed.

(** ** [recordBootstrap] *)







(** ** [withdrawalMerkleProof]: what a caller gets *)

(** X7.  The withdrawal row is looked up even when the caller supplies the index:
    without the row the query fails with 'Failed to find the withdrawal'.  A
    proof that is returned verifies against the withdrawal hasher, its leaf
    is the note hash asked for, and its index is the supplied one or, when
    none was supplied, the stored one. *)
Theorem withdrawalMerkleProof_outcomes (g : Grove) (noteHash : Z) (index_ : option Z) :
  let r := snd (withdrawalMerkleProof noteHash index_ g) in
  let row := findOne (tblWithdrawal (db g)) (fun w => w_withdrawalHash w =? noteHash) in
  (row = Undefined -> r = Throw (Error "Failed to find the withdrawal"))
  /\ (forall p, r = Ok p ->
        verifyProof (withdrawalHasher (config g)) p = true
        /\ p_leaf p = noteHash
        /\ exists w,
             row = Row w /\ w_withdrawalHash w = noteHash
             /\ (index_ = Some (p_index p)
                 \/ (index_ = None /\ w_index w = Some (p_index p)))).
Proof.
  cbv zeta. unfold withdrawalMerkleProof, bind, get. cbn [fst snd].
  destruct (findOne (tblWithdrawal (db g)) _) as [| |w] eqn:Erow.
  - split; [reflexivity | discriminate].
  - exfalso. exact (findOne_not_null _ _ Erow).
  - split; [discriminate|]. intros p.
    apply findOne_where in Erow. destruct Erow as [Ew _]. apply Z.eqb_eq in Ew.
    destruct index_ as [i|]; [|destruct (w_index w) as [i|] eqn:Ei];
      try discriminate;
      (unfold deref; destruct (withdrawalTree g) as [t|]; [|discriminate];
       cbn [fst snd ret];
       destruct (verifyProof (withdrawalHasher (config g)) _) eqn:V; [|discriminate];
       intros E; injection E as <-;
       split; [exact V|]; split; [apply rebuildProof_at|];
       exists w; split; [reflexivity|]; split; [exact Ew|];
       destruct (rebuildProof_at (treeCache g) (db g) (withdrawalTreeDepth (config g))
                   (withdrawalHasher (config g)) t i noteHash) as [-> _]; auto).
Qed.

(** ** Rebuilding a proof: where a cached node goes *)

Lemma arraySetNat_replace (a : list Z) (v : Z) :
  forall k, (k < length a)%nat ->
    arraySetNat a k v = firstn k a ++ v :: skipn (S k) a.
Proof.
  induction a as [|x rest IH]; intros k Hk; simpl in Hk; [lia|].
  destruct k as [|k]; [reflexivity|].
  simpl. f_equal. apply IH. lia.
Qed.

Lemma arraySetNat_length (a : list Z) (v : Z) :
  forall k, (k < length a)%nat -> length (arraySetNat a k v) = length a.
Proof.
  induction a as [|x rest IH]; intros k Hk; simpl in Hk; [lia|].
  destruct k as [|k]; [reflexivity|]. simpl. f_equal. apply IH. lia.
Qed.

Lemma placeNode_length (treeDepth : nat) (acc : Z * list Z) (obj : TreeNode) :
  length (snd acc) = treeDepth -> length (snd (placeNode treeDepth acc obj)) = treeDepth.
Proof.
  destruct acc as [r sibs]. cbn [snd]. intros L. unfold placeNode, bitLength.
  pose proof (Z.log2_nonneg (nodeIndex obj)) as Hl.
  destruct (_ =? Z.of_nat treeDepth) eqn:E; [exact L|]. cbn [snd].
  unfold arraySet. destruct (_ <? 0) eqn:N; [exact L|].
  apply Z.ltb_ge in N. apply Z.eqb_neq in E.
  rewrite arraySetNat_length; [exact L | lia].
Qed.

Lemma fold_placeNode_length (treeDepth : nat) (nodes : list TreeNode) :
  forall acc, length (snd acc) = treeDepth ->
    length (snd (fold_left (placeNode treeDepth) nodes acc)) = treeDepth.
Proof.
  induction nodes as [|n rest IH]; intros acc L; simpl; [exact L|].
  apply IH. now apply placeNode_length.
Qed.

(** X8.  A rebuilt proof has exactly [depth] siblings, whatever nodes the cache
    hands back: a node is written inside the array, replaces the root, or
    (when its index lies below the leaves) lands on a negative index and
    leaves the array alone. *)
Theorem rebuildProof_depth (cache : TreeCache) (database : DB) (treeDepth : nat) (h : Hasher)
    (t : LightRollupTree) (leafIndex leaf : Z)
    (Hpre : length (preHash h) = S treeDepth) :
  (forall nodes root_,
     length (snd (fold_left (placeNode treeDepth) nodes (root_, removelast (preHash h))))
     = treeDepth)
  /\ length (p_siblings (rebuildProof cache database treeDepth h t leafIndex leaf))
     = treeDepth.
Proof.
  assert (Hlen : length (removelast (preHash h)) = treeDepth).
  { assert (Hne : preHash h <> []) by (intros E; rewrite E in Hpre; discriminate).
    pose proof (app_removelast_last 0 Hne) as A.
    apply (f_equal (@length Z)) in A. rewrite length_app in A. simpl in A. lia. }
  split.
  - intros nodes root_. now apply fold_placeNode_length.
  - unfold rebuildProof.
    pose proof (fold_placeNode_length treeDepth
                  (getCachedSiblings cache database treeDepth
                     (LightTreeId (lt_id (metadata t))) leafIndex)
                  (treeRoot t, removelast (preHash h))) as L.
    destruct (fold_left _ _ _) as [r s]. cbn [p_siblings snd] in *. now apply L.
Qed.

Lemma rebuildProof_depth_witness :
  length (preHash (utxoHasher (config Example.wallet))) = 3%nat
  /\ length (p_siblings
               (rebuildProof (treeCache Example.wallet) (db Example.wallet) 2
                  (utxoHasher (config Example.wallet)) Example.walletUtxoTree 0 11)) = 2%nat.
Proof.
  split; [reflexivity|].
  exact (proj2 (rebuildProof_depth (treeCache Example.wallet) (db Example.wallet) 2
                  (utxoHasher (config Example.wallet)) Example.walletUtxoTree 0 11 eq_refl)).
Defined.

(** X9.  The level a cached node is placed at is read off the bit length of its
    index.  In a tree of depth [D] the nodes of level [k] carry the indices
    from [2^(D-k)] up to [2^(D-k+1) - 1]: such a node replaces [siblings[k]]
    and nothing else; the node of index 1, the root of the tree, replaces
    the root of the proof. *)
Theorem placeNode_by_level (treeDepth k : nat) (root_ : Z) (siblings_ : list Z)
    (obj : TreeNode)
    (Hk : (k < treeDepth)%nat)
    (Hlen : length siblings_ = treeDepth)
    (Hn : 2 ^ (Z.of_nat treeDepth - Z.of_nat k) <= nodeIndex obj
          < 2 ^ (Z.of_nat treeDepth - Z.of_nat k + 1)) :
  placeNode treeDepth (root_, siblings_) obj
  = (root_, firstn k siblings_ ++ value obj :: skipn (S k) siblings_)
  /\ forall top, nodeIndex top = 1 ->
       placeNode treeDepth (root_, siblings_) top = (value top, siblings_).
Proof.
  split.
  - unfold placeNode, bitLength.
    rewrite (Z.log2_unique (nodeIndex obj) (Z.of_nat treeDepth - Z.of_nat k)) by lia.
    replace (1 + Z.of_nat treeDepth - (Z.of_nat treeDepth - Z.of_nat k + 1))
      with (Z.of_nat k) by lia.
    destruct (Z.of_nat k =? Z.of_nat treeDepth) eqn:E; [apply Z.eqb_eq in E; lia|].
    unfold arraySet. destruct (Z.of_nat k <? 0) eqn:N; [apply Z.ltb_lt in N; lia|].
    rewrite Nat2Z.id, arraySetNat_replace by lia. reflexivity.
  - intros top Htop. unfold placeNode, bitLength. rewrite Htop. simpl Z.log2.
    replace (1 + Z.of_nat treeDepth - (0 + 1)) with (Z.of_nat treeDepth) by lia.
    now rewrite Z.eqb_refl.
Qed.

Lemma placeNode_by_level_witness :
  placeNode 3 (100, [0; 1; 9]) {| treeId := LightTreeId 1; nodeIndex := 5; value := 77 |}
  = (100, [0; 77; 9])
  /\ placeNode 3 (100, [0; 1; 9]) {| treeId := LightTreeId 1; nodeIndex := 1; value := 55 |}
     = (55, [0; 1; 9]).
Proof.
  destruct (placeNode_by_level 3 1 100 [0; 1; 9]
              {| treeId := LightTreeId 1; nodeIndex := 5; value := 77 |}
              ltac:(lia) eq_refl ltac:(simpl; lia)) as [A B].
  split; [exact A|].
  exact (B {| treeId := LightTreeId 1; nodeIndex := 1; value := 55 |} eq_refl).
Defined.

(** ** [getSnapshot] *)

(** X10.  [getSnapshot] is the dry run of the empty patch: it reports the root and
    the index the two trees hold at the moment, with no padding added, and a
    nullifier root exactly on a node that manages a nullifier tree.  The
    Grove is not changed. *)
Theorem getSnapshot_reads (g : Grove) (ut wt : LightRollupTree)
    (Hu : utxoTree g = Some ut) (Hw : withdrawalTree g = Some wt)
    (Hus : 0 < utxoSubTreeSize (config g))
    (Hws : 0 < withdrawalSubTreeSize (config g)) :
  exists snapshot,
    getSnapshot g = (g, Ok snapshot)
    /\ utxoTreeRoot snapshot = treeRoot ut
    /\ utxoTreeIndex snapshot = latestLeafIndex ut
    /\ withdrawalTreeRoot snapshot = treeRoot wt
    /\ withdrawalTreeIndex snapshot = latestLeafIndex wt
    /\ (nullifierTreeRoot snapshot = None <-> nullifierTree g = None).
Proof.
  unfold getSnapshot. rewrite (dryPatch_run emptyPatch g ut wt Hu Hw).
  eexists. split; [reflexivity|].
  cbn [utxoTreeRoot utxoTreeIndex withdrawalTreeRoot withdrawalTreeIndex nullifierTreeRoot].
  unfold dryAppend, emptyPatch, lengthZ, treeRoot, latestLeafIndex. cbn.
  rewrite !fixedSizeLen_0.
  split; [reflexivity|]. split; [lia|]. split; [reflexivity|]. split; [lia|].
  destruct (nullifierTree g); simpl; split; congruence.
Qed.

Lemma getSnapshot_reads_witness :
  utxoTree Example.wallet = Some Example.walletUtxoTree
  /\ withdrawalTree Example.wallet = Some Example.walletWithdrawalTree
  /\ exists snapshot,
       getSnapshot Example.wallet = (Example.wallet, Ok snapshot)
       /\ utxoTreeRoot snapshot = 108 /\ utxoTreeIndex snapshot = 1
       /\ withdrawalTreeRoot snapshot = 198 /\ withdrawalTreeIndex snapshot = 1
       /\ nullifierTreeRoot snapshot = None.
Proof.
  split; [reflexivity|]. split; [reflexivity|].
  destruct (getSnapshot_reads Example.wallet Example.walletUtxoTree
              Example.walletWithdrawalTree eq_refl eq_refl
              ltac:(vm_compute; reflexivity) ltac:(vm_compute; reflexivity))
    as (snapshot & E & A & B & C & D & N).
  exists snapshot. split; [exact E|].
  split; [exact A|]. split; [exact B|]. split; [exact C|]. split; [exact D|].
  apply N. reflexivity.
Defined.

(** ** Patches in sequence *)

Lemma ceilDiv_subadditive (a b size : Z) :
  0 < size -> ceilDiv (a + b) size <= ceilDiv a size + ceilDiv b size.
Proof.
  intros Hs.
  pose proof (ceilDiv_bounds a size Hs). pose proof (ceilDiv_bounds b size Hs).
  pose proof (ceilDiv_bounds (a + b) size Hs). nia.
Qed.

Lemma applyGrovePatch_ids (patch : GrovePatch) (g : Grove) (tx : TransactionDB)
    (ut wt : LightRollupTree) (ids : Z * Z) :
  utxoTree g = Some ut -> withdrawalTree g = Some wt ->
  0 < utxoSubTreeSize (config g) -> 0 < withdrawalSubTreeSize (config g) ->
  snd (applyGrovePatch patch (g, tx)) = Ok ids ->
  ids = (lt_id (metadata ut), lt_id (metadata wt)).
Proof.
  intros Hu Hw Hus Hws Hok. rewrite applyGrovePatch_unfold in Hok.
  rewrite (appendUTXOs_run g tx (utxos patch) ut Hu Hus) in Hok.
  destruct (_ <=? _); [|discriminate Hok].
  set (s1 := afterUtxoAppend g tx ut (utxos patch)) in *.
  assert (Hw1 : withdrawalTree (fst s1) = Some wt) by exact Hw.
  assert (Hu1 : utxoTree (fst s1)
                = Some (fst (fst (append ut (padded (utxoSubTreeSize (config g)) (utxos patch))
                                    (treeCache g) tx)))) by reflexivity.
  assert (Hc1 : config (fst s1) = config g) by reflexivity.
  destruct s1 as [g1 tx1]. cbn [fst snd] in *.
  rewrite (appendWithdrawals_run g1 tx1 (withdrawals patch) wt Hw1) in Hok
    by (rewrite Hc1; exact Hws).
  destruct (_ <=? _); [|discriminate Hok].
  set (s2 := afterWithdrawalAppend g1 tx1 wt (withdrawals patch)) in *.
  assert (Hw2 : withdrawalTree (fst s2)
                = Some (fst (fst (append wt (padded (withdrawalSubTreeSize (config g1))
                                               (withdrawals patch)) (treeCache g1) tx1))))
    by reflexivity.
  assert (Hu2 : utxoTree (fst s2) = utxoTree g1) by reflexivity.
  rewrite Hu1 in Hu2.
  destruct s2 as [g2 tx2]. cbn [fst snd] in *.
  destruct (afterAppends_frame patch g2 tx2 _ _ Hu2 Hw2) as (Hr & _).
  destruct (afterAppends patch (g2, tx2)) as [s3 r3]. cbn [snd] in Hr. subst r3.
  injection Hok as <-.
  destruct (append_count ut (padded (utxoSubTreeSize (config g)) (utxos patch))
              (treeCache g) tx) as (_ & _ & ->).
  destruct (append_count wt (padded (withdrawalSubTreeSize (config g1)) (withdrawals patch))
              (treeCache g1) tx1) as (_ & _ & ->).
  reflexivity.
Qed.

(** X11.  Two patches applied one after the other.  Both calls return the ids of
    the same two metadata rows; each tree has advanced by the padded length
    of the first batch plus the padded length of the second, which is never
    less than the padded length of the two batches taken as one: padding is
    added per patch. *)
Theorem patches_in_sequence (g : Grove) (tx : TransactionDB) (first second : GrovePatch)
    (ut wt : LightRollupTree) (ids1 ids2 : Z * Z)
    (Hu : utxoTree g = Some ut) (Hw : withdrawalTree g = Some wt)
    (Hus : 0 < utxoSubTreeSize (config g))
    (Hws : 0 < withdrawalSubTreeSize (config g))
    (H1 : snd (applyGrovePatch first (g, tx)) = Ok ids1)
    (H2 : snd (applyGrovePatch second (fst (applyGrovePatch first (g, tx)))) = Ok ids2) :
  let after := fst (fst (applyGrovePatch second (fst (applyGrovePatch first (g, tx))))) in
  let paddedU := fun p => fixedSizeLen (utxoSubTreeSize (config g)) (lengthZ (utxos p)) in
  let paddedW := fun p =>
    fixedSizeLen (withdrawalSubTreeSize (config g)) (lengthZ (withdrawals p)) in
  ids1 = (lt_id (metadata ut), lt_id (metadata wt))
  /\ ids2 = ids1
  /\ option_map latestLeafIndex (utxoTree after)
     = Some (latestLeafIndex ut + paddedU first + paddedU second)
  /\ option_map latestLeafIndex (withdrawalTree after)
     = Some (latestLeafIndex wt + paddedW first + paddedW second)
  /\ fixedSizeLen (utxoSubTreeSize (config g))
       (lengthZ (utxos first) + lengthZ (utxos second))
     <= paddedU first + paddedU second
  /\ fixedSizeLen (withdrawalSubTreeSize (config g))
       (lengthZ (withdrawals first) + lengthZ (withdrawals second))
     <= paddedW first + paddedW second.
Proof.
  cbv zeta.
  pose proof (applyGrovePatch_ids first g tx ut wt ids1 Hu Hw Hus Hws H1) as I1.
  destruct (applyGrovePatch_success first g tx ut wt ids1 Hu Hw Hus Hws H1)
    as (Hu1 & Hw1 & _ & Hc1 & _).
  destruct (applyGrovePatch first (g, tx)) as [[g1 tx1] r1]. cbn [fst snd] in *.
  assert (Hus1 : 0 < utxoSubTreeSize (config g1)) by (rewrite Hc1; exact Hus).
  assert (Hws1 : 0 < withdrawalSubTreeSize (config g1)) by (rewrite Hc1; exact Hws).
  pose proof (applyGrovePatch_ids second g1 tx1 _ _ ids2 Hu1 Hw1 Hus1 Hws1 H2) as I2.
  destruct (applyGrovePatch_success second g1 tx1 _ _ ids2 Hu1 Hw1 Hus1 Hws1 H2)
    as (Hu2 & Hw2 & _).
  rewrite Hu2, Hw2, Hc1. cbn [option_map].
  unfold appended, latestLeafIndex. cbn [data withData metadata] in *.
  unfold appendLeaves.
  repeat match goal with
  | |- context [fold_left (appendLeaf ?t) ?ls ?acc] =>
      let H := fresh "C" in
      destruct (fold_appendLeaf_count t ls acc) as [H _]; rewrite H; clear H;
      cbn [fst index data withData]
  end.
  rewrite !padded_lengthZ by assumption.
  split; [exact I1|]. split; [rewrite I1, I2; reflexivity|].
  split; [f_equal; lia|]. split; [f_equal; lia|].
  unfold fixedSizeLen.
  pose proof (ceilDiv_subadditive (lengthZ (utxos first)) (lengthZ (utxos second)) _ Hus).
  pose proof (ceilDiv_subadditive (lengthZ (withdrawals first)) (lengthZ (withdrawals second))
                _ Hws).
  split; nia.
Qed.

Lemma patches_in_sequence_witness :
  snd (applyGrovePatch (Example.patchOf [11] [] []) (Example.lightNode, [])) = Ok (1, 2)
  /\ snd (applyGrovePatch (Example.patchOf [12] [] [])
            (fst (applyGrovePatch (Example.patchOf [11] [] []) (Example.lightNode, []))))
     = Throw (Error "utxo tree flushes.")
  /\ snd (applyGrovePatch (Example.patchOf [] [22] [])
            (fst (applyGrovePatch (Example.patchOf [11] [21] []) (Example.lightNode, []))))
     = Ok (1, 2)
  /\ option_map latestLeafIndex
       (withdrawalTree
          (fst (fst (applyGrovePatch (Example.patchOf [] [22] [])
                       (fst (applyGrovePatch (Example.patchOf [11] [21] [])
                               (Example.lightNode, [])))))))
     = Some (0 + 2 + 2).
Proof.
  split; [reflexivity|]. split; [reflexivity|].
  destruct (patches_in_sequence Example.lightNode [] (Example.patchOf [11] [21] [])
              (Example.patchOf [] [22] [])
              Example.lightUtxoTree Example.lightWithdrawalTree (1, 2) (1, 2)
              eq_refl eq_refl ltac:(vm_compute; reflexivity) ltac:(vm_compute; reflexivity)
              eq_refl eq_refl) as (_ & _ & _ & W & _).
  split; [reflexivity | exact W].
Defined.

(** ** [init] again *)

Lemma init_with_rows (g : Grove) (rowU rowW : LightTree) :
  findOne (tblLightTree (db g)) (whereSpecies UTXO) = Row rowU ->
  findOne (tblLightTree (db g)) (whereSpecies WITHDRAWAL) = Row rowW ->
  init g
  = (setNullifierTree
       (setWithdrawalTree
          (setUtxoTree g (Some (treeOfRow g rowU (utxoHasher (config g)))))
          (Some (treeOfRow g rowW (withdrawalHasher (config g)))))
       (Some {| n_hasher := nullifierHasher (config g);
                n_depth := nullifierTreeDepth (config g) |}),
     Ok tt).
Proof.
  intros HU HW. unfold treeOfRow.
  unfold init, acquire, bind, get, put, ret, assert, derefRow. cbn [fst snd].
  rewrite HU. cbn -[findOne]. rewrite HW. reflexivity.
Qed.

(** X24.  [init] takes the trees from the rows and from nothing else: two
    Groves over the same database with the same configuration come out of a
    successful [init] with the same three trees, whatever trees they held
    before.  So [init] after [init] changes nothing, and [init] after a patch
    that was applied but not written to the database puts the two trees
    back where the rows say. *)
Theorem init_rereads_rows (g g' : Grove)
    (Hdb : db g' = db g) (Hconfig : config g' = config g)
    (Hok : snd (init g) = Ok tt) :
  snd (init g') = Ok tt
  /\ utxoTree (fst (init g')) = utxoTree (fst (init g))
  /\ withdrawalTree (fst (init g')) = withdrawalTree (fst (init g))
  /\ nullifierTree (fst (init g')) = nullifierTree (fst (init g))
  /\ treeCache (fst (init g')) = treeCache g'
  /\ init (fst (init g)) = (fst (init g), Ok tt).
Proof.
  destruct (init_never_bootstraps g) as [D Hiff].
  destruct (proj1 Hiff Hok) as [[rowU EU] [rowW EW]].
  pose proof (init_with_rows g rowU rowW EU EW) as O.
  assert (O' : init g' = _) by (apply (init_with_rows g' rowU rowW); rewrite Hdb; assumption).
  assert (Again : init (fst (init g)) = (fst (init g), Ok tt)).
  { rewrite (init_with_rows (fst (init g)) rowU rowW) by (rewrite D; assumption).
    rewrite O. reflexivity. }
  rewrite Again, O, O'. unfold treeOfRow. rewrite Hconfig. cbn.
  repeat split.
Qed.

Lemma init_rereads_rows_witness :
  snd (init Scenario.fullNode) = Ok tt
  /\ option_map latestLeafIndex
       (utxoTree (fst (fst (applyGrovePatch (Scenario.blockPatch None)
                              (Scenario.fullNode, [])))))
     = Some 2
  /\ option_map latestLeafIndex
       (utxoTree (fst (init (fst (fst (applyGrovePatch (Scenario.blockPatch None)
                                         (Scenario.fullNode, [])))))))
     = Some 0.
Proof.
  split; [reflexivity|]. split; [reflexivity|].
  destruct (init_rereads_rows Scenario.fullNode
              (fst (fst (applyGrovePatch (Scenario.blockPatch None) (Scenario.fullNode, []))))
              eq_refl eq_refl eq_refl) as (_ & E & _).
  exact (eq_trans (f_equal (option_map latestLeafIndex) E) eq_refl).
Defined.

(** ** Bootstrapping twice *)

Lemma setLightTree_again (d : LightTreeData) (r : LightTree) :
  setLightTree d (setLightTree d r) = setLightTree d r.
Proof. reflexivity. Qed.

Lemma species_eqb_eq (a b : TreeSpecies) : species_eqb a b = true <-> a = b.
Proof. destruct a, b; simpl; split; congruence. Qed.

Lemma no_rows_of (s : TreeSpecies) (rows : list LightTree) :
  (Z.of_nat (length (filter (whereSpecies s) rows)) >? 0) = false ->
  filter (whereSpecies s) rows = [].
Proof.
  intros E. rewrite Z.gtb_ltb in E. apply Z.ltb_ge in E.
  destruct (filter (whereSpecies s) rows); [reflexivity | simpl in E; lia].
Qed.

Lemma upsert_holds (s : TreeSpecies) (d : LightTreeData) (database : DB) :
  rowsHold s d (upsertLightTree s d database).
Proof.
  unfold rowsHold, upsertLightTree, updateLightTree.
  destruct (Z.of_nat (length (filter (whereSpecies s) (tblLightTree database))) >? 0) eqn:E;
    cbn [tblLightTree withLightTrees createLightTree].
  - apply Forall_forall. intros r Hin. apply in_map_iff in Hin.
    destruct Hin as (r0 & <- & _). destruct (whereSpecies s r0) eqn:E0; intros H.
    + reflexivity.
    + congruence.
  - apply no_rows_of in E. apply Forall_app. split.
    + apply Forall_forall. intros r Hin Hs. exfalso.
      assert (Hf : In r (filter (whereSpecies s) (tblLightTree database)))
        by (apply filter_In; auto).
      rewrite E in Hf. exact Hf.
    + constructor; [|constructor]. intros _. reflexivity.
Qed.

Lemma upsert_keeps_holding (s s' : TreeSpecies) (d d' : LightTreeData) (database : DB) :
  s <> s' -> rowsHold s d database -> rowsHold s d (upsertLightTree s' d' database).
Proof.
  intros Hne H. unfold rowsHold in *. unfold upsertLightTree, updateLightTree.
  destruct (_ >? 0); cbn [tblLightTree withLightTrees createLightTree].
  - apply Forall_forall. intros r Hin. apply in_map_iff in Hin.
    destruct Hin as (r0 & <- & Hin0). rewrite Forall_forall in H. specialize (H r0 Hin0).
    destruct (whereSpecies s' r0) eqn:E0.
    + intros Hs. exfalso. unfold whereSpecies in *. cbn [lt_species setLightTree] in Hs.
      apply species_eqb_eq in Hs. apply species_eqb_eq in E0. congruence.
    + exact H.
  - apply Forall_app. split; [exact H|]. constructor; [|constructor].
    intros Hs. exfalso. unfold whereSpecies in Hs. cbn [lt_species] in Hs.
    apply species_eqb_eq in Hs. congruence.
Qed.

Lemma map_id_on {A : Type} (f : A -> A) (l : list A) :
  Forall (fun a => f a = a) l -> map f l = l.
Proof. induction 1 as [|a rest Ha _ IH]; simpl; [reflexivity | now rewrite Ha, IH]. Qed.

Lemma upsert_settled (s : TreeSpecies) (d : LightTreeData) (database : DB) :
  rowsHold s d database -> filter (whereSpecies s) (tblLightTree database) <> [] ->
  upsertLightTree s d database = database.
Proof.
  intros H Hne. unfold upsertLightTree, updateLightTree.
  destruct (Z.of_nat (length (filter (whereSpecies s) (tblLightTree database))) >? 0) eqn:E.
  - rewrite map_id_on.
    + destruct database. reflexivity.
    + unfold rowsHold in H. rewrite Forall_forall in *. intros r Hin.
      destruct (whereSpecies s r) eqn:Es; [now apply H | reflexivity].
  - apply no_rows_of in E. contradiction.
Qed.

Lemma findOne_some_rows {A : Type} (rows : list A) (where_ : A -> bool) (a : A) :
  findOne rows where_ = Row a -> filter where_ rows <> [].
Proof. unfold findOne. destruct (filter where_ rows); [discriminate | discriminate]. Qed.

(** X25.  Bootstrapping twice with the same two accepted proofs is
    bootstrapping once: the second [applyBootstrap] succeeds and leaves the
    Grove, its database included, exactly as the first one left it. *)
Theorem applyBootstrap_idempotent (g : Grove) (pu pw : MerkleProof)
    (Hu : startingLeafProof (utxoHasher (config g)) (p_root pu) (p_index pu) (p_siblings pu)
          = true)
    (Hw : startingLeafProof (withdrawalHasher (config g))
            (p_root pw) (p_index pw) (p_siblings pw) = true) :
  applyBootstrap pu pw (fst (applyBootstrap pu pw g))
  = (fst (applyBootstrap pu pw g), Ok tt).
Proof.
  set (db1 := upsertLightTree UTXO (bootstrapData pu) (db g)).
  set (db2 := upsertLightTree WITHDRAWAL (bootstrapData pw) db1).
  destruct (findOne_upsert UTXO (bootstrapData pu) (db g)) as (ru & Eu & _).
  destruct (findOne_upsert WITHDRAWAL (bootstrapData pw) db1) as (rw & Ew & _).
  fold db1 in Eu. fold db2 in Ew.
  assert (Eu2 : findOne (tblLightTree db2) (whereSpecies UTXO) = Row ru).
  { unfold findOne in *. unfold db2. rewrite upsert_other by discriminate. exact Eu. }
  assert (Su : upsertLightTree UTXO (bootstrapData pu) db2 = db2).
  { apply upsert_settled.
    - apply upsert_keeps_holding; [discriminate | apply upsert_holds].
    - exact (findOne_some_rows _ _ _ Eu2). }
  assert (Sw : upsertLightTree WITHDRAWAL (bootstrapData pw) db2 = db2).
  { apply upsert_settled; [apply upsert_holds | exact (findOne_some_rows _ _ _ Ew)]. }
  assert (First : fst (applyBootstrap pu pw g)
                  = setWithdrawalTree
                      (setUtxoTree (setDb g db2)
                         (Some (from ru (utxoHasher (config g)) (forceUpdate (config g))
                                  (fullSync (config g)))))
                      (Some (from rw (withdrawalHasher (config g)) (forceUpdate (config g))
                               (fullSync (config g))))).
  { rewrite applyBootstrap_unfold, bootstrapLightTree_run, Hu. cbv zeta.
    cbn [db setDb]. fold db1. rewrite Eu.
    rewrite bootstrapLightTree_run. cbn [config setDb]. rewrite Hw. cbv zeta.
    cbn [db setDb]. fold db2. rewrite Ew. reflexivity. }
  rewrite First.
  rewrite applyBootstrap_unfold, bootstrapLightTree_run.
  cbn [config db setWithdrawalTree setUtxoTree setDb]. rewrite Hu. cbv zeta.
  cbn [db setDb]. rewrite Su, Eu2.
  rewrite bootstrapLightTree_run.
  cbn [config db setWithdrawalTree setUtxoTree setDb]. rewrite Hw. cbv zeta.
  cbn [db setDb]. rewrite Sw, Ew. reflexivity.
Qed.

Lemma applyBootstrap_idempotent_witness :
  applyBootstrap Example.genesisProof Example.genesisProof Example.lightNode
  = (Example.lightNode, Ok tt).
Proof.
  exact (applyBootstrap_idempotent (newGrove emptyDB Example.cfg)
           Example.genesisProof Example.genesisProof eq_refl eq_refl).
Defined.

(** ** The committed root is the reference root *)

Lemma walkUp_snoc (h : Hasher) (idx : Z) (top : Z) (low : list Z) :
  forall k current,
    walkUp h idx k (low ++ [top]) current
    = (if Z.testbit idx (Z.of_nat (k + length low))
       then (fst (walkUp h idx k low current) ++ [top],
             parentOf h top (snd (walkUp h idx k low current)))
       else (fst (walkUp h idx k low current) ++ [snd (walkUp h idx k low current)],
             parentOf h (snd (walkUp h idx k low current))
               (nth (k + length low) (preHash h) 0))).
Proof.
  induction low as [|s rest IH]; intros k current.
  - cbn [app length walkUp fst snd]. rewrite Nat.add_0_r.
    destruct (Z.testbit idx (Z.of_nat k)); reflexivity.
  - cbn [app length walkUp].
    replace (k + S (length rest))%nat with (S k + length rest)%nat by lia.
    destruct (Z.testbit idx (Z.of_nat k)).
    + rewrite IH.
      destruct (walkUp h idx (S k) rest (parentOf h s current)) as [r1 t1].
      cbn [fst snd]. destruct (Z.testbit idx (Z.of_nat (S k + length rest))); reflexivity.
    + rewrite IH.
      destruct (walkUp h idx (S k) rest (parentOf h current (nth k (preHash h) 0)))
        as [r1 t1].
      cbn [fst snd]. destruct (Z.testbit idx (Z.of_nat (S k + length rest))); reflexivity.
Qed.

Lemma appendHash_left (h : Hasher) (d : TreeData) (r top x : Z) :
  Z.testbit (index d) (Z.of_nat (length (siblings d))) = false ->
  appendHash h {| root := r; index := index d; siblings := siblings d ++ [top] |} x
  = raiseLeft h (appendHash h d x).
Proof.
  intros E. unfold raiseLeft. rewrite appendHash_depth.
  unfold appendHash. cbn [root index siblings].
  rewrite walkUp_snoc. cbn [Nat.add]. rewrite E.
  destruct (walkUp h (index d) 0 (siblings d) x) as [low' node]. reflexivity.
Qed.

Lemma appendHash_right (h : Hasher) (d : TreeData) (r top x : Z) :
  Z.testbit (index d) (Z.of_nat (length (siblings d))) = true ->
  appendHash h {| root := r; index := index d; siblings := siblings d ++ [top] |} x
  = raiseRight h top (appendHash h d x).
Proof.
  intros E. unfold raiseRight, appendHash. cbn [root index siblings].
  rewrite walkUp_snoc. cbn [Nat.add]. rewrite E.
  destruct (walkUp h (index d) 0 (siblings d) x) as [low' node]. reflexivity.
Qed.

Lemma appendHashes_left (h : Hasher) (leaves : list Z) :
  forall d,
    (forall j, 0 <= j < Z.of_nat (length leaves) ->
       Z.testbit (index d + j) (Z.of_nat (length (siblings d))) = false) ->
    appendHashes h (raiseLeft h d) leaves = raiseLeft h (appendHashes h d leaves).
Proof.
  induction leaves as [|x rest IH]; intros d Hbits; [reflexivity|].
  change (appendHashes h (raiseLeft h d) (x :: rest))
    with (appendHashes h (appendHash h (raiseLeft h d) x) rest).
  change (appendHashes h d (x :: rest)) with (appendHashes h (appendHash h d x) rest).
  unfold raiseLeft at 1. rewrite appendHash_left.
  - apply IH. intros j Hj. rewrite appendHash_index, appendHash_depth.
    replace (index d + 1 + j) with (index d + (1 + j)) by lia.
    apply Hbits. cbn [length]. lia.
  - specialize (Hbits 0). rewrite Z.add_0_r in Hbits. apply Hbits. cbn [length]. lia.
Qed.

Lemma appendHashes_right (h : Hasher) (top : Z) (leaves : list Z) :
  forall d,
    (forall j, 0 <= j < Z.of_nat (length leaves) ->
       Z.testbit (index d + j) (Z.of_nat (length (siblings d))) = true) ->
    appendHashes h (raiseRight h top d) leaves = raiseRight h top (appendHashes h d leaves).
Proof.
  induction leaves as [|x rest IH]; intros d Hbits; [reflexivity|].
  change (appendHashes h (raiseRight h top d) (x :: rest))
    with (appendHashes h (appendHash h (raiseRight h top d) x) rest).
  change (appendHashes h d (x :: rest)) with (appendHashes h (appendHash h d x) rest).
  unfold raiseRight at 1. rewrite appendHash_right.
  - apply IH. intros j Hj. rewrite appendHash_index, appendHash_depth.
    replace (index d + 1 + j) with (index d + (1 + j)) by lia.
    apply Hbits. cbn [length]. lia.
  - specialize (Hbits 0). rewrite Z.add_0_r in Hbits. apply Hbits. cbn [length]. lia.
Qed.

(** Bit [k] of an index that is [j] past a multiple of [2^(k+1)]. *)
Lemma testbit_low_half (k m j : Z) :
  0 <= k -> 0 <= j < 2 ^ k -> Z.testbit (2 ^ (k + 1) * m + j) k = false.
Proof.
  intros Hk Hj. apply Z.testbit_false; [exact Hk|].
  rewrite Z.pow_add_r, Z.pow_1_r by lia.
  replace (2 ^ k * 2 * m + j) with (j + (2 * m) * 2 ^ k) by lia.
  rewrite Z.div_add by lia. rewrite Z.div_small by lia.
  rewrite Z.add_0_l, Z.mul_comm. apply Z.mod_mul. lia.
Qed.

Lemma testbit_high_half (k m j : Z) :
  0 <= k -> 0 <= j < 2 ^ k -> Z.testbit (2 ^ k * (2 * m + 1) + j) k = true.
Proof.
  intros Hk Hj. apply Z.testbit_true; [exact Hk|].
  replace (2 ^ k * (2 * m + 1) + j) with (j + (2 * m + 1) * 2 ^ k) by lia.
  rewrite Z.div_add by lia. rewrite Z.div_small by lia.
  rewrite Z.add_0_l. replace (2 * m + 1) with (1 + m * 2) by lia.
  rewrite Z.mod_add by lia. reflexivity.
Qed.

Lemma snoc_of_length {A : Type} (l : list A) (n : nat) :
  length l = S n -> exists front x, l = front ++ [x] /\ length front = n.
Proof.
  intros L. destruct (@exists_last A l) as (front & x & E).
  - intros E. subst l. discriminate L.
  - exists front, x. split; [exact E|]. subst l. rewrite length_app in L. simpl in L. lia.
Qed.

Lemma referenceRoot_step (h : Hasher) (below : nat) (leaves : list Z) :
  leaves <> [] ->
  referenceRoot h (S below) leaves
  = parentOf h (referenceRoot h below (firstn (2 ^ below) leaves))
      (referenceRoot h below (skipn (2 ^ below) leaves)).
Proof. destruct leaves; [congruence | reflexivity]. Qed.

(** From an index that is a multiple of [2^D], the leaves appended to a
    frontier of [D] levels climb to their reference root, whatever the
    frontier held before. *)
Lemma aligned_batch_root (h : Hasher) :
  forall D d leaves,
    length (siblings d) = D ->
    (exists m, index d = 2 ^ Z.of_nat D * m) ->
    leaves <> [] -> Z.of_nat (length leaves) <= 2 ^ Z.of_nat D ->
    root (appendHashes h d leaves) = referenceRoot h D leaves.
Proof.
  induction D as [|below IH]; intros d leaves HD [m Hm] Hne Hlen.
  - destruct leaves as [|x [|y rest]]; [congruence | | simpl in Hlen; lia].
    destruct d as [r b sibs]. cbn [siblings] in HD.
    apply length_zero_iff_nil in HD. subst sibs. reflexivity.
  - destruct d as [r b sibs]. cbn [siblings index] in *.
    destruct (snoc_of_length sibs below HD) as (low & top & -> & Hlow).
    set (n := (2 ^ below)%nat).
    assert (Hn : Z.of_nat n = 2 ^ Z.of_nat below).
    { unfold n. rewrite Nat2Z.inj_pow. reflexivity. }
    assert (Hpos : 0 < 2 ^ Z.of_nat below) by (apply Z.pow_pos_nonneg; lia).
    assert (Hpow : 2 ^ Z.of_nat (S below) = 2 * 2 ^ Z.of_nat below).
    { rewrite Nat2Z.inj_succ, Z.pow_succ_r by lia. reflexivity. }
    rewrite (referenceRoot_step h below leaves Hne). fold n.
    rewrite <- (firstn_skipn n leaves) at 1.
    set (l1 := firstn n leaves). set (l2 := skipn n leaves).
    assert (Hl1 : l1 <> []).
    { unfold l1. destruct leaves as [|x0 more]; [congruence|].
      destruct n as [|n'] eqn:En; [lia|]. discriminate. }
    assert (Hlen1 : Z.of_nat (length l1) <= 2 ^ Z.of_nat below).
    { unfold l1. rewrite length_firstn. lia. }
    set (d0 := {| root := r; index := b; siblings := low |}).
    assert (Hb0 : b = 2 ^ Z.of_nat below * (2 * m)).
    { rewrite Hm, Hpow. lia. }
    assert (A : appendHashes h {| root := r; index := b; siblings := low ++ [top] |} l1
                = raiseLeft h (appendHashes h d0 l1)).
    { destruct l1 as [|x rest1] eqn:E1; [congruence|].
      change (appendHashes h {| root := r; index := b; siblings := low ++ [top] |}
                (x :: rest1))
        with (appendHashes h
                (appendHash h {| root := r; index := index d0; siblings := siblings d0 ++ [top] |}
                   x) rest1).
      change (appendHashes h d0 (x :: rest1))
        with (appendHashes h (appendHash h d0 x) rest1).
      rewrite appendHash_left.
      - apply appendHashes_left. intros j Hj.
        rewrite appendHash_index, appendHash_depth. cbn [index siblings d0].
        rewrite Hlow. replace (b + 1 + j) with (2 ^ (Z.of_nat below + 1) * m + (1 + j)).
        + apply testbit_low_half; [lia|]. cbn [length] in Hlen1. lia.
        + rewrite Hm, Hpow, Z.pow_add_r, Z.pow_1_r by lia. lia.
      - cbn [index siblings d0]. rewrite Hlow.
        replace b with (2 ^ (Z.of_nat below + 1) * m + 0).
        + apply testbit_low_half; lia.
        + rewrite Hm, Hpow, Z.pow_add_r, Z.pow_1_r by lia. lia. }
    rewrite appendHashes_app, A.
    set (d1 := appendHashes h d0 l1).
    assert (Hd1 : length (siblings d1) = below).
    { unfold d1. rewrite appendHashes_depth. exact Hlow. }
    assert (R1 : root d1 = referenceRoot h below l1).
    { apply IH; [exact Hlow | exists (2 * m); exact Hb0 | exact Hl1 | exact Hlen1]. }
    destruct l2 as [|y rest2] eqn:E2.
    + cbn [appendHashes fold_left]. unfold raiseLeft. cbn [root].
      rewrite Hd1, R1, referenceRoot_empty. reflexivity.
    + assert (Hfull : length l1 = n).
      { unfold l1. rewrite length_firstn. apply Nat.min_l.
        assert (Hs : length (skipn n leaves) <> O).
        { fold l2. rewrite E2. discriminate. }
        rewrite length_skipn in Hs. lia. }
      assert (Hlen2 : Z.of_nat (length (y :: rest2)) <= 2 ^ Z.of_nat below).
      { rewrite <- E2. unfold l2. rewrite length_skipn. lia. }
      assert (Hi1 : index d1 = 2 ^ Z.of_nat below * (2 * m + 1)).
      { unfold d1. rewrite appendHashes_index, Hfull, Hn. cbn [index d0]. lia. }
      change (appendHashes h (raiseLeft h d1) (y :: rest2))
        with (appendHashes h
                (appendHash h {| root := root (raiseLeft h d1); index := index d1;
                                 siblings := siblings d1 ++ [root d1] |} y) rest2).
      rewrite appendHash_right.
      * rewrite appendHashes_right.
        -- unfold raiseRight. cbn [root]. rewrite R1. f_equal.
           change (appendHashes h (appendHash h d1 y) rest2)
             with (appendHashes h d1 (y :: rest2)).
           apply IH; [exact Hd1 | exists (2 * m + 1); exact Hi1 | discriminate | exact Hlen2].
        -- intros j Hj. rewrite appendHash_index, appendHash_depth, Hd1, Hi1.
           replace (2 ^ Z.of_nat below * (2 * m + 1) + 1 + j)
             with (2 ^ Z.of_nat below * (2 * m + 1) + (1 + j)) by lia.
           apply testbit_high_half; [lia|]. cbn [length] in Hlen2. lia.
      * rewrite Hd1, Hi1.
        replace (2 ^ Z.of_nat below * (2 * m + 1))
          with (2 ^ Z.of_nat below * (2 * m + 1) + 0) by lia.
        apply testbit_high_half; lia.
Qed.

Lemma appended_data (t : LightRollupTree) (leaves : list Leaf) :
  data (appended t leaves) = appendHashes (t_hasher t) (data t) (map hash leaves).
Proof.
  unfold appended, appendLeaves. cbn [data withData]. now rewrite fold_appendLeaf_hashes.
Qed.

Lemma builtFrom_index (t : LightRollupTree) (history : list Z) :
  builtFrom t history -> latestLeafIndex t = Z.of_nat (length history).
Proof.
  intros (d0 & H0 & _ & E). unfold latestLeafIndex. rewrite E, appendHashes_index. lia.
Qed.

Lemma builtFrom_root (t : LightRollupTree) (history : list Z) :
  builtFrom t history -> Z.of_nat (length history) <= maxSize t ->
  treeRoot t = referenceRoot (t_hasher t) (depth t) history.
Proof.
  intros (d0 & H0 & Hr & E) Hlen. unfold treeRoot, maxSize, depth in *. rewrite E in *.
  rewrite appendHashes_depth in *.
  destruct history as [|x rest].
  - cbn [appendHashes fold_left]. rewrite Hr, referenceRoot_empty. reflexivity.
  - apply aligned_batch_root;
      [reflexivity | exists 0; now rewrite Z.mul_0_r | discriminate | exact Hlen].
Qed.

Lemma builtFrom_appended (t : LightRollupTree) (history : list Z) (leaves : list Leaf) :
  builtFrom t history -> builtFrom (appended t leaves) (history ++ map hash leaves).
Proof.
  intros (d0 & H0 & Hr & E). exists d0. split; [exact H0|]. split; [exact Hr|].
  rewrite appended_data, E, appendHashes_app. reflexivity.
Qed.

(** A tree bootstrapped from a starting-leaf proof at index 0 holds no
    leaf. *)
Lemma bootstrapped_builtFrom (h : Hasher) (row : LightTree) (force full : option bool) :
  preHashOk h (length (lt_siblings row)) ->
  lt_index row = 0 ->
  startingLeafProof h (lt_root row) (lt_index row) (lt_siblings row) = true ->
  builtFrom (from row h force full) [].
Proof.
  intros Hok H0 Hp. exists (data (from row h force full)).
  split; [exact H0|]. split; [|reflexivity].
  cbn [from data root siblings t_hasher].
  pose proof (startingLeafProof_frontier h
                {| root := lt_root row; index := lt_index row; siblings := lt_siblings row |} Hp)
    as F.
  unfold frontierOk in F. cbn [root index siblings] in F. rewrite F, H0.
  destruct Hok as [_ Hstep]. clear F Hp H0.
  assert (G : forall sibs k,
             (forall j, (k <= j < k + length sibs)%nat ->
                nth (S j) (preHash h) 0
                = parentOf h (nth j (preHash h) 0) (nth j (preHash h) 0)) ->
             snd (walkUp h 0 k sibs (nth k (preHash h) 0))
             = nth (k + length sibs) (preHash h) 0).
  { induction sibs as [|s rest IH]; intros k Hk.
    - cbn. now rewrite Nat.add_0_r.
    - cbn [walkUp length]. rewrite Z.testbit_0_l.
      rewrite <- (Hk k) by (cbn [length]; lia).
      specialize (IH (S k)).
      destruct (walkUp h 0 (S k) rest (nth (S k) (preHash h) 0)) as [r1 t1].
      cbn [snd] in *. rewrite IH.
      + f_equal. lia.
      + intros j Hj. apply Hk. cbn [length]. lia. }
  apply (G (lt_siblings row) 0%nat). intros j Hj. apply Hstep. lia.
Qed.

(** X27.  Testable property 1, patch by patch.  A tree that holds the
    leaves [history] (it was built from an empty tree by appending them)
    holds, after a patch has been applied, those leaves followed by the
    padded batch, and the root the snapshot then reports is the reference
    root of all of them: the hash of the leaves in order against the
    pre-hashes for the empty slots.  For the UTXO tree and for the
    withdrawal tree alike. *)
Theorem committed_root_is_reference_root (g : Grove) (tx : TransactionDB) (patch : GrovePatch)
    (ut wt : LightRollupTree) (utxoHistory withdrawalHistory : list Z) (ids : Z * Z)
    (Hu : utxoTree g = Some ut) (Hw : withdrawalTree g = Some wt)
    (Hus : 0 < utxoSubTreeSize (config g))
    (Hws : 0 < withdrawalSubTreeSize (config g))
    (Hbu : builtFrom ut utxoHistory) (Hbw : builtFrom wt withdrawalHistory)
    (Hok : snd (applyGrovePatch patch (g, tx)) = Ok ids) :
  let after := fst (fst (applyGrovePatch patch (g, tx))) in
  let utxoLeaves :=
    (utxoHistory ++ map hash (padded (utxoSubTreeSize (config g)) (utxos patch)))%list in
  let withdrawalLeaves :=
    (withdrawalHistory
     ++ map hash (padded (withdrawalSubTreeSize (config g)) (withdrawals patch)))%list in
  exists ut' wt' snapshot,
    utxoTree after = Some ut' /\ withdrawalTree after = Some wt'
    /\ builtFrom ut' utxoLeaves /\ builtFrom wt' withdrawalLeaves
    /\ snd (getSnapshot after) = Ok snapshot
    /\ utxoTreeRoot snapshot = referenceRoot (t_hasher ut) (depth ut) utxoLeaves
    /\ withdrawalTreeRoot snapshot = referenceRoot (t_hasher wt) (depth wt) withdrawalLeaves
    /\ utxoTreeIndex snapshot = Z.of_nat (length utxoLeaves)
    /\ withdrawalTreeIndex snapshot = Z.of_nat (length withdrawalLeaves).
Proof.
  intros after utxoLeaves withdrawalLeaves.
  destruct (applyGrovePatch_success patch g tx ut wt ids Hu Hw Hus Hws Hok)
    as (Hu' & Hw' & _).
  fold after in Hu', Hw'.
  destruct (getSnapshot_run _ _ _ Hu' Hw') as (snapshot & Hs & Hru & Hiu & Hrw & Hiw).
  pose proof (builtFrom_appended ut utxoHistory
                (padded (utxoSubTreeSize (config g)) (utxos patch)) Hbu) as Bu.
  pose proof (builtFrom_appended wt withdrawalHistory
                (padded (withdrawalSubTreeSize (config g)) (withdrawals patch)) Hbw) as Bw.
  fold utxoLeaves in Bu. fold withdrawalLeaves in Bw.
  pose proof (applyGrovePatch_cases patch g tx ut wt Hu Hw Hus Hws) as Hcases.
  cbv zeta in Hcases.
  destruct Hcases as [[_ Hr] | [(_ & _ & Hr) | (Hfu & Hfw & _)]];
    try (rewrite Hr in Hok; discriminate Hok).
  eexists. eexists. exists snapshot.
  split; [exact Hu'|]. split; [exact Hw'|]. split; [exact Bu|]. split; [exact Bw|].
  split; [exact Hs|].
  assert (Lu : Z.of_nat (length utxoLeaves)
               <= maxSize (appended ut (padded (utxoSubTreeSize (config g)) (utxos patch)))).
  { unfold utxoLeaves. rewrite length_app, length_map, Nat2Z.inj_add.
    rewrite <- (builtFrom_index ut utxoHistory Hbu).
    fold (lengthZ (padded (utxoSubTreeSize (config g)) (utxos patch))).
    rewrite padded_lengthZ by exact Hus.
    unfold maxSize, depth. rewrite appended_data, appendHashes_depth. exact Hfu. }
  assert (Lw : Z.of_nat (length withdrawalLeaves)
               <= maxSize (appended wt (padded (withdrawalSubTreeSize (config g))
                                          (withdrawals patch)))).
  { unfold withdrawalLeaves. rewrite length_app, length_map, Nat2Z.inj_add.
    rewrite <- (builtFrom_index wt withdrawalHistory Hbw).
    fold (lengthZ (padded (withdrawalSubTreeSize (config g)) (withdrawals patch))).
    rewrite padded_lengthZ by exact Hws.
    unfold maxSize, depth. rewrite appended_data, appendHashes_depth. exact Hfw. }
  rewrite Hru, Hrw, Hiu, Hiw.
  rewrite (builtFrom_root _ _ Bu Lu), (builtFrom_root _ _ Bw Lw).
  rewrite (builtFrom_index _ _ Bu), (builtFrom_index _ _ Bw).
  unfold depth. rewrite !appended_data, !appendHashes_depth.
  repeat split.
Qed.

Lemma committed_root_is_reference_root_witness :
  builtFrom Example.lightUtxoTree [] /\ builtFrom Example.lightWithdrawalTree []
  /\ referenceRoot (Example.hasherOfDepth 2) 2 [11; 12; 13; 0] = 483
  /\ exists snapshot,
       snd (getSnapshot
              (fst (fst (applyGrovePatch (Example.patchOf [11; 12; 13] [21] [])
                           (Example.lightNode, []))))) = Ok snapshot
       /\ utxoTreeRoot snapshot = referenceRoot (Example.hasherOfDepth 2) 2 [11; 12; 13; 0]
       /\ withdrawalTreeRoot snapshot = referenceRoot (Example.hasherOfDepth 2) 2 [21; 0].
Proof.
  assert (Bu : builtFrom Example.lightUtxoTree []).
  { exists (data Example.lightUtxoTree). repeat split. }
  assert (Bw : builtFrom Example.lightWithdrawalTree []).
  { exists (data Example.lightWithdrawalTree). repeat split. }
  split; [exact Bu|]. split; [exact Bw|]. split; [reflexivity|].
  destruct (committed_root_is_reference_root Example.lightNode []
              (Example.patchOf [11; 12; 13] [21] [])
              Example.lightUtxoTree Example.lightWithdrawalTree [] [] (1, 2)
              eq_refl eq_refl eq_refl eq_refl Bu Bw eq_refl)
    as (ut' & wt' & snapshot & _ & _ & _ & _ & Hs & Ru & Rw & _).
  exists snapshot. split; [exact Hs|]. split; [exact Ru | exact Rw].
Defined.

(** * Properties of the connector's statements *)

Import SQLiteConnector.

(** ** [escapeQuotes] *)

Lemma readQuotedBody_escapeQuotes (s after : string) :
  quoteFree after = true ->
  readQuotedBody (escapeQuotes s ++ dq ++ after)%string = Some (s, after).
Proof.
  intros Hafter. induction s as [|c rest IH]; simpl.
  - destruct after as [|c' after']; [reflexivity|].
    simpl in Hafter. destruct (Ascii.eqb c' "034"%char); [discriminate | reflexivity].
  - simpl in IH.
    destruct (Ascii.eqb c "034"%char) eqn:E; simpl; rewrite ?E; simpl; rewrite ?E, IH;
      reflexivity.
Qed.

(** X12.  A text between two quotes, its own quotes doubled by [escapeQuotes],
    reads back as exactly that text: the literal ends where the connector
    closes it, whatever the text holds.  Doubling adds one character per
    quote. *)
Theorem escapeQuotes_reads_back (s after : string)
    (Hafter : quoteFree after = true) :
  readQuoted (dq ++ escapeQuotes s ++ dq ++ after)%string = Some (s, after)
  /\ String.length (escapeQuotes s) = (String.length s + quotes s)%nat.
Proof.
  split.
  - simpl. now apply readQuotedBody_escapeQuotes.
  - induction s as [|c rest IH]; simpl; [reflexivity|].
    destruct (Ascii.eqb c "034"%char); simpl; rewrite IH; lia.
Qed.

Lemma escapeQuotes_reads_back_witness :
  quoteFree " AND x" = true
  /\ readQuoted (dq ++ escapeQuotes ("a" ++ dq ++ "; DROP TABLE t; --") ++ dq ++ " AND x")%string
     = Some (("a" ++ dq ++ "; DROP TABLE t; --")%string, " AND x"%string).
Proof.
  split; [reflexivity|].
  exact (proj1 (escapeQuotes_reads_back ("a" ++ dq ++ "; DROP TABLE t; --")%string
                  " AND x"%string eq_refl)).
Defined.

Lemma string_length_append (a b : string) :
  String.length (a ++ b)%string = (String.length a + String.length b)%nat.
Proof. induction a as [|c rest IH]; simpl; [reflexivity | now rewrite IH]. Qed.

(** ** The [WHERE] clause *)

Lemma pureM_ret {S A : Type} (a : A) : pureM (@ret S A a).
Proof. exists (Ok a). reflexivity. Qed.

Lemma pureM_throw {S A : Type} (e : exn) : pureM (@throw S A e).
Proof. exists (Throw e). reflexivity. Qed.

Lemma pureM_bind {S A B : Type} (c : M S A) (k : A -> M S B) :
  pureM c -> (forall a, pureM (k a)) -> pureM (bind c k).
Proof.
  intros [r Hc] Hk. destruct r as [a|e].
  - destruct (Hk a) as [r' Hk']. exists r'. intros s. unfold bind. now rewrite Hc, Hk'.
  - exists (Throw e). intros s. unfold bind. now rewrite Hc.
Qed.

Lemma pureM_mapM {S A B : Type} (f : A -> M S B) (l : list A) :
  (forall a, pureM (f a)) -> pureM (mapM f l).
Proof.
  intros Hf. induction l as [|a rest IH]; simpl.
  - apply pureM_ret.
  - apply pureM_bind; [apply Hf|]. intros b.
    apply pureM_bind; [exact IH|]. intros bs. apply pureM_ret.
Qed.

Lemma pureM_quoted {S : Type} (v : JsValue) : pureM (@quoted S v).
Proof.
  unfold quoted, escaped. apply pureM_bind.
  - destruct v; (apply pureM_ret || apply pureM_throw).
  - intros a. apply pureM_ret.
Qed.

Lemma mapM_length {S A B : Type} (f : A -> M S B) (l : list A) :
  forall s bs, snd (mapM f l s) = Ok bs -> length bs = length l.
Proof.
  induction l as [|a rest IH]; intros s bs; simpl.
  - intros E. injection E as <-. reflexivity.
  - unfold bind. destruct (f a s) as [s1 [b|e]]; [|discriminate].
    specialize (IH s1). destruct (mapM f rest s1) as [s2 [bs'|e]]; [|discriminate].
    simpl. intros E. injection E as <-. simpl. f_equal. now apply IH.
Qed.

Section Statements.

Variable W : Type.
Variable stringify : JsValue -> JsValue.
Variable parse : string -> M W JsValue.
Variable db : Database W.
Variable schema : Schema W.

Lemma pureM_parseType (S : Type) (type_ : string) (value : JsValue) :
  pureM (@parseType stringify S type_ value).
Proof.
  unfold parseType.
  destruct value; try apply pureM_ret;
    repeat match goal with
    | |- pureM (if ?b then _ else _) => destruct b
    | |- pureM (bind _ _) => apply pureM_bind; [apply pureM_quoted | intros ?]
    | |- pureM (ret _) => apply pureM_ret
    | |- pureM (throw _) => apply pureM_throw
    end.
Qed.

Lemma pureM_whereTerm (S : Type) (table : Table W) (joinWith : string)
    (entry : string * JsValue) :
  pureM (@whereTerm W stringify S table joinWith entry).
Proof.
  unfold whereTerm. destruct entry as [key val].
  destruct (property key (rows table)) as [rowDef|]; [|apply pureM_throw].
  destruct val;
    (apply pureM_bind;
     [first [apply pureM_parseType | apply pureM_mapM; intros ?; apply pureM_parseType]
     | intros ?; apply pureM_ret]).
Qed.

Lemma pureM_whereToSql (S : Type) (collection : string) (doc : Obj) (joinWith : string) :
  pureM (@whereToSql W stringify schema S collection doc joinWith).
Proof.
  unfold whereToSql. destruct doc as [|entry more]; [apply pureM_ret|].
  destruct (property collection schema) as [table|]; [|apply pureM_throw].
  apply pureM_bind; [|intros ?; apply pureM_ret].
  apply pureM_mapM. intros ?. apply pureM_whereTerm.
Qed.

(** X13.  [whereToSql] reads the schema and nothing else.  An empty document
    gives the empty text before the table is looked up, so it does so for an
    unknown collection too; any other document over an unknown collection is
    refused.  What it returns for a document that is not empty is never the
    empty text: it is [ WHERE ], one term per key joined by [ AND ], and a
    closing space. *)
Theorem whereToSql_outcomes (S : Type) (collection : string) (doc : Obj)
    (joinWith : string) (s : S) :
  let r := whereToSql stringify schema collection doc joinWith s in
  fst r = s
  /\ (doc = [] -> snd r = Ok ""%string)
  /\ (doc <> [] -> property collection schema = None ->
        snd r = Throw (Error ("Unable to find table " ++ collection ++ " in schema")%string))
  /\ (snd r = Ok ""%string -> doc = [])
  /\ (forall sql, doc <> [] -> snd r = Ok sql ->
        exists terms,
          sql = (" WHERE " ++ String.concat " AND " terms ++ " ")%string
          /\ length terms = length doc).
Proof.
  cbv zeta. split.
  - destruct (pureM_whereToSql S collection doc joinWith) as [r Hr]. now rewrite Hr.
  - unfold whereToSql. destruct doc as [|entry more].
    + split; [reflexivity|]. split; [congruence|]. split; [reflexivity|]. congruence.
    + split; [discriminate|].
      destruct (property collection schema) as [table|].
      * split; [discriminate|].
        unfold bind.
        destruct (mapM (whereTerm stringify table joinWith) (entry :: more) s)
          as [s' [terms|e]] eqn:E; cbn [snd ret].
        -- split; [discriminate|]. intros sql _ Esql. injection Esql as <-.
           exists terms. split; [reflexivity|].
           apply (mapM_length (whereTerm stringify table joinWith) (entry :: more) s).
           now rewrite E.
        -- split; [discriminate|]. discriminate.
      * split; [reflexivity|]. split; discriminate.
Qed.

Lemma parseType_numbers (S : Type) (items : list (option SafeInteger)) (s : S) :
  mapM (parseType stringify "Int") (map numberOrNull items) s
  = (s, Ok (map (fun o => match o with
                          | Some n => JsNumber n
                          | None => JsString "NULL"
                          end) items)).
Proof.
  induction items as [|[n|] rest IH]; [reflexivity| |];
    cbn [map mapM numberOrNull]; unfold bind at 1; cbn [parseType String.eqb Ascii.eqb
      Bool.eqb andb ret fst snd]; unfold bind at 1; rewrite IH; reflexivity.
Qed.

Lemma parseType_texts (S : Type) (texts : list string) (s : S) :
  mapM (parseType stringify "String") (map JsString texts) s
  = (s, Ok (map (fun text => JsString (textLiteral text)) texts)).
Proof.
  induction texts as [|text rest IH]; [reflexivity|].
  cbn [map mapM]. unfold bind at 1.
  cbn [parseType String.eqb Ascii.eqb Bool.eqb andb]. unfold quoted, escaped, bind at 1, ret.
  cbn [fst snd]. unfold bind at 1. unfold bind at 1. cbn [fst snd].
  unfold ret in IH. unfold bind. rewrite IH. reflexivity.
Qed.

Lemma join_literals {A : Type} (separator : string) (f : A -> JsValue) (g : A -> string)
    (items : list A) :
  (forall a, join separator [f a] = g a) ->
  join separator (map f items) = String.concat separator (map g items).
Proof.
  intros H. unfold join. rewrite map_map. f_equal. apply map_ext.
  intros a. specialize (H a). unfold join in H. cbn [map String.concat] in H. exact H.
Qed.

(** X14.  One term of the clause, by the value asked for.  [null] is compared
    with [IS], whatever operator was requested and whatever the column's
    type; so is the text NULL given for an [Int] column, which is passed
    on as it is.  A string for a [String] column is written between quotes
    with its own quotes doubled; any other value there has no [replace]
    method, and the call fails with a [TypeError].  An array becomes an
    [IN] list of the literals of its elements, in their order: numbers and
    NULL for an [Int] column, quoted texts for a [String] column. *)
Theorem whereTerm_by_value (S : Type) (table : Table W) (joinWith key : string)
    (rowDef : RowDef W) (s : S)
    (Hrow : property key (rows table) = Some rowDef) :
  let term := fun val => whereTerm stringify table joinWith (key, val) s in
  term JsNull = (s, Ok (dq ++ key ++ dq ++ " IS NULL")%string)
  /\ (type rowDef = "String"%string ->
        (forall text,
           term (JsString text)
           = (s, Ok (dq ++ key ++ dq ++ " " ++ joinWith ++ " "
                     ++ dq ++ escapeQuotes text ++ dq)%string))
        /\ (forall n, term (JsNumber n) = (s, Throw TypeError))
        /\ (forall b, term (JsBool b) = (s, Throw TypeError))
        /\ term JsUndefined = (s, Throw TypeError)
        /\ (forall texts,
              term (JsArray (map JsString texts))
              = (s, Ok (dq ++ key ++ dq ++ " IN ("
                        ++ String.concat "," (map textLiteral texts) ++ ")")%string)))
  /\ (type rowDef = "Int"%string ->
        (forall n,
           term (JsNumber n)
           = (s, Ok (dq ++ key ++ dq ++ " " ++ joinWith ++ " " ++ decimal n)%string))
        /\ term (JsString "NULL") = (s, Ok (dq ++ key ++ dq ++ " IS NULL")%string)
        /\ (forall items,
              term (JsArray (map numberOrNull items))
              = (s, Ok (dq ++ key ++ dq ++ " IN ("
                        ++ String.concat "," (map numberLiteral items) ++ ")")%string)))
  /\ (type rowDef = "Bool"%string ->
        forall v, v <> JsNull -> (forall items, v <> JsArray items) ->
          term v
          = (s, Ok (dq ++ key ++ dq ++ " " ++ joinWith ++ " "
                    ++ (if truthyValue v then "true" else "false"))%string)).
Proof.
  cbv zeta. unfold whereTerm. rewrite Hrow.
  split; [reflexivity|].
  split; [|split].
  - intros Ht. rewrite Ht.
    split; [|split; [|split; [|split]]]; try (intros; reflexivity).
    intros texts. unfold bind. rewrite parseType_texts. cbn [fst snd ret].
    rewrite (join_literals "," (fun text => JsString (textLiteral text)) textLiteral)
      by reflexivity.
    reflexivity.
  - intros Ht. rewrite Ht.
    split; [|split]; try (intros; reflexivity).
    intros items. unfold bind. rewrite parseType_numbers. cbn [fst snd ret].
    rewrite (join_literals ","
               (fun o => match o with Some n => JsNumber n | None => JsString "NULL" end)
               numberLiteral)
      by (intros [n|]; reflexivity).
    reflexivity.
  - intros Ht v Hnull Harr. unfold parseType. rewrite Ht.
    destruct v as [| |b|n|text|items|fields];
      try (now contradiction Hnull); try (exfalso; exact (Harr items eq_refl));
      cbn [String.eqb Ascii.eqb Bool.eqb andb]; unfold bind, ret;
      match goal with
      | |- context [truthyValue ?x] => destruct (truthyValue x)
      end; reflexivity.
Qed.

(** ** [findMany] and [findOne] *)

Lemma pureM_selectSql (S : Type) (collection : string) (options : FindManyOptions) :
  pureM (@selectSql W stringify schema S collection options).
Proof.
  unfold selectSql. apply pureM_bind; [apply pureM_whereToSql | intros ?; apply pureM_ret].
Qed.

(** X15.  [findMany] over a collection the schema does not know.  With a [where]
    clause that is not empty the call is refused while the statement is
    being built, and the database is not reached.  With an empty one the
    [SELECT] is built and sent first, and the missing table is reported only
    after the database has answered. *)
Theorem findMany_unknown_collection (collection : string) (options : FindManyOptions)
    (w : W)
    (Hno : property collection schema = None) :
  (where_ options <> [] ->
     findMany stringify parse db schema collection options w
     = (w, Throw (Error ("Unable to find table " ++ collection ++ " in schema")%string)))
  /\ (where_ options = [] ->
        exists sql,
          selectSql stringify schema collection options w = (w, Ok sql)
          /\ findMany stringify parse db schema collection options w
             = match all db sql w with
               | (w', Ok _) =>
                   (w', Throw (Error ("Unable to find table " ++ collection)%string))
               | (w', Throw e) => (w', Throw e)
               end).
Proof.
  unfold findMany, fetch, selectSql, whereToSql, bind. rewrite Hno. split.
  - intros Hw. destruct (where_ options) as [|entry more]; [congruence|]. reflexivity.
  - intros Hw. rewrite Hw. cbn [ret fst snd]. eexists. split; [reflexivity|].
    destruct (all db _ w) as [w' [models|e]]; reflexivity.
Qed.

(** X16.  [findOne] asks [findMany] for one row and hands back the first model or
    [undefined]: whatever the database answers, it never returns [null]. *)
Theorem findOne_first_or_undefined (collection : string) (options : FindManyOptions)
    (w : W) :
  let r := findOne stringify parse db schema collection options w in
  let many :=
    findMany stringify parse db schema collection (withLimit options (Some number1)) w in
  fst r = fst many
  /\ match snd many with
     | Ok [] => snd r = Ok JsUndefined
     | Ok (obj :: _) => snd r = Ok (JsObject obj)
     | Throw e => snd r = Throw e
     end
  /\ (forall v, snd r = Ok v -> v = JsUndefined \/ exists obj, v = JsObject obj).
Proof.
  cbv zeta. unfold findOne, withLimit, bind.
  destruct (findMany stringify parse db schema collection _ w) as [w' [[|obj more]|e]];
    cbn [fst snd ret]; (split; [reflexivity|]); (split; [reflexivity|]);
    intros v E; try discriminate; injection E as <-; eauto.
Qed.

(** X17.  In [findMany] a [limit] of 0 is no limit: the statement sent is the one
    sent without a [limit], and so is everything that follows.  In
    [deleteMany] a [limit] of 0 is written into the statement, which
    therefore differs from the one without a [limit]. *)
Theorem limit_zero (collection : string) (options : FindManyOptions) (table : Table W)
    (w : W) :
  findMany stringify parse db schema collection (withLimit options (Some number0)) w
  = findMany stringify parse db schema collection (withLimit options None) w
  /\ (forall zero none,
        snd (deleteSql stringify schema table collection (withLimit options (Some number0)) w)
        = Ok zero ->
        snd (deleteSql stringify schema table collection (withLimit options None) w)
        = Ok none ->
        zero <> none).
Proof.
  split; [reflexivity|].
  intros zero none E1 E2 Heq.
  assert (L : String.length zero = (String.length none + 9)%nat); [|subst; lia].
  revert E1 E2. clear Heq. unfold deleteSql, withLimit, bind. cbn [where_ orderBy limit].
  destruct (whereToSql stringify schema collection (where_ options) "=" w) as [w' [t|e]];
    cbn [snd ret]; [|discriminate].
  intros E1 E2. injection E1 as <-. injection E2 as <-.
  repeat (cbn [String.length String.append]; rewrite string_length_append).
  cbn. lia.
Qed.

(** ** [update], [create] and [upsert] *)

(** X18.  [upsert] runs [update] first.  When that changed rows, nothing is
    inserted and the number of changed rows is reported.  Otherwise the
    [create] document is inserted and the report is one row created,
    whatever number the insert itself reported.  An [update] object without
    keys makes [update] return 0 before it looks at the schema or reaches
    the database, so such an [upsert] always inserts. *)
Theorem upsert_outcomes (collection : string) (options : UpsertOptions) (w : W) :
  let updating :=
    update stringify db schema collection
      {| update_where := upsert_where options; update_update := upsert_update options |} w in
  let creating := fun w' =>
    create stringify db schema collection (OneDoc (upsert_create options)) w' in
  let r := upsert stringify db schema collection options w in
  (upsert_update options = [] -> updating = (w, Ok 0))
  /\ (forall e, snd updating = Throw e -> r = (fst updating, Throw e))
  /\ (forall n, snd updating = Ok n -> n > 0 ->
        r = (fst updating, Ok {| updated := n; created := 0 |}))
  /\ (forall n, snd updating = Ok n -> n <= 0 ->
        fst r = fst (creating (fst updating))
        /\ match snd (creating (fst updating)) with
           | Ok _ => snd r = Ok {| updated := 0; created := 1 |}
           | Throw e => snd r = Throw e
           end)
  /\ (forall result_, snd r = Ok result_ ->
        (updated result_ > 0 /\ created result_ = 0)
        \/ (updated result_ = 0 /\ created result_ = 1)).
Proof.
  cbv zeta. unfold upsert, bind.
  split.
  { intros E. unfold update. now rewrite E. }
  destruct (update stringify db schema collection _ w) as [w1 [n|e]]; cbn [fst snd].
  - split; [discriminate|].
    destruct (n >? 0) eqn:G.
    + apply Z.gtb_lt in G. cbn [ret].
      split; [intros m E _; injection E as <-; reflexivity|].
      split; [intros m E L; injection E as <-; lia|].
      intros result_ E. injection E as <-. cbn. left. lia.
    + rewrite Z.gtb_ltb in G. apply Z.ltb_ge in G.
      split; [intros m E L; injection E as <-; lia|].
      destruct (create stringify db schema collection (OneDoc (upsert_create options)) w1)
        as [w2 [c|e]]; cbn [fst snd ret].
      * split; [intros m _ _; split; reflexivity|].
        intros result_ E. injection E as <-. cbn. right. lia.
      * split; [intros m _ _; split; reflexivity|]. discriminate.
  - split; [intros e' E; injection E as <-; reflexivity|].
    split; [discriminate|]. split; discriminate.
Qed.

Lemma insertKeys_step (seen : list string) (more : list string) :
  let result_ :=
    fold_left (fun seen key => if existsb (String.eqb key) seen then seen else seen ++ [key])
      more seen in
  NoDup seen ->
  NoDup result_ /\ forall k, In k result_ <-> In k seen \/ In k more.
Proof.
  cbv zeta. revert seen. induction more as [|key rest IH]; intros seen Hnd; simpl.
  - split; [exact Hnd|]. intros k. tauto.
  - destruct (existsb (String.eqb key) seen) eqn:E.
    + destruct (IH seen Hnd) as [N I]. split; [exact N|]. intros k. rewrite I.
      apply existsb_exists in E. destruct E as (x & Hx & Ex). apply String.eqb_eq in Ex.
      subst x. split; [tauto|]. intros [H|[H|H]]; subst; auto.
    + assert (Hnot : ~ In key seen).
      { intros Hin. assert (C : existsb (String.eqb key) seen = true).
        { apply existsb_exists. exists key. split; [exact Hin | apply String.eqb_refl]. }
        congruence. }
      assert (Hnd' : NoDup (seen ++ [key])).
      { apply NoDup_app; [exact Hnd | constructor; [intros []|constructor] |].
        intros x Hx [Hk|[]]. subst. contradiction. }
      destruct (IH (seen ++ [key]) Hnd') as [N I]. split; [exact N|].
      intros k. rewrite I, in_app_iff. simpl. tauto.
Qed.

(** X19.  The columns of an [INSERT] are the keys of all the documents, each
    named once, whatever keys the documents share or lack. *)
Theorem insertKeys_once (docs : list Obj) :
  NoDup (insertKeys docs)
  /\ forall k, In k (insertKeys docs) <-> exists doc, In doc docs /\ In k (keys doc).
Proof.
  unfold insertKeys.
  destruct (insertKeys_step [] (flat_map keys docs) (NoDup_nil _)) as [N I].
  split; [exact N|]. intros k. rewrite I, in_flat_map. simpl. tauto.
Qed.

(** X20.  What [create] writes for one value is [NULL], [true], [false], a number
    in decimal, or a text between quotes with its own quotes doubled: a
    value whose JavaScript type does not fit the column is written as
    [NULL], and a string is only ever written quoted. *)
Theorem insertValue_shape (S : Type) (table : Table W) (doc : Obj) (k : string) (s : S) :
  let r := insertValue stringify table doc k s in
  fst r = s
  /\ (property k (rows table) = None ->
        snd r = Throw (Error ("Unable to find row definition for key: "
                              ++ dq ++ k ++ dq)%string))
  /\ (forall written, snd r = Ok written ->
        written = "NULL"%string \/ written = "true"%string \/ written = "false"%string
        \/ (exists n, field k doc = JsNumber n /\ written = decimal n)
        \/ (exists text, written = (dq ++ escapeQuotes text ++ dq)%string))
  /\ (forall rowDef text, property k (rows table) = Some rowDef ->
        field k doc = JsString text ->
        snd r = Ok (if (type rowDef =? "String")%string
                    then (dq ++ escapeQuotes text ++ dq)%string
                    else "NULL"%string)).
Proof.
  cbv zeta. unfold insertValue.
  destruct (property k (rows table)) as [rowDef|]; cbn [fst snd throw].
  2: { split; [reflexivity|]. split; [reflexivity|]. split; discriminate. }
  assert (Q : forall v,
             fst (@quoted S v s) = s
             /\ forall written, snd (@quoted S v s) = Ok written ->
                  exists text, written = (dq ++ escapeQuotes text ++ dq)%string).
  { intros v. unfold quoted, escaped, bind.
    destruct v; cbn; (split; [reflexivity|]); intros written E; try discriminate.
    injection E as <-. eexists. reflexivity. }
  destruct (field k doc) as [| |b|n|text|items|fields] eqn:F;
    repeat match goal with
    | |- context [if ?c then _ else _] => destruct c eqn:?
    end;
    cbn [fst snd ret];
    (split; [first [reflexivity | apply Q]|]);
    (split; [discriminate|]);
    (split;
     [intros written E;
      first [ injection E as <-;
              first [ now left | now (right; left) | now (right; right; left)
                    | now (right; right; right; left; eexists; split; reflexivity)
                    | now (do 4 right; eexists; reflexivity) ]
            | apply Q in E; destruct E as [t ->]; do 4 right; eexists; reflexivity ]
     | intros rowDef' text' E1 E2;
       first [ discriminate
             | injection E1 as <-; injection E2 as <-;
               repeat match goal with
               | H : _ = true |- _ => rewrite H
               | H : _ = false |- _ => rewrite H
               end; reflexivity ]]).
Qed.

Lemma field_assign (key k : string) (v : JsValue) (o : Obj) :
  field key (assign k v o) = if (k =? key)%string then v else field key o.
Proof.
  unfold field. induction o as [|[k0 v0] rest IH]; simpl.
  - destruct (k =? key)%string; reflexivity.
  - destruct (k0 =? k)%string eqn:E0; simpl.
    + apply String.eqb_eq in E0. subst k0.
      destruct (k =? key)%string; reflexivity.
    + destruct (k0 =? key)%string eqn:E1; [|exact IH].
      apply String.eqb_eq in E1. subst k0.
      rewrite String.eqb_sym in E0. now rewrite E0.
Qed.

Lemma keepsGiven_refl (doc : Obj) : keepsGiven doc doc.
Proof. intros key _. reflexivity. Qed.

Lemma keepsGiven_trans (a b c : Obj) : keepsGiven a b -> keepsGiven b c -> keepsGiven a c.
Proof.
  intros Hab Hbc key G. rewrite <- (Hab key G). apply Hbc.
  unfold given in *. now rewrite (Hab key G).
Qed.

Lemma fillDefault_keeps (row : RowDef W) (doc doc' : Obj) (w w' : W) :
  fillDefault row doc w = (w', Ok doc') -> keepsGiven doc doc'.
Proof.
  unfold fillDefault.
  destruct (negb (hasDefault row) || given doc (name row)) eqn:E.
  - intros H. injection H as _ <-. apply keepsGiven_refl.
  - apply orb_false_iff in E. destruct E as [_ G].
    unfold bind.
    destruct (match default row with
              | Some (DefaultFunction f) => f
              | Some (DefaultValue v) => ret v
              | None => ret JsUndefined
              end w) as [w1 [v|e]]; [|discriminate].
    intros H. injection H as _ <-. intros key Gk. rewrite field_assign.
    destruct (name row =? key)%string eqn:Ek; [|reflexivity].
    apply String.eqb_eq in Ek. subst key. congruence.
Qed.

Lemma mapM_fillDefault_keeps (row : RowDef W) (docs : list Obj) :
  forall docs' w w',
    mapM (fillDefault row) docs w = (w', Ok docs') -> Forall2 keepsGiven docs docs'.
Proof.
  induction docs as [|doc rest IH]; intros docs' w w'; simpl.
  - intros H. injection H as _ <-. constructor.
  - unfold bind at 1.
    destruct (fillDefault row doc w) as [w1 [d|e]] eqn:F; [|discriminate].
    unfold bind at 1.
    destruct (mapM (fillDefault row) rest w1) as [w2 [ds|e]] eqn:R; [|discriminate].
    intros H. injection H as _ <-. constructor.
    + exact (fillDefault_keeps _ _ _ _ _ F).
    + exact (IH _ _ _ R).
Qed.

Lemma Forall2_keepsGiven_trans (a b c : list Obj) :
  Forall2 keepsGiven a b -> Forall2 keepsGiven b c -> Forall2 keepsGiven a c.
Proof.
  intros Hab. revert c. induction Hab as [|x y xs ys Hxy _ IH]; intros c Hbc.
  - inversion Hbc. constructor.
  - inversion Hbc as [|y' z ys' zs Hyz Hrest]; subst. constructor.
    + exact (keepsGiven_trans _ _ _ Hxy Hyz).
    + now apply IH.
Qed.

Lemma Forall2_keepsGiven_refl (docs : list Obj) : Forall2 keepsGiven docs docs.
Proof. induction docs; constructor; [apply keepsGiven_refl | assumption]. Qed.

(** X21.  Filling in defaults never replaces a value the caller gave: every
    field of a document that held something other than [undefined] or
    [null] holds the same value afterwards, and the documents stay as many
    and in order.  A row without a default, or with one that is falsy (0,
    [false], the empty text), fills nothing in. *)
Theorem defaults_keep_given_values (table : Table W) (docs docs' : list Obj) (w w' : W)
    (Hrun : withDefaults table docs w = (w', Ok docs')) :
  Forall2 keepsGiven docs docs'
  /\ (forall (row : RowDef W) doc (w0 : W), hasDefault row = false ->
        fillDefault row doc w0 = (w0, Ok doc))
  /\ (forall (row : RowDef W) v, default row = Some (DefaultValue v) ->
        truthyValue v = false ->
        hasDefault row = false).
Proof.
  split; [|split].
  - revert docs docs' w w' Hrun. unfold withDefaults.
    induction (map snd (rows table)) as [|row more IH]; intros docs docs' w w'; simpl.
    + intros H. injection H as _ <-. apply Forall2_keepsGiven_refl.
    + unfold bind at 1.
      destruct (mapM (fillDefault row) docs w) as [w1 [ds|e]] eqn:F; [|discriminate].
      intros H. apply (Forall2_keepsGiven_trans _ ds).
      * exact (mapM_fillDefault_keeps _ _ _ _ _ F).
      * exact (IH _ _ _ _ H).
  - intros row doc w0 H. unfold fillDefault. now rewrite H.
  - intros row v D T. unfold hasDefault. now rewrite D.
Qed.

(** X22.  Writing [null].  [create] writes it as [NULL] into a column of type
    [String], [Int] or [Bool].  [update] does not: for a [String] column it
    calls [replace] on the value and fails with a [TypeError], for an [Int]
    column it writes the word [null] as it prints, and for a [Bool] column
    it writes [false]. *)
Theorem null_values_written (S : Type) (table : Table W) (key : string) (rowDef : RowDef W)
    (doc : Obj) (s : S)
    (Hrow : property key (rows table) = Some rowDef)
    (Hnull : field key doc = JsNull) :
  (type rowDef = "String"%string ->
     insertValue stringify table doc key s = (s, Ok "NULL"%string)
     /\ setTerm stringify table (key, JsNull) s = (s, Throw TypeError))
  /\ (type rowDef = "Int"%string ->
        insertValue stringify table doc key s = (s, Ok "NULL"%string)
        /\ setTerm stringify table (key, JsNull) s
           = (s, Ok (dq ++ key ++ dq ++ " = null")%string))
  /\ (type rowDef = "Bool"%string ->
        insertValue stringify table doc key s = (s, Ok "NULL"%string)
        /\ setTerm stringify table (key, JsNull) s
           = (s, Ok (dq ++ key ++ dq ++ " = false")%string)).
Proof.
  unfold insertValue, setTerm. rewrite Hrow, Hnull.
  split; [|split]; intros Ht; rewrite Ht; split; reflexivity.
Qed.

(** ** Relations *)

(** X23.  An [include] that names a relation with [false] loads nothing, yet the
    relation has to exist: the models come back as the [SELECT] gave them
    when the table knows the relation, and the call fails, after the
    [SELECT] has run, when it does not. *)
Theorem include_false (collection key : string) (options : FindManyOptions)
    (table : Table W) (w : W)
    (Htable : property collection schema = Some table)
    (Hinclude : include options = Some (IncludeObject [(key, IncludeFalse)])) :
  let fetched := fetch stringify parse db schema collection options w in
  (forall relation, property key (relations table) = Some relation ->
     findMany stringify parse db schema collection options w = fetched)
  /\ (property key (relations table) = None ->
        findMany stringify parse db schema collection options w
        = match fetched with
          | (w', Ok _) =>
              (w', Throw (Error ("Unable to find relation " ++ key ++ " in "
                                 ++ collection)%string))
          | (w', Throw e) => (w', Throw e)
          end).
Proof.
  cbv zeta. unfold findMany, bind. rewrite Hinclude.
  destruct (fetch stringify parse db schema collection options w) as [w' [models|e]].
  - cbn [loadIncluded]. rewrite Htable. split.
    + intros relation Hr. rewrite Hr. reflexivity.
    + intros Hr. rewrite Hr. reflexivity.
  - split; reflexivity.
Qed.

End Statements.

Lemma whereTerm_by_value_witness :
  property "root" (rows Sample.lightTree)
  = Some {| name := "root"; type := "String"; default := None |}
  /\ whereTerm Sample.stringify Sample.lightTree "=" ("root"%string, JsNull) tt
     = (tt, Ok (dq ++ "root" ++ dq ++ " IS NULL")%string)
  /\ whereTerm Sample.stringify Sample.lightTree "=" ("root"%string, JsNumber Sample.seven) tt
     = (tt, Throw TypeError)
  /\ whereTerm Sample.stringify Sample.lightTree "="
       ("root"%string, JsArray [JsString "1"; JsString ("2" ++ dq)]) tt
     = (tt, Ok (dq ++ "root" ++ dq ++ " IN (" ++ dq ++ "1" ++ dq ++ ","
                ++ dq ++ "2" ++ dq ++ dq ++ dq ++ ")")%string).
Proof.
  split; [reflexivity|].
  destruct (whereTerm_by_value Sample.World Sample.stringify unit Sample.lightTree
              "=" "root" {| name := "root"; type := "String"; default := None |} tt eq_refl)
    as (A & B & _).
  split; [exact A|].
  destruct (B eq_refl) as (_ & N & _ & _ & L).
  split; [exact (N Sample.seven) | exact (L ["1"; ("2" ++ dq)]%string)].
Defined.

Lemma findMany_unknown_collection_witness :
  property "Missing" Sample.schema = None
  /\ findMany Sample.stringify Sample.parse Sample.recorder Sample.schema "Missing"
       (Sample.bySpecies number0) []
     = ([], Throw (Error "Unable to find table Missing in schema"))
  /\ findMany Sample.stringify Sample.parse Sample.recorder Sample.schema "Missing"
       Sample.everything []
     = ([("SELECT * FROM " ++ dq ++ "Missing" ++ dq ++ "   ;")%string],
        Throw (Error "Unable to find table Missing")).
Proof.
  split; [reflexivity|].
  destruct (findMany_unknown_collection Sample.World Sample.stringify Sample.parse
              Sample.recorder Sample.schema "Missing" (Sample.bySpecies number0) [] eq_refl)
    as [A _].
  split; [apply A; discriminate | reflexivity].
Defined.

Lemma defaults_keep_given_values_witness :
  withDefaults Sample.lightTree [[("root"%string, JsString "9"); ("start"%string, JsNull)]] []
  = ([], Ok [[("root"%string, JsString "9"); ("start"%string, JsString "0");
              ("id"%string, JsString "tree-1")]])
  /\ Forall2 keepsGiven
       [[("root"%string, JsString "9"); ("start"%string, JsNull)]]
       [[("root"%string, JsString "9"); ("start"%string, JsString "0");
         ("id"%string, JsString "tree-1")]].
Proof.
  split; [reflexivity|].
  exact (proj1 (defaults_keep_given_values Sample.World Sample.lightTree
                  [[("root"%string, JsString "9"); ("start"%string, JsNull)]]
                  [[("root"%string, JsString "9"); ("start"%string, JsString "0");
                    ("id"%string, JsString "tree-1")]] [] [] eq_refl)).
Defined.

Lemma null_values_written_witness :
  property "root" (rows Sample.lightTree)
  = Some {| name := "root"; type := "String"; default := None |}
  /\ insertValue Sample.stringify Sample.lightTree [("root"%string, JsNull)] "root" tt
     = (tt, Ok "NULL"%string)
  /\ setTerm Sample.stringify Sample.lightTree ("root"%string, JsNull) tt
     = (tt, Throw TypeError).
Proof.
  split; [reflexivity|].
  destruct (null_values_written Sample.World Sample.stringify unit Sample.lightTree "root"
              {| name := "root"; type := "String"; default := None |}
              [("root"%string, JsNull)] tt eq_refl eq_refl) as (A & _).
  exact (A eq_refl).
Defined.

Lemma include_false_witness :
  property "LightTree" Sample.schema = Some Sample.lightTree
  /\ findMany Sample.stringify Sample.parse Sample.recorder Sample.schema "LightTree"
       {| where_ := []; orderBy := None;
          include := Some (IncludeObject [("nodes"%string, IncludeFalse)]);
          limit := None |} []
     = ([("SELECT * FROM " ++ dq ++ "LightTree" ++ dq ++ "   ;")%string],
        Throw (Error "Unable to find relation nodes in LightTree")).
Proof.
  split; [reflexivity|].
  destruct (include_false Sample.World Sample.stringify Sample.parse Sample.recorder
              Sample.schema "LightTree" "nodes"
              {| where_ := []; orderBy := None;
                 include := Some (IncludeObject [("nodes"%string, IncludeFalse)]);
                 limit := None |}
              Sample.lightTree [] eq_refl eq_refl) as [_ B].
  exact (B eq_refl).
Defined.

(** ** Reading a clause back *)

Lemma string_append_assoc (a b c : string) :
  ((a ++ b) ++ c)%string = (a ++ b ++ c)%string.
Proof. induction a as [|x rest IH]; simpl; [reflexivity | now rewrite IH]. Qed.

Lemma escapeQuotes_plain (s : string) : quotes s = O -> escapeQuotes s = s.
Proof.
  induction s as [|c rest IH]; simpl; [reflexivity|].
  destruct (Ascii.eqb c "034"%char); [discriminate|]. intros H. now rewrite IH.
Qed.

Lemma readQuoted_name (key after : string) :
  quotes key = O -> quoteFree after = true ->
  readQuoted (dq ++ key ++ dq ++ after)%string = Some (key, after).
Proof.
  intros Hk Ha. rewrite <- (escapeQuotes_plain key Hk) at 1.
  simpl. now apply readQuotedBody_escapeQuotes.
Qed.

Lemma readTerm_written (key text rest : string) :
  quotes key = O -> quoteFree rest = true ->
  readTerm (dq ++ key ++ dq ++ " = " ++ dq ++ escapeQuotes text ++ dq ++ rest)%string
  = Some (key, text, rest).
Proof.
  intros Hk Hr. unfold readTerm.
  rewrite readQuoted_name by (exact Hk || reflexivity).
  simpl.
  pose proof (readQuotedBody_escapeQuotes text rest Hr) as R. simpl in R.
  now rewrite R.
Qed.

Section Reading.

Variable W : Type.
Variable stringify : JsValue -> JsValue.
Variable schema : Schema W.

Lemma whereTerms_of_texts (S : Type) (table : Table W) (pairs : list (string * string))
    (s : S) :
  Forall (fun p => exists rowDef, property (fst p) (rows table) = Some rowDef
                                  /\ type rowDef = "String"%string) pairs ->
  mapM (whereTerm stringify table "=") (textDoc pairs) s = (s, Ok (map textTerm pairs)).
Proof.
  induction 1 as [|[key text] rest (rowDef & Hrow & Ht) _ IH]; [reflexivity|].
  cbn [fst snd] in Hrow. cbn [textDoc map mapM fst snd]. unfold bind at 1.
  unfold whereTerm at 1. rewrite Hrow. unfold parseType. rewrite Ht.
  cbn [String.eqb Ascii.eqb Bool.eqb andb]. unfold quoted, escaped, bind, ret.
  cbn [fst snd isNULL toString].
  fold (textDoc rest). unfold ret in IH. rewrite IH. reflexivity.
Qed.

Lemma readTerms_written (pairs : list (string * string)) (rest : string) :
  Forall (fun p => quotes (fst p) = O) pairs ->
  quoteFree rest = true -> pairs <> [] ->
  readTerms (length pairs) (String.concat " AND " (map textTerm pairs) ++ rest)%string
  = Some (pairs, rest).
Proof.
  intros Hk Hr. induction Hk as [|[key text] more Hkey _ IH]; [congruence|]. intros _.
  destruct more as [|p more'].
  - cbn [map String.concat length readTerms]. unfold textTerm. cbn [fst snd].
    rewrite !string_append_assoc. simpl.
    pose proof (readTerm_written key text rest Hkey Hr) as R. simpl in R. rewrite R.
    reflexivity.
  - change (String.concat " AND " (map textTerm ((key, text) :: p :: more')))
      with (textTerm (key, text) ++ " AND "
            ++ String.concat " AND " (map textTerm (p :: more')))%string.
    specialize (IH ltac:(discriminate)).
    change (length ((key, text) :: p :: more')) with (S (length (p :: more'))).
    remember (String.concat " AND " (map textTerm (p :: more'))) as tail eqn:Etail.
    remember (length (p :: more')) as n eqn:En.
    assert (Hn : exists m, n = S m) by (subst n; now eexists).
    cbn [readTerms]. unfold textTerm at 1. cbn [fst snd].
    rewrite !string_append_assoc. simpl.
    pose proof (readTerm_written key text (" AND " ++ tail ++ rest)%string Hkey eq_refl) as R.
    simpl in R. rewrite R.
    destruct Hn as [m ->]. cbn [dropPrefix Ascii.eqb Bool.eqb].
    rewrite IH. reflexivity.
Qed.

(** X26.  A clause asking for texts in [String] columns can be read back:
    when no column name holds a quote, the text [whereToSql] returns reads,
    term by term, as the names and the texts that were asked for, whatever
    the texts hold.  No text can end its literal early or add a term. *)
Theorem where_clause_reads_back (S : Type) (collection : string) (table : Table W)
    (pairs : list (string * string)) (s : S)
    (Htable : property collection schema = Some table)
    (Hsome : pairs <> [])
    (Hcolumns : Forall (fun p => exists rowDef,
                          property (fst p) (rows table) = Some rowDef
                          /\ type rowDef = "String"%string) pairs)
    (Hnames : Forall (fun p => quotes (fst p) = O) pairs) :
  exists sql,
    whereToSql stringify schema collection (textDoc pairs) "=" s = (s, Ok sql)
    /\ readWhere (length pairs) sql = Some pairs.
Proof.
  unfold whereToSql.
  destruct (textDoc pairs) as [|e es] eqn:Edoc.
  { destruct pairs; [congruence | discriminate Edoc]. }
  rewrite <- Edoc, Htable. unfold bind.
  rewrite (whereTerms_of_texts S table pairs s Hcolumns). cbn [ret].
  eexists. split; [reflexivity|].
  unfold readWhere. cbn [dropPrefix String.append Ascii.eqb Bool.eqb].
  rewrite (readTerms_written pairs " " Hnames eq_refl Hsome). reflexivity.
Qed.

End Reading.

Lemma where_clause_reads_back_witness :
  whereToSql Sample.stringify Sample.schema "LightTree"
    (textDoc [("root"%string,
               ("9" ++ dq ++ " OR " ++ dq ++ "1" ++ dq ++ " = " ++ dq ++ "1")%string);
              ("index"%string, "0"%string)]) "=" tt
  = (tt, Ok (" WHERE " ++ dq ++ "root" ++ dq ++ " = " ++ dq ++ "9" ++ dq ++ dq ++ " OR "
             ++ dq ++ dq ++ "1" ++ dq ++ dq ++ " = " ++ dq ++ dq ++ "1" ++ dq
             ++ " AND " ++ dq ++ "index" ++ dq ++ " = " ++ dq ++ "0" ++ dq ++ " ")%string)
  /\ exists sql,
       whereToSql Sample.stringify Sample.schema "LightTree"
         (textDoc [("root"%string,
                    ("9" ++ dq ++ " OR " ++ dq ++ "1" ++ dq ++ " = " ++ dq ++ "1")%string);
                   ("index"%string, "0"%string)]) "=" tt = (tt, Ok sql)
       /\ readWhere 2 sql
          = Some [("root"%string,
                   ("9" ++ dq ++ " OR " ++ dq ++ "1" ++ dq ++ " = " ++ dq ++ "1")%string);
                  ("index"%string, "0"%string)].
Proof.
  split; [reflexivity|].
  apply (where_clause_reads_back Sample.World Sample.stringify Sample.schema unit "LightTree"
           Sample.lightTree
           [("root"%string, ("9" ++ dq ++ " OR " ++ dq ++ "1" ++ dq ++ " = " ++ dq ++ "1")%string);
            ("index"%string, "0"%string)] tt eq_refl).
  - discriminate.
  - repeat constructor; eexists; split; reflexivity.
  - repeat constructor.
Defined.
